(** * Manhwa-Bot: the chapter-check subsystem

    A shallow embedding of [cogs/Tracking.py] (the scheduled pass of
    [AddManhwaComick]) and [cogs/Manual_Check.py] (the on-demand pass of
    [ManualCheck]), followed by the properties of the two passes.

    The Python code is asynchronous but strictly sequential: every [await]
    is a suspension point of one cooperative task.  It is embedded in a
    state-and-exception monad over an explicit system state (the
    [chapter_tracking] table, counters for the calls made to the outside,
    a trace of the observable events).  The outside (upstream API, database
    faults, message delivery) is a record of oracles, [World]. *)

From Stdlib Require Import ZArith List String Ascii Bool Lia PeanoNat Permutation.
From Stdlib Require Import Floats.SpecFloat.
Import ListNotations.

Open Scope string_scope.
Open Scope list_scope.

Set Warnings "-register-all".

(* ================================================================== *)
(** * Python values *)
(* ================================================================== *)

(** Python floats are IEEE 754 binary64 numbers: [spec_float] with
    precision 53 and maximal exponent 1024. *)
Definition float := spec_float.

Definition prec : Z := 53.
Definition emax : Z := 1024.

(** [float(z)] for an exact integer: round to nearest, ties to even. *)
Definition float_of_Z (z : Z) : float := binary_normalize prec emax z 0 false.

(** [bool(x)] of a float: [x != 0.0]; a NaN is true. *)
Definition float_truthy (x : float) : bool := negb (SFeqb x (S754_zero false)).

(** [a > b] on floats. *)
Definition float_gt (a b : float) : bool := SFltb b a.

(** The exceptions the embedded code can meet.  All of them derive from
    Python's [Exception]. *)
Inductive exn : Type :=
| TypeError
| ValueError
| KeyError
| IndexError
| AttributeError
| OverflowError
| IntegrityError      (* sqlite3: a constraint of the schema is violated *)
| OperationalError    (* sqlite3: the database cannot be opened, read or written *)
| InterfaceError      (* sqlite3: a parameter of an unsupported type
                          (ProgrammingError from Python 3.11 on) *)
| DeliveryError.      (* discord: the user cannot be fetched or reached *)

Inductive result (A : Type) : Type :=
| Ok (a : A)
| Raise (e : exn).
Arguments Ok {A} a.
Arguments Raise {A} e.

(** A decoded JSON document, as [json.loads] builds it: [None], [bool],
    [int], [float], [str], [list] and [dict].  A dict is the list of its
    items; [assoc] reads the first binding of a key. *)
Inductive json : Type :=
| JNull
| JBool (b : bool)
| JInt (z : Z)
| JFloat (x : float)
| JStr (s : string)
| JArr (l : list json)
| JObj (items : list (string * json)).

Fixpoint assoc {A : Type} (k : string) (items : list (string * A)) : option A :=
  match items with
  | [] => None
  | (k', v) :: rest => if String.eqb k' k then Some v else assoc k rest
  end.

Module Py.

(** [bool(v)]. *)
Definition truthy (v : json) : bool :=
  match v with
  | JNull => false
  | JBool b => b
  | JInt z => negb (Z.eqb z 0)
  | JFloat x => float_truthy x
  | JStr s => negb (String.eqb s "")
  | JArr l => match l with [] => false | _ => true end
  | JObj items => match items with [] => false | _ => true end
  end.

(** [k in v], for a string [k]. *)
Definition contains (k : string) (v : json) : result bool :=
  match v with
  | JObj items => Ok (match assoc k items with Some _ => true | None => false end)
  | JArr l => Ok (existsb (fun x => match x with JStr s => String.eqb s k | _ => false end) l)
  | JStr s => Ok (match index 0 k s with Some _ => true | None => false end)
  | JNull | JBool _ | JInt _ | JFloat _ => Raise TypeError
  end.

(** [v[k]], for a string [k]. *)
Definition item (v : json) (k : string) : result json :=
  match v with
  | JObj items => match assoc k items with Some x => Ok x | None => Raise KeyError end
  | _ => Raise TypeError
  end.

(** [v[0]].  The keys of a decoded JSON object are strings, so [0] is
    never one of them. *)
Definition item0 (v : json) : result json :=
  match v with
  | JArr (x :: _) => Ok x
  | JArr [] => Raise IndexError
  | JStr (String c _) => Ok (JStr (String c EmptyString))
  | JStr EmptyString => Raise IndexError
  | JObj _ => Raise KeyError
  | JNull | JBool _ | JInt _ | JFloat _ => Raise TypeError
  end.

(** [len(v)]. *)
Definition len (v : json) : result nat :=
  match v with
  | JArr l => Ok (List.length l)
  | JObj items => Ok (List.length items)
  | JStr s => Ok (String.length s)
  | JNull | JBool _ | JInt _ | JFloat _ => Raise TypeError
  end.

(** [v.get(k, d)]: only a dict has the method. *)
Definition get_default (v : json) (k : string) (d : json) : result json :=
  match v with
  | JObj items => Ok (match assoc k items with Some x => x | None => d end)
  | _ => Raise AttributeError
  end.

(** [v.get(k)]. *)
Definition get (v : json) (k : string) : result json := get_default v k JNull.

(** [a or b]. *)
Definition or (a b : json) : json := if truthy a then a else b.

(** [float(v)].  The reading of a string is Python's own and is a
    parameter of the embedding. *)
Definition to_float (float_of_str : string -> option float) (v : json) : result float :=
  match v with
  | JNull => Raise TypeError
  | JBool b => Ok (float_of_Z (if b then 1 else 0))
  | JInt z =>
      match float_of_Z z with
      | S754_infinity _ => Raise OverflowError
      | x => Ok x
      end
  | JFloat x => Ok x
  | JStr s => match float_of_str s with Some x => Ok x | None => Raise ValueError end
  | JArr _ | JObj _ => Raise TypeError
  end.

(** [int(x)] of a float: truncation towards zero. *)
Definition to_int (x : float) : result Z :=
  match x with
  | S754_zero _ => Ok 0%Z
  | S754_nan => Raise ValueError
  | S754_infinity _ => Raise OverflowError
  | S754_finite s m e =>
      let a := match e with
               | Z0 => Zpos m
               | Zpos p => Z.shiftl (Zpos m) (Zpos p)
               | Zneg p => Z.shiftr (Zpos m) (Zpos p)
               end in
      Ok (if s then Z.opp a else a)
  end.

(** [x == z] for a float and an exact integer. *)
Definition float_eq_int (x : float) (z : Z) : bool :=
  match x with
  | S754_zero _ => Z.eqb z 0
  | S754_finite s m e =>
      let a := if s then Zneg m else Zpos m in
      match e with
      | Z0 => Z.eqb a z
      | Zpos p => Z.eqb (Z.shiftl a (Zpos p)) z
      | Zneg p => Z.eqb a (Z.shiftl z (Zpos p))
      end
  | _ => false
  end.

End Py.

(* ================================================================== *)
(** * The outside world and the system state *)
(* ================================================================== *)

(** An HTTP GET as [aiohttp] sends it. *)
Record Request : Type := mkRequest {
  url : string;
  params : list (string * string);
  headers : list (string * string)
}.

(** What a GET comes back with: a response with its status and its body
    ([None] when [response.json()] cannot decode it), the total timeout
    elapsing ([asyncio.TimeoutError]), or any other transport error. *)
Inductive Outcome : Type :=
| Response (status : Z) (body : option json)
| TimedOut
| TransportError.

(** The oracles.  [http n r] answers request [r] when it is the [n]-th
    request sent; [db_fault n] tells whether the [n]-th database operation
    fails; [dm_fault n uid] whether the [n]-th call to the chat platform,
    made for user [uid], fails.  The last three fields are the readings
    and renderings of Python and SQLite that the code relies on:
    [float(s)] of a string, [str(v)] in an f-string, and the text SQLite
    stores in a TEXT column for a number. *)
Record World : Type := mkWorld {
  http : nat -> Request -> Outcome;
  db_fault : nat -> bool;
  dm_fault : nat -> Z -> bool;
  float_of_str : string -> option float;
  py_str : json -> string;
  sql_text : json -> string
}.

(** One row of [chapter_tracking]
    (id, user_id, manhwa_title, manhwa_slug, latest_chapter_notified,
    last_notified_time).  [add_manhwa], the only writer of new rows, gives
    user, title and slug a value; the progress column is nullable and the
    scheduled pass reads it as [latest_notified or 0].  The identifier is
    text: a row whose [manhwa_slug] is NULL, which only a NaN identifier
    from the upstream can produce (see [Store.bind_text]), is outside the
    tables considered here. *)
Record Row : Type := mkRow {
  row_id : Z;
  user_id : Z;
  manhwa_title : string;
  manhwa_slug : string;
  latest_chapter_notified : option float;
  last_notified_time : nat
}.

(** [LatestChapterInfo]: the dict [Tracking.get_latest_chapter] returns. *)
Record ChapterInfo : Type := mkInfo {
  info_title : string;
  info_slug : json;
  info_chapter : float;
  info_chapter_title : json;
  info_link : string;
  info_cover : json
}.

(** The dict [Manual_Check.get_latest_chapter] returns. *)
Record ManualLatest : Type := mkLatest {
  latest_number : json;
  latest_title : json;
  latest_url : string
}.

(** An entry of [updates] in [manual_check]:
    (title, latest_number, latest["title"], latest["url"]). *)
Definition ManualUpdate : Type := (string * float * json * string)%type.

(** The lines printed to the log. *)
Inductive LogMsg : Type :=
| LogApiStatus (status : Z) (u : string) (attempt : nat)
| LogApiTimeout (u : string) (attempt : nat)
| LogFetchError (u : string) (attempt : nat)
| LogSearching (title : string)
| LogNoResults (title : string)
| LogFound (title : json) (slug : json)
| LogCouldNotResolve (title : string)
| LogNoComicData (title : string)
| LogNoHid (title : string)
| LogNoChapters (title : string)
| LogRunning
| LogCheckingCount (n : nat)
| LogErrorChecking (title : string) (e : exn)
| LogSending (n : nat)
| LogSent (n : nat) (uid : Z)
| LogDMFailed (uid : Z) (e : exn)
| LogCheckFailed (e : exn)
| LogManualStatus (status : Z) (u : string)
| LogManualFetchError (u : string)
| LogManualResolved (title : string) (slug : json)
| LogManualCouldNotResolve (title : string)
| LogManualNoChapterData (slug : json)
| LogManualChecking (title : string) (slug : string)
| LogManualError (e : exn).

(** A field of the notification embed: the chapter is shown as an
    integer when it is one, the chapter title only when it is true. *)
Record EmbedField : Type := mkField {
  field_name : string;
  field_chapter : Z + float;
  field_chapter_title : option json;
  field_link : string
}.

Record Embed : Type := mkEmbed {
  embed_count : nat;
  embed_image : option json;
  embed_fields : list EmbedField
}.

(** The answers of [manual_check] to the interaction. *)
Inductive Followup : Type :=
| NotFollowing
| NoNewChapters
| ManualEmbed (entries : list ManualUpdate)
| CheckFailedSeeLogs.

(** The statements sent to SQLite. *)
Inductive Sql : Type :=
| SelectAll
| SelectUser (uid : Z)
| UpdateBySlug (chapter : float) (uid : Z) (slug : string)
| UpdateByTitle (chapter : float) (slug : json) (uid : Z) (title : string)
| Commit.

(** The observable events, newest first in the trace. *)
Inductive Event : Type :=
| EvGet (n : nat) (r : Request)
| EvSleep (d : nat)
| EvLog (m : LogMsg)
| EvSql (q : Sql) (ok : bool)
| EvFetchUser (uid : Z) (ok : bool)
| EvSend (uid : Z) (e : Embed) (ok : bool)
| EvFollowup (f : Followup).

(** The system state.  [session] is [self.session] of the tracking cog
    being set; [calls], [dbops] and [dms] count the requests, database
    operations and platform calls made so far; [clock] is the time spent
    in [asyncio.sleep]; [table] is the committed content of
    [chapter_tracking].  The last three fields are the local variables of
    the two passes: [user_updates] of the scheduled pass (a dict, in
    insertion order), and of [manual_check] the list [updates] and the
    view [txn] of the table inside its open connection (uncommitted
    changes included). *)
Record St : Type := mkSt {
  session : bool;
  calls : nat;
  clock : nat;
  dbops : nat;
  dms : nat;
  table : list Row;
  trace : list Event;
  user_updates : list (Z * list ChapterInfo);
  updates : list ManualUpdate;
  txn : list Row
}.

Definition set_calls (n : nat) (s : St) : St :=
  mkSt (session s) n (clock s) (dbops s) (dms s) (table s) (trace s)
       (user_updates s) (updates s) (txn s).
Definition set_clock (n : nat) (s : St) : St :=
  mkSt (session s) (calls s) n (dbops s) (dms s) (table s) (trace s)
       (user_updates s) (updates s) (txn s).
Definition set_dbops (n : nat) (s : St) : St :=
  mkSt (session s) (calls s) (clock s) n (dms s) (table s) (trace s)
       (user_updates s) (updates s) (txn s).
Definition set_dms (n : nat) (s : St) : St :=
  mkSt (session s) (calls s) (clock s) (dbops s) n (table s) (trace s)
       (user_updates s) (updates s) (txn s).
Definition set_table (t : list Row) (s : St) : St :=
  mkSt (session s) (calls s) (clock s) (dbops s) (dms s) t (trace s)
       (user_updates s) (updates s) (txn s).
Definition set_trace (t : list Event) (s : St) : St :=
  mkSt (session s) (calls s) (clock s) (dbops s) (dms s) (table s) t
       (user_updates s) (updates s) (txn s).
Definition set_user_updates (u : list (Z * list ChapterInfo)) (s : St) : St :=
  mkSt (session s) (calls s) (clock s) (dbops s) (dms s) (table s) (trace s)
       u (updates s) (txn s).
Definition set_updates (u : list ManualUpdate) (s : St) : St :=
  mkSt (session s) (calls s) (clock s) (dbops s) (dms s) (table s) (trace s)
       (user_updates s) u (txn s).
Definition set_txn (t : list Row) (s : St) : St :=
  mkSt (session s) (calls s) (clock s) (dbops s) (dms s) (table s) (trace s)
       (user_updates s) (updates s) t.

(* ================================================================== *)
(** * The monad of the embedded code *)
(* ================================================================== *)

(** A computation runs from a state to a value or a raised exception,
    and to the state it leaves behind: what was done before an exception
    is not undone. *)
Definition M (A : Type) : Type := St -> result A * St.

Definition ret {A : Type} (a : A) : M A := fun s => (Ok a, s).

Definition bind {A B : Type} (c : M A) (k : A -> M B) : M B :=
  fun s => match c s with
           | (Ok a, s') => k a s'
           | (Raise e, s') => (Raise e, s')
           end.

Definition raise {A : Type} (e : exn) : M A := fun s => (Raise e, s).

(** [lift r]: the value of a pure operation, or the exception it raises. *)
Definition lift {A : Type} (r : result A) : M A := fun s => (r, s).

(** [try: c  except Exception as e: h e]. *)
Definition try_except {A : Type} (c : M A) (h : exn -> M A) : M A :=
  fun s => match c s with
           | (Ok a, s') => (Ok a, s')
           | (Raise e, s') => h e s'
           end.

Declare Scope py_scope.
Delimit Scope py_scope with py.
Notation "x <- c ;; k" := (bind c (fun x => k))
  (at level 100, c at next level, right associativity) : py_scope.
Notation "c ;; k" := (bind c (fun _ => k))
  (at level 100, right associativity) : py_scope.
Open Scope py_scope.

Definition emit (e : Event) : M unit :=
  fun s => (Ok tt, set_trace (e :: trace s) s).

(** [print(...)]. *)
Definition log (m : LogMsg) : M unit := emit (EvLog m).

(** [await asyncio.sleep(d)]. *)
Definition sleep (d : nat) : M unit :=
  fun s => (Ok tt, set_trace (EvSleep d :: trace s) (set_clock (clock s + d) s)).

(** [session.get(url, params=..., headers=...)], up to the response. *)
Definition http_get (W : World) (r : Request) : M Outcome :=
  fun s => (Ok (http W (calls s) r),
            set_trace (EvGet (calls s) r :: trace s) (set_calls (S (calls s)) s)).

(** [for x in xs: body x]: an exception leaves the loop. *)
Fixpoint for_each {A : Type} (body : A -> M unit) (xs : list A) : M unit :=
  match xs with
  | [] => ret tt
  | x :: rest => body x ;; for_each body rest
  end.

(** An f-string hole: a [str] is inserted as it is, any other value
    through [str()]. *)
Definition fmt (W : World) (v : json) : string :=
  match v with
  | JStr s => s
  | _ => py_str W v
  end.

(* ================================================================== *)
(** * The tracking store: [chapter_tracking] in [manhwa.db] *)
(* ================================================================== *)

Module Store.

(** The schema of [init_chapter_tracking_db] declares
    [UNIQUE(user_id, manhwa_slug)]. *)
Definition key (r : Row) : Z * string := (user_id r, manhwa_slug r).

Definition key_eqb (a b : Z * string) : bool :=
  Z.eqb (fst a) (fst b) && String.eqb (snd a) (snd b).

Fixpoint unique_keys (t : list Row) : bool :=
  match t with
  | [] => true
  | r :: rest =>
      negb (existsb (fun r' => key_eqb (key r) (key r')) rest) && unique_keys rest
  end.

(** [SELECT user_id, manhwa_title, manhwa_slug, latest_chapter_notified
     FROM chapter_tracking]. *)
Definition select_all (t : list Row) : list (Z * string * string * option float) :=
  map (fun r => (user_id r, manhwa_title r, manhwa_slug r, latest_chapter_notified r)) t.

(** The order of the index that [UNIQUE(user_id, manhwa_slug)] creates,
    within one user: by identifier, byte by byte, then by rowid. *)
Definition index_leb (a b : Row) : bool :=
  match String.compare (manhwa_slug a) (manhwa_slug b) with
  | Lt => true
  | Eq => Z.leb (row_id a) (row_id b)
  | Gt => false
  end.

Fixpoint index_insert (r : Row) (rows : list Row) : list Row :=
  match rows with
  | [] => [r]
  | r' :: rest => if index_leb r r' then r :: rows else r' :: index_insert r rest
  end.

Definition index_order (rows : list Row) : list Row := fold_right index_insert [] rows.

(** [SELECT manhwa_title, manhwa_slug, latest_chapter_notified
     FROM chapter_tracking WHERE user_id = ?].  SQLite answers the
    equality on [user_id] through the index of the UNIQUE constraint, so
    the rows of the user come in the order of that index; the SELECT of
    the scheduled pass, which has no WHERE, scans the table in the order
    of the rowids. *)
Definition select_user (uid : Z) (t : list Row) : list (string * string * option float) :=
  map (fun r => (manhwa_title r, manhwa_slug r, latest_chapter_notified r))
      (index_order (filter (fun r => Z.eqb (user_id r) uid) t)).

(** [UPDATE chapter_tracking SET latest_chapter_notified = ?,
     last_notified_time = CURRENT_TIMESTAMP
     WHERE user_id = ? AND manhwa_slug = ?]. *)
Definition update_by_slug (chapter : float) (now : nat) (uid : Z) (slug : string)
           (t : list Row) : list Row :=
  map (fun r =>
         if Z.eqb (user_id r) uid && String.eqb (manhwa_slug r) slug
         then mkRow (row_id r) (user_id r) (manhwa_title r) (manhwa_slug r)
                    (Some chapter) now
         else r) t.

(** [UPDATE chapter_tracking SET latest_chapter_notified = ?,
     manhwa_slug = ?, last_notified_time = CURRENT_TIMESTAMP
     WHERE user_id = ? AND manhwa_title = ?].
    The statement rewrites a column of the UNIQUE constraint: SQLite
    rejects it with an integrity error, and undoes it, when two rows
    would end with the same (user_id, manhwa_slug).  On a table that
    satisfies the constraint this is the test of the rewritten table.
    The identifier written is text (see [bind_text]): the constraint
    exempts NULL, which is not followed here. *)
Definition update_by_title (chapter : float) (new_slug : string) (now : nat)
           (uid : Z) (title : string) (t : list Row) : result (list Row) :=
  let t' := map (fun r =>
                   if Z.eqb (user_id r) uid && String.eqb (manhwa_title r) title
                   then mkRow (row_id r) (user_id r) (manhwa_title r) new_slug
                              (Some chapter) now
                   else r) t in
  if unique_keys t' then Ok t' else Raise IntegrityError.

(** How [sqlite3] binds a Python value to the TEXT column [manhwa_slug]:
    a [str] as it is, a number through SQLite's text form ([sql_text]),
    an integer outside 64 bits not at all (OverflowError), a list or a
    dict not at all.

    The column holds text here: [manhwa_slug] of a [Row] is a string, and
    a row with a NULL identifier has no place in the table.  Two values
    would bind as NULL.  [None] is never passed: the callers test
    [if not resolved_slug] first; it is refused like the unsupported
    types.  A NaN, which [json.loads] accepts and which is truthy, is
    passed, and [sqlite3] stores NULL for it, which the UNIQUE constraint
    then exempts; it is given the text form of the other floats here, and
    that is the one value of an identifier on which this function does
    not follow the library.  What would not hold of a NULL identifier is
    stated for identifiers that are strings ([string_slugs], or an
    identifier given as a [JStr]). *)
Definition bind_text (W : World) (v : json) : result string :=
  match v with
  | JStr s => Ok s
  | JInt z =>
      if Z.leb (- 2 ^ 63) z && Z.ltb z (2 ^ 63) then Ok (sql_text W v)
      else Raise OverflowError
  | JBool _ | JFloat _ => Ok (sql_text W v)
  | JArr _ | JObj _ => Raise InterfaceError
  | JNull => Raise InterfaceError
  end.

End Store.

(** One database operation: the oracle decides whether it fails; a
    failure is recorded here, a success by the caller once the statement
    has had its effect. *)
Definition db_op (W : World) (q : Sql) : M unit :=
  fun s =>
    let s' := set_dbops (S (dbops s)) s in
    if db_fault W (dbops s)
    then (Raise OperationalError, set_trace (EvSql q false :: trace s') s')
    else (Ok tt, s').

(* ================================================================== *)
(** * [cogs/Tracking.py]: class [AddManhwaComick] *)
(* ================================================================== *)

Module Tracking.

Definition BASE_URL : string := "https://comick-api-proxy.notaspider.dev/api".
Definition WEB_BASE : string := "https://comick.dev".

(** [fetch_json] is always called with the default [retries = 2]. *)
Definition RETRIES : nat := 2.

Definition request (u : string) (ps : list (string * string)) : Request :=
  mkRequest u ps [].

(** The shared tail of the three failure branches of [fetch_json]:
    [if attempt <= retries: await asyncio.sleep(1); continue]
    and otherwise [return None]. *)
Definition retry_or_give_up (retries attempt : nat) (continue : M json) : M json :=
  if Nat.leb attempt retries then (sleep 1 ;; continue) else ret JNull.

(** The loop [for attempt in range(1, retries + 2)] of [fetch_json];
    leaving the loop without a [return] returns [None]. *)
Fixpoint fetch_attempts (W : World) (u : string) (ps : list (string * string))
         (retries : nat) (attempts : list nat) : M json :=
  match attempts with
  | [] => ret JNull
  | attempt :: rest =>
      out <- http_get W (request u ps) ;;
      match out with
      | Response status body =>
          if negb (Z.eqb status 200) then
            log (LogApiStatus status u attempt) ;;
            retry_or_give_up retries attempt (fetch_attempts W u ps retries rest)
          else
            match body with
            | Some j => ret j
            | None =>
                log (LogFetchError u attempt) ;;
                retry_or_give_up retries attempt (fetch_attempts W u ps retries rest)
            end
      | TimedOut =>
          log (LogApiTimeout u attempt) ;;
          retry_or_give_up retries attempt (fetch_attempts W u ps retries rest)
      | TransportError =>
          log (LogFetchError u attempt) ;;
          retry_or_give_up retries attempt (fetch_attempts W u ps retries rest)
      end
  end.

Definition fetch_json_with (W : World) (u : string) (ps : list (string * string))
           (retries : nat) : M json :=
  fun s =>
    if session s
    then fetch_attempts W u ps retries (seq 1 (retries + 1)) s
    else (Ok JNull, s).

Definition fetch_json (W : World) (u : string) (ps : list (string * string)) : M json :=
  fetch_json_with W u ps RETRIES.

Definition search_request_params (title : string) : list (string * string) :=
  [("q", title); ("tachiyomi", "true")].

(** [search_slug]: returns the pair [(slug, top)], or [(None, None)]. *)
Definition search_slug (W : World) (title : string) : M (json * json) :=
  log (LogSearching title) ;;
  data <- fetch_json W (BASE_URL ++ "/v1.0/search")%string (search_request_params title) ;;
  if negb (Py.truthy data) then
    log (LogNoResults title) ;;
    ret (JNull, JNull)
  else
    top <- lift (Py.item0 data) ;;
    slug <- lift (Py.get top "slug") ;;
    shown <- lift (Py.get_default top "title" (JStr title)) ;;
    log (LogFound shown slug) ;;
    ret (slug, top).

(** [not comic_data or "comic" not in comic_data]. *)
Definition no_comic (comic_data : json) : result bool :=
  if negb (Py.truthy comic_data) then Ok true
  else match Py.contains "comic" comic_data with
       | Ok b => Ok (negb b)
       | Raise e => Raise e
       end.

(** [not chapters_data or "chapters" not in chapters_data
     or not chapters_data["chapters"]]. *)
Definition no_chapters (chapters_data : json) : result bool :=
  if negb (Py.truthy chapters_data) then Ok true
  else match Py.contains "chapters" chapters_data with
       | Raise e => Raise e
       | Ok false => Ok true
       | Ok true =>
           match Py.item chapters_data "chapters" with
           | Raise e => Raise e
           | Ok l => Ok (negb (Py.truthy l))
           end
       end.

Definition comic_url (slug : string) : string := BASE_URL ++ "/v1.0/comic/" ++ slug.

Definition comic_params : list (string * string) := [("tachiyomi", "true")].

Definition chapters_params : list (string * string) :=
  [("limit", "1"); ("tachiyomi", "true")].

(** Step 1 of [get_latest_chapter]: the comic data under the stored
    slug, or under the slug a title search gives; [None] stands for the
    two [return None] of the fallback. *)
Definition resolve_comic (W : World) (title slug : string) : M (option (json * json)) :=
  comic_data <- fetch_json W (comic_url slug) comic_params ;;
  missing <- lift (no_comic comic_data) ;;
  if missing then
    found <- search_slug W title ;;
    let new_slug := fst found in
    if negb (Py.truthy new_slug) then
      log (LogCouldNotResolve title) ;;
      ret None
    else
      comic_data' <- fetch_json W (comic_url (fmt W new_slug)) comic_params ;;
      missing' <- lift (no_comic comic_data') ;;
      if missing' then
        log (LogNoComicData title) ;;
        ret None
      else ret (Some (new_slug, comic_data'))
  else ret (Some (JStr slug, comic_data)).

(** [chap_num = float(chap_num_raw)], and [0.0] on any exception. *)
Definition chapter_number (W : World) (chap_num_raw : json) : float :=
  match Py.to_float (float_of_str W) chap_num_raw with
  | Ok x => x
  | Raise _ => float_of_Z 0
  end.

(** [get_latest_chapter].  In [a.get(k1) or a.get(k2)] the second call
    is written out even when the first value is true: once the first
    [get] has passed, [a] is a dict and the second cannot raise. *)
Definition get_latest_chapter (W : World) (title slug : string) : M (option ChapterInfo) :=
  resolved <- resolve_comic W title slug ;;
  match resolved with
  | None => ret None
  | Some (slug', comic_data) =>
      comic_obj <- lift (Py.item comic_data "comic") ;;
      hid <- lift (Py.get comic_obj "hid") ;;
      cover1 <- lift (Py.get comic_obj "cover_url") ;;
      cover2 <- lift (Py.get comic_obj "cover") ;;
      let cover_url := Py.or cover1 cover2 in
      if negb (Py.truthy hid) then
        log (LogNoHid title) ;;
        ret None
      else
        chapters_data <-
          fetch_json W (BASE_URL ++ "/v1.0/comic/" ++ fmt W hid ++ "/chapters")%string
                     chapters_params ;;
        none <- lift (no_chapters chapters_data) ;;
        if none then
          log (LogNoChapters title) ;;
          ret None
        else
          chapters <- lift (Py.item chapters_data "chapters") ;;
          latest <- lift (Py.item0 chapters) ;;
          chap <- lift (Py.get latest "chap") ;;
          chapter <- lift (Py.get latest "chapter") ;;
          let chap_num_raw := Py.or (Py.or chap chapter) (JInt 0) in
          let chap_num := chapter_number W chap_num_raw in
          chap_title <- lift (Py.get_default latest "title" (JStr "")) ;;
          chap_hid1 <- lift (Py.get latest "hid") ;;
          chap_hid2 <- lift (Py.get latest "id") ;;
          let chap_hid := Py.or (Py.or chap_hid1 chap_hid2) (JStr "") in
          let chap_link :=
            (WEB_BASE ++ "/comic/" ++ fmt W slug' ++ "/chapter/" ++ fmt W chap_hid)%string in
          ret (Some (mkInfo title slug' chap_num chap_title chap_link cover_url))
  end.

(** ** The background task [_chapter_check_loop] *)

(** [latest_notified or 0]: NULL and a zero give the integer [0],
    which a float is compared with as with [0.0]. *)
Definition or_zero (latest_notified : option float) : float :=
  match latest_notified with
  | Some x => if float_truthy x then x else float_of_Z 0
  | None => float_of_Z 0
  end.

(** [user_updates[user_id].append(latest_info)], the key being created
    when it is new. *)
Fixpoint dict_append (uid : Z) (i : ChapterInfo) (d : list (Z * list ChapterInfo))
  : list (Z * list ChapterInfo) :=
  match d with
  | [] => [(uid, [i])]
  | (u, l) :: rest =>
      if Z.eqb u uid then (u, l ++ [i]) :: rest
      else (u, l) :: dict_append uid i rest
  end.

Definition record_update (uid : Z) (i : ChapterInfo) : M unit :=
  fun s => (Ok tt, set_user_updates (dict_append uid i (user_updates s)) s).

(** The block "Update DB immediately": a connection of its own, the
    UPDATE keyed by (user_id, manhwa_slug), and its commit. *)
Definition persist_progress (W : World) (chapter : float) (uid : Z) (slug : string)
  : M unit :=
  db_op W (UpdateBySlug chapter uid slug) ;;
  fun s =>
    (Ok tt,
     set_trace (EvSql (UpdateBySlug chapter uid slug) true :: trace s)
               (set_table (Store.update_by_slug chapter (clock s) uid slug (table s)) s)).

(** The body of [for user_id, manhwa_title, manhwa_slug, latest_notified
    in rows], with its own [try]/[except Exception]. *)
Definition check_row (W : World) (row : Z * string * string * option float) : M unit :=
  let '(uid, title, slug, latest_notified) := row in
  try_except
    (latest_info <- get_latest_chapter W title slug ;;
     match latest_info with
     | None => ret tt
     | Some info =>
         let latest_chapter_num := info_chapter info in
         if float_gt latest_chapter_num (or_zero latest_notified) then
           record_update uid info ;;
           persist_progress W latest_chapter_num uid slug
         else ret tt
     end)
    (fun e => log (LogErrorChecking title e)).

(** A call to the chat platform made for user [uid]. *)
Definition platform_call (W : World) (uid : Z) : M unit :=
  fun s =>
    let s' := set_dms (S (dms s)) s in
    if dm_fault W (dms s) uid then (Raise DeliveryError, s') else (Ok tt, s').

(** [int(c) if c == int(c) else c]. *)
Definition chapter_label (c : float) : result (Z + float) :=
  match Py.to_int c with
  | Raise e => Raise e
  | Ok z => Ok (if Py.float_eq_int c z then inl z else inr c)
  end.

Fixpoint embed_fields_of (ups : list ChapterInfo) : result (list EmbedField) :=
  match ups with
  | [] => Ok []
  | u :: rest =>
      match chapter_label (info_chapter u) with
      | Raise e => Raise e
      | Ok lbl =>
          match embed_fields_of rest with
          | Raise e => Raise e
          | Ok fs =>
              Ok (mkField (info_title u) lbl
                          (if Py.truthy (info_chapter_title u)
                           then Some (info_chapter_title u) else None)
                          (info_link u) :: fs)
          end
      end
  end.

(** [if updates and updates[0]['cover']: embed.set_image(...)]. *)
Definition embed_image_of (ups : list ChapterInfo) : option json :=
  match ups with
  | [] => None
  | u :: _ => if Py.truthy (info_cover u) then Some (info_cover u) else None
  end.

(** The body of [for uid, updates in user_updates.items()], with its
    own [try]/[except Exception]. *)
Definition send_dm (W : World) (entry : Z * list ChapterInfo) : M unit :=
  let '(uid, ups) := entry in
  try_except
    (try_except (platform_call W uid)
                (fun e => emit (EvFetchUser uid false) ;; raise e) ;;
     emit (EvFetchUser uid true) ;;
     fields <- lift (embed_fields_of ups) ;;
     let embed := mkEmbed (List.length ups) (embed_image_of ups) fields in
     try_except (platform_call W uid)
                (fun e => emit (EvSend uid embed false) ;; raise e) ;;
     emit (EvSend uid embed true) ;;
     sleep 1 ;;
     log (LogSent (List.length ups) uid))
    (fun e => log (LogDMFailed uid e)).

(** The initial read of the whole table. *)
Definition read_all (W : World) : M (list (Z * string * string * option float)) :=
  db_op W SelectAll ;;
  fun s => (Ok (Store.select_all (table s)), set_trace (EvSql SelectAll true :: trace s) s).

(** The first half of the pass: the rows. *)
Definition check_rows (W : World) (rows : list (Z * string * string * option float))
  : M unit :=
  for_each (check_row W) rows.

(** The second half of the pass: "Send DMs". *)
Definition send_updates (W : World) : M unit :=
  fun s =>
    (log (LogSending (List.length (user_updates s))) ;;
     for_each (send_dm W) (user_updates s)) s.

Definition chapter_check_loop (W : World) : M unit :=
  log LogRunning ;;
  try_except
    ((fun s => (Ok tt, set_user_updates [] s)) ;;
     rows <- read_all W ;;
     log (LogCheckingCount (List.length rows)) ;;
     check_rows W rows ;;
     send_updates W)
    (fun e => log (LogCheckFailed e)).

End Tracking.

(* ================================================================== *)
(** * [cogs/Manual_Check.py]: class [ManualCheck] *)
(* ================================================================== *)

Module ManualCheck.

Definition PROXY_BASE : string := "https://comick-api-proxy.notaspider.dev/v1.0".
Definition WEB_BASE : string := "https://comick.dev".

Definition request (u : string) (ps : list (string * string)) : Request :=
  mkRequest u ps [("User-Agent", "Tachiyomi/1.0")].

(** [fetch_json]: one request, [None] on any failure. *)
Definition fetch_json (W : World) (u : string) (ps : list (string * string)) : M json :=
  out <- http_get W (request u ps) ;;
  match out with
  | Response status body =>
      if negb (Z.eqb status 200) then
        log (LogManualStatus status u) ;;
        ret JNull
      else
        match body with
        | Some j => ret j
        | None => log (LogManualFetchError u) ;; ret JNull
        end
  | TimedOut | TransportError =>
      log (LogManualFetchError u) ;;
      ret JNull
  end.

(** [data and k in data and len(data[k]) > 0]. *)
Definition has_items (k : string) (data : json) : result bool :=
  if negb (Py.truthy data) then Ok false
  else match Py.contains k data with
       | Raise e => Raise e
       | Ok false => Ok false
       | Ok true =>
           match Py.item data k with
           | Raise e => Raise e
           | Ok l =>
               match Py.len l with
               | Raise e => Raise e
               | Ok n => Ok (Nat.ltb 0 n)
               end
           end
       end.

Definition chapters_url (W : World) (slug : json) : string :=
  PROXY_BASE ++ "/comic/" ++ fmt W slug ++ "/chapters".

Definition chapters_params : list (string * string) :=
  [("limit", "1"); ("tachiyomi", "true")].

Definition search_url : string := PROXY_BASE ++ "/search".

Definition search_params (title : string) : list (string * string) :=
  [("query", title); ("limit", "1")].

(** The second half of [resolve_slug], "Fallback: search by title". *)
Definition search_by_title (W : World) (title : string) : M json :=
  data <- fetch_json W search_url (search_params title) ;;
  found <- lift (has_items "results" data) ;;
  if found then
    results <- lift (Py.item data "results") ;;
    top <- lift (Py.item0 results) ;;
    new_slug <- lift (Py.get top "slug") ;;
    log (LogManualResolved title new_slug) ;;
    ret new_slug
  else
    log (LogManualCouldNotResolve title) ;;
    ret JNull.

Definition resolve_slug (W : World) (title current_slug : string) : M json :=
  data <- fetch_json W (chapters_url W (JStr current_slug)) chapters_params ;;
  listed <- lift (has_items "chapters" data) ;;
  if listed then ret (JStr current_slug)
  else search_by_title W title.

(** [not data or "chapters" not in data or len(data["chapters"]) == 0]. *)
Definition no_chapters (data : json) : result bool :=
  if negb (Py.truthy data) then Ok true
  else match Py.contains "chapters" data with
       | Raise e => Raise e
       | Ok false => Ok true
       | Ok true =>
           match Py.item data "chapters" with
           | Raise e => Raise e
           | Ok l =>
               match Py.len l with
               | Raise e => Raise e
               | Ok n => Ok (Nat.eqb n 0)
               end
           end
       end.

Definition get_latest_chapter (W : World) (slug : json) : M (option ManualLatest) :=
  data <- fetch_json W (chapters_url W slug) chapters_params ;;
  none <- lift (no_chapters data) ;;
  if none then
    log (LogManualNoChapterData slug) ;;
    ret None
  else
    chapters <- lift (Py.item data "chapters") ;;
    chapter <- lift (Py.item0 chapters) ;;
    number <- lift (Py.get chapter "chap") ;;
    title <- lift (Py.get chapter "title") ;;
    hid <- lift (Py.get chapter "hid") ;;
    ret (Some (mkLatest number title
                        (WEB_BASE ++ "/comic/" ++ fmt W slug ++ "/chapter/" ++ fmt W hid))).

(** [latest_number > last_notified]: a float is not comparable with
    [None]. *)
Definition newer (latest_number : float) (last_notified : option float) : result bool :=
  match last_notified with
  | Some x => Ok (float_gt latest_number x)
  | None => Raise TypeError
  end.

(** [await db.execute("UPDATE ... WHERE user_id = ? AND manhwa_title = ?")]
    inside the open connection: the change is seen by the connection and
    waits for the commit. *)
Definition execute_update (W : World) (chapter : float) (resolved_slug : json)
           (uid : Z) (title : string) : M unit :=
  let q := UpdateByTitle chapter resolved_slug uid title in
  db_op W q ;;
  fun s =>
    match Store.bind_text W resolved_slug with
    | Raise e => (Raise e, set_trace (EvSql q false :: trace s) s)
    | Ok slug =>
        match Store.update_by_title chapter slug (clock s) uid title (txn s) with
        | Raise e => (Raise e, set_trace (EvSql q false :: trace s) s)
        | Ok t' => (Ok tt, set_trace (EvSql q true :: trace s) (set_txn t' s))
        end
    end.

(** The body of [for title, slug, last_notified in rows]; every
    [continue] is a [ret tt]. *)
Definition check_row (W : World) (uid : Z) (row : string * string * option float)
  : M unit :=
  let '(title, slug, last_notified) := row in
  log (LogManualChecking title slug) ;;
  resolved_slug <- resolve_slug W title slug ;;
  if negb (Py.truthy resolved_slug) then ret tt
  else
    latest <- get_latest_chapter W resolved_slug ;;
    match latest with
    | None => ret tt
    | Some l =>
        if negb (Py.truthy (latest_number l)) then ret tt
        else
          match Py.to_float (float_of_str W) (latest_number l) with
          | Raise ValueError | Raise TypeError => ret tt
          | Raise e => raise e
          | Ok number =>
              is_newer <- lift (newer number last_notified) ;;
              if is_newer then
                (fun s => (Ok tt,
                           set_updates (updates s ++ [(title, number, latest_title l, latest_url l)]) s)) ;;
                execute_update W number resolved_slug uid title
              else ret tt
          end
    end.

(** The connection is opened and the rows of the user are read. *)
Definition read_user (W : World) (uid : Z) : M (list (string * string * option float)) :=
  db_op W (SelectUser uid) ;;
  fun s => (Ok (Store.select_user uid (table s)),
            set_trace (EvSql (SelectUser uid) true :: trace s) (set_txn (table s) s)).

(** [await db.commit()]. *)
Definition commit (W : World) : M unit :=
  db_op W Commit ;;
  fun s => (Ok tt, set_trace (EvSql Commit true :: trace s) (set_table (txn s) s)).

(** [await interaction.followup.send(...)]: the call is recorded, and
    [EvFollowup f] in a trace says that the command called
    [followup.send] with [f].  The interaction itself is taken to work:
    neither [interaction.response.defer] at the head of the command nor a
    [followup.send] is followed into a failure of the platform. *)
Definition followup (f : Followup) : M unit := emit (EvFollowup f).

(** [manual_check] for the user [uid] of the interaction.  An exception
    inside [async with aiosqlite.connect(...)] closes the connection
    without a commit: [table] keeps its content. *)
Definition manual_check (W : World) (uid : Z) : M unit :=
  (fun s => (Ok tt, set_updates [] s)) ;;
  try_except
    (rows <- read_user W uid ;;
     match rows with
     | [] => followup NotFollowing
     | _ :: _ =>
         for_each (check_row W uid) rows ;;
         commit W ;;
         fun s =>
           match updates s with
           | [] => followup NoNewChapters s
           | ups => followup (ManualEmbed ups) s
           end
     end)
    (fun e => log (LogManualError e) ;; followup CheckFailedSeeLogs).

End ManualCheck.

(* ================================================================== *)
(** * Predicates on computations *)
(* ================================================================== *)

(** [keeps R c]: whatever [c] does and however it ends, the state it
    leaves is related by [R] to the state it started from. *)
Definition keeps {A : Type} (R : St -> St -> Prop) (c : M A) : Prop :=
  forall s, R s (snd (c s)).

(** [total c]: [c] never raises. *)
Definition total {A : Type} (c : M A) : Prop :=
  forall s, exists a, fst (c s) = Ok a.

(** The lookups send requests, sleep and print; they touch neither the
    store nor the local variables of a pass. *)
Definition untouched (s s' : St) : Prop :=
  session s' = session s /\ dbops s' = dbops s /\ dms s' = dms s /\
  table s' = table s /\ user_updates s' = user_updates s /\
  updates s' = updates s /\ txn s' = txn s.

(** A request has failed when its outcome is a status other than 200, an
    undecodable body, a timeout or a transport error. *)
Definition failed (o : Outcome) : bool :=
  match o with
  | Response status (Some _) => negb (Z.eqb status 200)
  | Response _ None => true
  | TimedOut => true
  | TransportError => true
  end.

(** The requests and sleeps of a trace, the printed lines left out. *)
Definition is_network (e : Event) : bool :=
  match e with
  | EvGet _ _ => true
  | EvSleep _ => true
  | _ => false
  end.

Definition network (l : list Event) : list Event := filter is_network l.

(** ** The states a row of the scheduled pass can leave *)

(** After the UPDATE of the scheduled pass, when the database takes it. *)
Definition persisted (chapter : float) (uid : Z) (slug : string) (s : St) : St :=
  set_trace (EvSql (UpdateBySlug chapter uid slug) true :: trace s)
    (set_table (Store.update_by_slug chapter (clock s) uid slug (table s))
       (set_dbops (S (dbops s)) s)).

(** After the UPDATE of the scheduled pass, when the database fails: the
    exception is caught by the row and printed. *)
Definition not_persisted (chapter : float) (uid : Z) (title slug : string) (s : St) : St :=
  set_trace (EvLog (LogErrorChecking title OperationalError)
             :: EvSql (UpdateBySlug chapter uid slug) false :: trace s)
    (set_dbops (S (dbops s)) s).

(** The state of the scheduled pass once it has printed its first line
    and emptied [user_updates]. *)
Definition pass_started (s : St) : St :=
  set_user_updates [] (set_trace (EvLog LogRunning :: trace s) s).

(** The state once the initial read has succeeded and the number of rows
    is printed. *)
Definition rows_read (s : St) : St :=
  set_trace (EvLog (LogCheckingCount (List.length (Store.select_all (table s))))
             :: EvSql SelectAll true :: trace s)
    (set_dbops (S (dbops s)) s).

(** The state of a pass whose initial read has failed: the pass is over. *)
Definition read_failed (s : St) : St :=
  set_trace (EvLog (LogCheckFailed OperationalError) :: EvSql SelectAll false :: trace s)
    (set_dbops (S (dbops s)) s).

(** What the delivery of the notifications leaves alone: everything but
    the trace, the clock and the count of platform calls. *)
Definition same_store (s s' : St) : Prop :=
  table s' = table s /\ user_updates s' = user_updates s /\ dbops s' = dbops s /\
  session s' = session s /\ txn s' = txn s /\ updates s' = updates s.

(** The columns a row of the scheduled pass works from. *)
Definition row_tuple (r : Row) : Z * string * string * option float :=
  (user_id r, manhwa_title r, manhwa_slug r, latest_chapter_notified r).

(** ** The answers of the upstream, as the on-demand resolver reads them *)

Definition listing_request (W : World) (slug : json) : Request :=
  ManualCheck.request (ManualCheck.chapters_url W slug) ManualCheck.chapters_params.

Definition search_request (title : string) : Request :=
  ManualCheck.request ManualCheck.search_url (ManualCheck.search_params title).

(** The body of a successful answer, [None] for a failed request. *)
Definition body_of (o : Outcome) : option json :=
  match o with
  | Response status (Some j) => if Z.eqb status 200 then Some j else None
  | _ => None
  end.

(** The chapter listing returns at least one chapter. *)
Definition lists_a_chapter (o : Outcome) : bool :=
  match body_of o with
  | Some j => match ManualCheck.has_items "chapters" j with Ok true => true | _ => false end
  | None => false
  end.

(** The identifier of the top result of a title search: [None] when the
    search fails or has no result, [Some JNull] when the top result
    carries no identifier. *)
Definition top_slug (o : Outcome) : option json :=
  match body_of o with
  | Some j =>
      match ManualCheck.has_items "results" j with
      | Ok true =>
          match Py.item j "results" with
          | Ok results =>
              match Py.item0 results with
              | Ok top => match Py.get top "slug" with Ok v => Some v | Raise _ => None end
              | Raise _ => None
              end
          | Raise _ => None
          end
      | _ => None
      end
  | None => None
  end.

(** ** The answers of the upstream, as documents

    What a response holds, read off the document and not through the
    tests of the resolver: the array under the key [k] of a body that is
    an object. *)
Definition array_under (k : string) (o : Outcome) : option (list json) :=
  match body_of o with
  | Some (JObj items) =>
      match assoc k items with
      | Some (JArr l) => Some l
      | _ => None
      end
  | _ => None
  end.

(** The request failed, or its body is [null], or it is an object that
    has nothing under [k]: no such key, or an empty array. *)
Definition nothing_under (k : string) (o : Outcome) : Prop :=
  body_of o = None \/ body_of o = Some JNull \/
  exists items, body_of o = Some (JObj items) /\
                (assoc k items = None \/ assoc k items = Some (JArr [])).

(** ** The answers of the upstream, as the scheduled lookup reads them *)

Definition detail_request (slug : string) : Request :=
  Tracking.request (Tracking.comic_url slug) Tracking.comic_params.

Definition title_search_request (title : string) : Request :=
  Tracking.request (Tracking.BASE_URL ++ "/v1.0/search")
                   (Tracking.search_request_params title).

(** The comic detail yields nothing: the request fails, or its body is
    empty or has no "comic". *)
Definition no_detail (o : Outcome) : bool :=
  match body_of o with
  | None => true
  | Some j => match Tracking.no_comic j with Ok true => true | _ => false end
  end.

(** The title search of the scheduled lookup yields nothing: the request
    fails, or its body is empty. *)
Definition no_search_result (o : Outcome) : bool :=
  match body_of o with
  | None => true
  | Some j => negb (Py.truthy j)
  end.

(** The chapter listing of the on-demand resolver yields nothing: the
    request fails, or its body lists no chapter. *)
Definition no_listing (o : Outcome) : bool :=
  match body_of o with
  | None => true
  | Some j => match ManualCheck.has_items "chapters" j with Ok false => true | _ => false end
  end.

(** The title search of the on-demand resolver yields nothing: the
    request fails, or its body has no result. *)
Definition no_result (o : Outcome) : bool :=
  match body_of o with
  | None => true
  | Some j => match ManualCheck.has_items "results" j with Ok false => true | _ => false end
  end.

(** ** Events of a pass *)

(** An attempt to reach a user: fetching the user, sending the message. *)
Definition is_delivery (e : Event) : bool :=
  match e with
  | EvFetchUser _ _ => true
  | EvSend _ _ _ => true
  | _ => false
  end.

(** A statement sent to the database. *)
Definition is_sql (e : Event) : bool :=
  match e with
  | EvSql _ _ => true
  | _ => false
  end.

(** [grows P s s']: the trace of [s'] is the trace of [s] with more
    events, all satisfying [P], put in front. *)
Definition grows (P : Event -> bool) (s s' : St) : Prop :=
  exists l, trace s' = l ++ trace s /\ Forall (fun e => P e = true) l.

Definition not_delivery (e : Event) : bool := negb (is_delivery e).

Definition not_sql (e : Event) : bool := negb (is_sql e).

(** ** The row of the on-demand pass, in two halves *)

(** What a row of the on-demand pass finds: the number of the latest
    chapter, the resolved slug and the chapter, or nothing when the row is
    to be skipped. *)
Definition Finding : Type := option (float * json * ManualLatest).

(** The first half of the body of the loop of [manual_check]: everything
    up to [latest_number = float(latest["number"])]. *)
Definition find_latest (W : World) (title slug : string) : M Finding :=
  log (LogManualChecking title slug) ;;
  resolved_slug <- ManualCheck.resolve_slug W title slug ;;
  if negb (Py.truthy resolved_slug) then ret None
  else
    latest <- ManualCheck.get_latest_chapter W resolved_slug ;;
    match latest with
    | None => ret None
    | Some l =>
        if negb (Py.truthy (latest_number l)) then ret None
        else
          match Py.to_float (float_of_str W) (latest_number l) with
          | Raise ValueError | Raise TypeError => ret None
          | Raise e => raise e
          | Ok number => ret (Some (number, resolved_slug, l))
          end
    end.

(** The second half: the comparison, and the update when the chapter is
    newer. *)
Definition apply_finding (W : World) (uid : Z) (title : string) (stored : option float)
           (found : Finding) : M unit :=
  match found with
  | None => ret tt
  | Some (number, resolved_slug, l) =>
      is_newer <- lift (ManualCheck.newer number stored) ;;
      if is_newer then
        (fun s => (Ok tt,
                   set_updates (updates s ++ [(title, number, latest_title l, latest_url l)]) s)) ;;
        ManualCheck.execute_update W number resolved_slug uid title
      else ret tt
  end.

(** What the on-demand client, resolver and lookup answer when the
    upstream is stationary. *)
Definition fetched (W : World) (u : string) (ps : list (string * string)) : json :=
  match body_of (http W 0 (ManualCheck.request u ps)) with
  | Some j => j
  | None => JNull
  end.

Definition resolved (W : World) (open : bool) (title slug : string) : result json :=
  fst (ManualCheck.resolve_slug W title slug (mkSt open 0 0 0 0 [] [] [] [] [])).

Definition latest_of (W : World) (open : bool) (slug : json) : result (option ManualLatest) :=
  fst (ManualCheck.get_latest_chapter W slug (mkSt open 0 0 0 0 [] [] [] [] [])).

(** What the first half answers when the upstream is stationary ([open]
    is the session flag of the state it runs from, which it leaves as it
    is). *)
Definition finding (W : World) (open : bool) (title slug : string) : result Finding :=
  fst (find_latest W title slug (mkSt open 0 0 0 0 [] [] [] [] [])).

(** What a row of the on-demand pass comes to when the upstream is
    stationary: an exception, nothing to do, or an update to make. *)
Definition decision (W : World) (open : bool) (r : Row) : result Finding :=
  match finding W open (manhwa_title r) (manhwa_slug r) with
  | Raise e => Raise e
  | Ok None => Ok None
  | Ok (Some (number, resolved_slug, l)) =>
      match ManualCheck.newer number (latest_chapter_notified r) with
      | Raise e => Raise e
      | Ok false => Ok None
      | Ok true => Ok (Some (number, resolved_slug, l))
      end
  end.

(** The columns a row of the on-demand pass works from. *)
Definition row_triple (r : Row) : string * string * option float :=
  (manhwa_title r, manhwa_slug r, latest_chapter_notified r).

(** The rows an UPDATE keyed by (user_id, manhwa_title) rewrites. *)
Definition titled (uid : Z) (title : string) (r : Row) : bool :=
  Z.eqb (user_id r) uid && String.eqb (manhwa_title r) title.

(** The row the UPDATE keyed by (user_id, manhwa_title) makes of a row. *)
Definition retitled (chapter : float) (new_slug : string) (now : nat) (uid : Z) (title : string)
           (r : Row) : Row :=
  if titled uid title r
  then mkRow (row_id r) (user_id r) (manhwa_title r) new_slug (Some chapter) now
  else r.

(** Every identifier a title search of the on-demand resolver returns is
    a string, when there is one. *)
Definition string_slugs (W : World) : Prop :=
  forall n title v,
    top_slug (http W n (search_request title)) = Some v ->
    v = JNull \/ exists s, v = JStr s.

(** ** Passes in sequence *)

(** A row after some passes is the row it was: same id, user and title. *)
Definition same_row (r r' : Row) : Prop :=
  row_id r' = row_id r /\ user_id r' = user_id r /\ manhwa_title r' = manhwa_title r.

(** Stored progress that has not regressed: it is what it was, or it was
    NULL, or it is a number greater than or equal to the one it was. *)
Definition never_regressed (old new : option float) : Prop :=
  new = old \/
  match old, new with
  | Some a, Some b => SFleb a b = true
  | None, Some _ => True
  | _, None => False
  end.

(** Stored progress that was left alone or raised strictly. *)
Definition advanced (old new : option float) : Prop :=
  new = old \/
  match old, new with
  | Some a, Some b => SFltb a b = true
  | None, Some _ => True
  | _, None => False
  end.

Definition row_advanced (r r' : Row) : Prop :=
  same_row r r' /\ advanced (latest_chapter_notified r) (latest_chapter_notified r').

Inductive Pass : Type :=
| Scheduled (W : World)
| OnDemand (W : World) (uid : Z).

Definition run_pass (p : Pass) (s : St) : St :=
  match p with
  | Scheduled W => snd (Tracking.chapter_check_loop W s)
  | OnDemand W uid => snd (ManualCheck.manual_check W uid s)
  end.

Definition run_passes (ps : list Pass) (s : St) : St :=
  fold_left (fun s p => run_pass p s) ps s.

(** The upstream does not change: a request has the same answer whenever
    it is sent. *)
Definition stationary (W : World) : Prop :=
  forall n m r, http W n r = http W m r.

(** The identifiers the title searches of the on-demand passes of [ps]
    return are strings: the identifiers [Store.bind_text] follows the
    library on. *)
Definition text_identifiers (ps : list Pass) : Prop :=
  Forall (fun p => match p with
                   | OnDemand W _ => string_slugs W
                   | Scheduled _ => True
                   end) ps.

(** [returns P c]: whenever [c] ends with a value, the value is in [P]. *)
Definition returns {A : Type} (P : A -> Prop) (c : M A) : Prop :=
  forall s a, fst (c s) = Ok a -> P a.

(** The update [info] recorded for user [uid] by the scheduled pass is in
    the store, in a row of the user bearing its title, or the database
    has failed on its UPDATE. *)
Definition stored_or_failed (s : St) (uid : Z) (info : ChapterInfo) : Prop :=
  (exists r, In r (table s) /\ user_id r = uid /\ manhwa_title r = info_title info /\
             latest_chapter_notified r = Some (info_chapter info)) \/
  (exists slug, In (EvSql (UpdateBySlug (info_chapter info) uid slug) false) (trace s)).

(** [steady c]: the value of [c], and whether the session is still set
    after it, depend on the state through the session flag only. *)
Definition steady {A : Type} (c : M A) : Prop :=
  forall s1 s2, session s1 = session s2 ->
    fst (c s1) = fst (c s2) /\ session (snd (c s1)) = session (snd (c s2)).

(** The row a progress update of the scheduled pass writes. *)
Definition with_progress (r : Row) (chapter : float) (now : nat) : Row :=
  mkRow (row_id r) (user_id r) (manhwa_title r) (manhwa_slug r) (Some chapter) now.

(** What the scheduled lookup answers for a row when the upstream is
    stationary. *)
Definition lookup (W : World) (open : bool) (title slug : string)
  : result (option ChapterInfo) :=
  fst (Tracking.get_latest_chapter W title slug (mkSt open 0 0 0 0 [] [] [] [] [])).

(** The advance the scheduled pass would detect on a row. *)
Definition advance (W : World) (open : bool) (r : Row) : option ChapterInfo :=
  match lookup W open (manhwa_title r) (manhwa_slug r) with
  | Ok (Some info) =>
      if float_gt (info_chapter info) (Tracking.or_zero (latest_chapter_notified r))
      then Some info else None
  | _ => None
  end.

(** The row the scheduled pass leaves for [r] when the upstream is
    stationary and the database takes the UPDATE: [r] with the chapter of
    the advance, or [r] itself when there is no advance. *)
Definition settled (W : World) (open : bool) (r r' : Row) : Prop :=
  match advance W open r with
  | Some info => exists now, r' = with_progress r (info_chapter info) now
  | None => r' = r
  end.

(** The number of rows an UPDATE keyed by (uid, title) would rewrite. *)
Definition count_titled (uid : Z) (title : string) (l : list Row) : nat :=
  List.length (filter (titled uid title) l).

(** The invariant of the loop of [manual_check]: a row of the connection
    is the row the pass started from, or it is a row of the user whose
    title is no longer ahead in the loop and whose progress has been
    raised. *)
Definition loop_inv (uid : Z) (todo : list Row) (r0 r : Row) : Prop :=
  r = r0 \/
  (user_id r0 = uid /\ ~ In (manhwa_title r0) (map manhwa_title todo) /\ row_advanced r0 r).

(** The invariant of the loop of [manual_check] when the upstream is
    stationary: moreover, a row of the user that the loop has passed has
    nothing left to find. *)
Definition settle_inv (W : World) (open : bool) (uid : Z) (todo : list Row) (r0 r : Row)
  : Prop :=
  loop_inv uid todo r0 r /\
  (user_id r0 = uid -> (r = r0 /\ In r0 todo) \/ decision W open r = Ok None).

(** The state of the on-demand pass once its connection is open and the
    rows of the user are read. *)
Definition connected (uid : Z) (s : St) : St :=
  set_trace (EvSql (SelectUser uid) true :: trace s)
    (set_txn (table s) (set_dbops (S (dbops s)) (set_updates [] s))).

(** The state of the on-demand pass after an exception [e] met in state
    [s]: the handler of the command prints it and answers. *)
Definition manual_failed (e : exn) (s : St) : St :=
  set_trace (EvFollowup CheckFailedSeeLogs :: EvLog (LogManualError e) :: trace s) s.

(** The state of the on-demand pass after its commit, and its answer. *)
Definition committed (s : St) : St :=
  set_trace (EvFollowup (match updates s with
                         | [] => NoNewChapters
                         | ups => ManualEmbed ups
                         end)
             :: EvSql Commit true :: trace s)
    (set_table (txn s) (set_dbops (S (dbops s)) s)).

(** The rows the on-demand pass has started on, (title, slug) of each
    "Checking ..." line, newest first. *)
Fixpoint checked_rows (l : list Event) : list (string * string) :=
  match l with
  | [] => []
  | EvLog (LogManualChecking title slug) :: rest => (title, slug) :: checked_rows rest
  | _ :: rest => checked_rows rest
  end.

(** The exceptions the passes have caught and printed, newest first. *)
Fixpoint caught (l : list Event) : list exn :=
  match l with
  | [] => []
  | EvLog (LogErrorChecking _ e) :: rest => e :: caught rest
  | EvLog (LogManualError e) :: rest => e :: caught rest
  | EvLog (LogCheckFailed e) :: rest => e :: caught rest
  | EvLog (LogDMFailed _ e) :: rest => e :: caught rest
  | _ :: rest => caught rest
  end.

(** The answers given to the interaction, newest first. *)
Fixpoint followups (l : list Event) : list Followup :=
  match l with
  | [] => []
  | EvFollowup f :: rest => f :: followups rest
  | _ :: rest => followups rest
  end.

(* ================================================================== *)
(** * Worked inputs *)
(* ================================================================== *)

Module Demo.

(** The state of a freshly loaded bot over a given table. *)
Definition start (t : list Row) : St := mkSt true 0 0 0 0 t [] [] [] [].

(** Decimal strings used below, read as [float] reads them. *)
Definition f0 : float := float_of_Z 0.
Definition f5 : float := float_of_Z 5.
Definition f6 : float := float_of_Z 6.
Definition f12 : float := float_of_Z 12.
Definition f11_5 : float := binary_normalize prec emax 23 (-1) false.

Definition read_float (s : string) : option float :=
  if String.eqb s "5" then Some f5
  else if String.eqb s "6" then Some f6
  else if String.eqb s "12" then Some f12
  else if String.eqb s "11.5" then Some f11_5
  else None.

Definition quiet_db (n : nat) : bool := false.
Definition reachable (n : nat) (uid : Z) : bool := false.
Definition show (v : json) : string := "?".

Definition world (h : nat -> Request -> Outcome) : World :=
  mkWorld h quiet_db reachable read_float show show.

Definition chapter_list (chap title hid : string) : json :=
  JObj [("chapters", JArr [JObj [("chap", JStr chap); ("title", JStr title);
                                 ("hid", JStr hid)]])].

(** An upstream whose first answer is a 503 and which is back to
    normal from the second request on. *)
Definition flaky : World :=
  world (fun n _ => if Nat.eqb n 0 then Response 503 None
                    else Response 200 (Some (chapter_list "6" "Arise" "h6"))).

(** An upstream that lists one chapter, "6", under every identifier. *)
Definition steady : World :=
  world (fun _ _ => Response 200 (Some (chapter_list "6" "Arise" "h6"))).

(** An upstream that has dropped the identifier "old": every request
    under it is a 404, and a title search answers with the identifier
    "new" (internal id "H"), whose latest chapter is "6". *)
Definition search_result (slug : string) : json :=
  JObj [("results", JArr [JObj [("slug", JStr slug); ("title", JStr "Solo Leveling")]])].

Definition comic_detail : json :=
  JObj [("comic", JObj [("hid", JStr "H"); ("cover_url", JStr "cover.png")])].

Definition moved_http (n : nat) (r : Request) : Outcome :=
  if String.eqb (url r) ManualCheck.search_url
  then Response 200 (Some (search_result "new"))
  else if String.eqb (url r) (ManualCheck.PROXY_BASE ++ "/comic/new/chapters")
  then Response 200 (Some (chapter_list "6" "Arise" "h6"))
  else if String.eqb (url r) (Tracking.BASE_URL ++ "/v1.0/search")
  then Response 200 (Some (JArr [JObj [("slug", JStr "new"); ("title", JStr "Solo Leveling")]]))
  else if String.eqb (url r) (Tracking.comic_url "new")
  then Response 200 (Some comic_detail)
  else if String.eqb (url r) (Tracking.BASE_URL ++ "/v1.0/comic/H/chapters")
  then Response 200 (Some (chapter_list "6" "Arise" "h6"))
  else Response 404 None.

Definition moved : World := world moved_http.

(** An upstream that is down. *)
Definition down : World := world (fun _ _ => TransportError).

(** An upstream that knows the comic "solo" (internal id "H") and
    reports [chap] as its latest chapter, to both cogs. *)
Definition reports_http (chap : string) (n : nat) (r : Request) : Outcome :=
  if String.eqb (url r) (Tracking.comic_url "solo")
  then Response 200 (Some comic_detail)
  else if String.eqb (url r) (Tracking.BASE_URL ++ "/v1.0/comic/H/chapters")
  then Response 200 (Some (chapter_list chap "Arise" "h1"))
  else if String.eqb (url r) (ManualCheck.PROXY_BASE ++ "/comic/solo/chapters")
  then Response 200 (Some (chapter_list chap "Arise" "h1"))
  else Response 404 None.

Definition reports (chap : string) : World := world (reports_http chap).

(** User 7 tracks "Solo Leveling" under the identifier "solo". *)
Definition tracked (progress : float) : list Row :=
  [mkRow 1 7 "Solo Leveling" "solo" (Some progress) 0].

(** User 7 tracks "Solo Leveling" under the identifier [slug]. *)
Definition tracked_under (slug : string) (progress : float) : list Row :=
  [mkRow 1 7 "Solo Leveling" slug (Some progress) 0].

(** User 7 has added "Solo Leveling" twice, before and after the
    upstream renamed it: two rows with one title and two identifiers. *)
Definition tracked_twice : list Row :=
  [mkRow 1 7 "Solo Leveling" "old" (Some f5) 0;
   mkRow 2 7 "Solo Leveling" "new" (Some f5) 0].

(** User 7 tracks "Solo Leveling" under the dropped identifier "gone"
    and a second title, "Omniscient Reader", under "new".  The first row
    comes first in the table and in the index: "gone" sorts before
    "new". *)
Definition tracked_two_titles : list Row :=
  [mkRow 1 7 "Solo Leveling" "gone" (Some f5) 0;
   mkRow 2 7 "Omniscient Reader" "new" (Some f5) 0].

(** The same upstream, with a database that fails on its second
    operation (the first UPDATE of a pass). *)
Definition moved_faulty_db : World :=
  mkWorld moved_http (fun n => Nat.eqb n 1) reachable read_float show show.

(** The same upstream, with user 7 unreachable. *)
Definition moved_unreachable : World :=
  mkWorld moved_http quiet_db (fun _ uid => Z.eqb uid 7) read_float show show.

End Demo.

(* ================================================================== *)
(** * [cogs/Tracking.py]: the command [/add_manhwa] *)
(* ================================================================== *)

Module AddManhwa.

(** One row of [manhwas] (id, user_id, title, cover, link): [title] and
    [link] are NOT NULL, [cover] is nullable. *)
Record Manhwa : Type := mkManhwa {
  manhwas_id : Z;
  manhwas_user_id : Z;
  manhwas_title : string;
  manhwas_cover : option string;
  manhwas_link : string
}.

(** The answers of the command to the interaction. *)
Inductive Reply : Type :=
| NoResultsFound (title : string)
| FailedToSave
| Added (title : json) (link : string) (image : option json).

(** The lines the command prints. *)
Inductive Line : Type :=
| AddCalled (uid : Z) (title : string)
| Inserted (title : json) (uid : Z)
| InsertFailed (e : exn).

(** The bot with its two tables.  [core] is the state the passes work
    on, the committed [chapter_tracking] included; [manhwas] is the
    committed content of the other table; the two sequences are the
    largest id each table has ever given (AUTOINCREMENT keeps them in
    [sqlite_sequence]); [replies] and [printed] are newest first. *)
Record Bot : Type := mkBot {
  core : St;
  manhwas : list Manhwa;
  manhwas_seq : Z;
  tracking_seq : Z;
  replies : list Reply;
  printed : list Line
}.

Definition set_core (s : St) (b : Bot) : Bot :=
  mkBot s (manhwas b) (manhwas_seq b) (tracking_seq b) (replies b) (printed b).

(** [await interaction.followup.send(...)]: the call is recorded; as
    with the answers of [/manual_check], the interaction is taken to
    work ([interaction.response.defer] and the sends go through). *)
Definition reply (r : Reply) (b : Bot) : Bot :=
  mkBot (core b) (manhwas b) (manhwas_seq b) (tracking_seq b) (r :: replies b) (printed b).

Definition print (l : Line) (b : Bot) : Bot :=
  mkBot (core b) (manhwas b) (manhwas_seq b) (tracking_seq b) (replies b) (l :: printed b).

(** One more database operation has been made. *)
Definition db_tick (b : Bot) : Bot :=
  set_core (set_dbops (S (dbops (core b))) (core b)) b.

(** AUTOINCREMENT: one more than the largest id the table holds or has
    ever given. *)
Definition next_id (seq : Z) (ids : list Z) : Z :=
  fold_right Z.max seq ids + 1.

(** How [sqlite3] binds a Python value to a TEXT column: [None] as
    NULL, the rest as [Store.bind_text] has it. *)
Definition bind_param (W : World) (v : json) : result (option string) :=
  match v with
  | JNull => Ok None
  | _ => match Store.bind_text W v with
         | Ok s => Ok (Some s)
         | Raise e => Raise e
         end
  end.

(** [INSERT INTO manhwas (user_id, title, cover, link) VALUES (?, ?, ?, ?)]
    on the view [(rows, seq)] of the connection: the parameters are bound
    in order, then the NOT NULL constraint of [title] is checked.  The
    bound title is returned with the new view. *)
Definition insert_manhwa (W : World) (uid : Z) (title cover : json) (link : string)
           (view : list Manhwa * Z) : result (string * (list Manhwa * Z)) :=
  let '(rows, seq) := view in
  match bind_param W title with
  | Raise e => Raise e
  | Ok t =>
      match bind_param W cover with
      | Raise e => Raise e
      | Ok c =>
          match t with
          | None => Raise IntegrityError
          | Some t' =>
              let id := next_id seq (map manhwas_id rows) in
              Ok (t', (rows ++ [mkManhwa id uid t' c link], id))
          end
      end
  end.

(** [INSERT OR IGNORE INTO chapter_tracking (user_id, manhwa_title,
     manhwa_slug, latest_chapter_notified) VALUES (?, ?, ?, 0)]:
    the title is the one already bound for [manhwas]; a row that would
    break UNIQUE(user_id, manhwa_slug) is skipped without an error; the
    integer 0 is stored in the REAL column as 0.0 and
    [last_notified_time] takes its default, the current time.  SQLite
    gives the id out before it checks the constraint, so a skipped row
    uses one up: the sequence moves on either way. *)
Definition insert_tracking (W : World) (uid : Z) (title : string) (slug : json) (now : nat)
           (view : list Row * Z) : result (list Row * Z) :=
  let '(rows, seq) := view in
  match Store.bind_text W slug with
  | Raise e => Raise e
  | Ok slug' =>
      let id := next_id seq (map row_id rows) in
      if existsb (fun r => Store.key_eqb (uid, slug') (Store.key r)) rows
      then Ok (rows, id)
      else Ok (rows ++ [mkRow id uid title slug' (Some (float_of_Z 0)) now], id)
  end.

(** The [try] block of the command: one connection, the two INSERTs
    and the commit.  Each of the three is a point where the database can
    fail; an exception closes the connection without a commit, and
    neither table has changed.  The value is [top.get("title", title)]. *)
Definition save (W : World) (uid : Z) (title : string) (top slug cover : json)
           (link : string) (b : Bot) : result json * Bot :=
  let b1 := db_tick b in
  if db_fault W (dbops (core b)) then (Raise OperationalError, b1) else
  match Py.get_default top "title" (JStr title) with
  | Raise e => (Raise e, b1)
  | Ok shown =>
      match insert_manhwa W uid shown cover link (manhwas b, manhwas_seq b) with
      | Raise e => (Raise e, b1)
      | Ok (bound, (manhwas', mseq')) =>
          let b2 := db_tick b1 in
          if db_fault W (dbops (core b1)) then (Raise OperationalError, b2) else
          match insert_tracking W uid bound slug (clock (core b))
                                (table (core b), tracking_seq b) with
          | Raise e => (Raise e, b2)
          | Ok (table', tseq') =>
              let b3 := db_tick b2 in
              if db_fault W (dbops (core b2)) then (Raise OperationalError, b3) else
              (Ok shown,
               mkBot (set_table table' (core b3)) manhwas' mseq' tseq'
                     (replies b) (printed b))
          end
      end
  end.

(** [cover = top.get("cover_url") or top.get("cover")]. *)
Definition cover_of (top : json) : result json :=
  match Py.get top "cover_url" with
  | Raise e => Raise e
  | Ok c1 =>
      match Py.get top "cover" with
      | Raise e => Raise e
      | Ok c2 => Ok (Py.or c1 c2)
      end
  end.

(** [add_manhwa] for the user [uid] of the interaction.  An exception of
    [search_slug] is not caught: it leaves the command. *)
Definition add_manhwa (W : World) (uid : Z) (title : string) (b : Bot) : result unit * Bot :=
  let b0 := print (AddCalled uid title) b in
  match Tracking.search_slug W title (core b0) with
  | (Raise e, s1) => (Raise e, set_core s1 b0)
  | (Ok (slug, top), s1) =>
      let b1 := set_core s1 b0 in
      if negb (Py.truthy slug) then (Ok tt, reply (NoResultsFound title) b1)
      else
        match cover_of top with
        | Raise e => (Raise e, b1)
        | Ok cover =>
            let link := (Tracking.WEB_BASE ++ "/comic/" ++ fmt W slug)%string in
            match save W uid title top slug cover link b1 with
            | (Raise e, b2) => (Ok tt, reply FailedToSave (print (InsertFailed e) b2))
            | (Ok shown, b2) =>
                (Ok tt,
                 reply (Added shown link (if Py.truthy cover then Some cover else None))
                       (print (Inserted shown uid) b2))
            end
        end
  end.

End AddManhwa.

(* ================================================================== *)
(** * Notions used by the further properties *)
(* ================================================================== *)

(** Of the [k] requests [r] sent from count [n] on, the first that does
    not fail: how many failed before it, and its body. *)
Fixpoint first_answer (W : World) (r : Request) (n k : nat) : option (nat * json) :=
  match k with
  | O => None
  | S k' =>
      match body_of (http W n r) with
      | Some j => Some (O, j)
      | None =>
          match first_answer W r (S n) k' with
          | Some (i, j) => Some (S i, j)
          | None => None
          end
      end
  end.

(** The users the delivery has looked up ([bot.fetch_user]), newest
    first. *)
Fixpoint attempted (l : list Event) : list Z :=
  match l with
  | [] => []
  | EvFetchUser uid _ :: rest => uid :: attempted rest
  | _ :: rest => attempted rest
  end.

(** The users a message has been sent to ([user.send], whether it went
    through or not), newest first. *)
Fixpoint messaged (l : list Event) : list Z :=
  match l with
  | [] => []
  | EvSend uid _ _ :: rest => uid :: messaged rest
  | _ :: rest => messaged rest
  end.

(** The messages that went through, newest first. *)
Fixpoint delivered (l : list Event) : list (Z * Embed) :=
  match l with
  | [] => []
  | EvSend uid e true :: rest => (uid, e) :: delivered rest
  | _ :: rest => delivered rest
  end.

(** The embed the delivery builds for the updates of one user. *)
Definition embed_of (ups : list ChapterInfo) : result Embed :=
  match Tracking.embed_fields_of ups with
  | Ok fields => Ok (mkEmbed (List.length ups) (Tracking.embed_image_of ups) fields)
  | Raise e => Raise e
  end.

(** An event other than an answer to the interaction. *)
Definition not_followup (e : Event) : bool :=
  match e with
  | EvFollowup _ => false
  | _ => true
  end.

(** [reported uid ups t]: every update of [ups] is in the table [t]: a
    row of the user bears its title and carries its chapter number. *)
Definition reported (uid : Z) (ups : list ManualUpdate) (t : list Row) : Prop :=
  Forall (fun e =>
            exists r, In r t /\ user_id r = uid /\
                      manhwa_title r = fst (fst (fst e)) /\
                      latest_chapter_notified r = Some (snd (fst (fst e))))
         ups.

(** What no pass is meant to change in a row: its id, user, title and,
    for the scheduled pass, its slug. *)
Definition identity (r : Row) : Z * Z * string * string :=
  (row_id r, user_id r, manhwa_title r, manhwa_slug r).

(** [same_identities s s']: the table of [s'] has the rows of the table
    of [s], in order, each with the identity it had. *)
Definition same_identities (s s' : St) : Prop :=
  map identity (table s') = map identity (table s).

(** [costs a b c]: whatever [c] does, it sends at most [a] requests and
    sleeps at most [b] units of time. *)
Definition costs {A : Type} (a b : nat) (c : M A) : Prop :=
  forall s,
    calls s <= calls (snd (c s)) <= calls s + a /\
    clock s <= clock (snd (c s)) <= clock s + b.

(** An event other than a request to the search of the scheduled
    client. *)
Definition no_search (e : Event) : bool :=
  match e with
  | EvGet _ r => negb (String.eqb (url r) (Tracking.BASE_URL ++ "/v1.0/search"))
  | _ => true
  end.

(** ** The bot as a whole *)

(** What the users and the clock ask of the bot: a [/add_manhwa], or a
    pass, scheduled or on demand, each against the world of its time. *)
Inductive Command : Type :=
| Add (W : World) (uid : Z) (title : string)
| Run (p : Pass).

Definition run_command (c : Command) (b : AddManhwa.Bot) : AddManhwa.Bot :=
  match c with
  | Add W uid title => snd (AddManhwa.add_manhwa W uid title b)
  | Run p => AddManhwa.set_core (run_pass p (AddManhwa.core b)) b
  end.

Definition run_commands (cs : list Command) (b : AddManhwa.Bot) : AddManhwa.Bot :=
  fold_left (fun b c => run_command c b) cs b.

(** The bot on an empty database, its cogs loaded. *)
Definition fresh : AddManhwa.Bot :=
  AddManhwa.mkBot (mkSt true 0 0 0 0 [] [] [] [] []) [] 0 0 [] [].

(** The shape of the database the bot maintains: the UNIQUE constraint
    of [chapter_tracking] holds, the ids of each table are distinct and
    none exceeds the sequence of its table, and every tracked row has a
    progress that is a number, zero or more. *)
Definition well_formed (b : AddManhwa.Bot) : Prop :=
  Store.unique_keys (table (AddManhwa.core b)) = true /\
  NoDup (map row_id (table (AddManhwa.core b))) /\
  Forall (fun r => (row_id r <= AddManhwa.tracking_seq b)%Z) (table (AddManhwa.core b)) /\
  NoDup (map AddManhwa.manhwas_id (AddManhwa.manhwas b)) /\
  Forall (fun m => (AddManhwa.manhwas_id m <= AddManhwa.manhwas_seq b)%Z)
         (AddManhwa.manhwas b) /\
  Forall (fun r => exists c, latest_chapter_notified r = Some c /\
                             SFleb (float_of_Z 0) c = true)
         (table (AddManhwa.core b)).

(** The row [/add_manhwa] tracks a new manhwa with. *)
Definition new_row (b : AddManhwa.Bot) (uid : Z) (title slug : string) (now : nat) : Row :=
  mkRow (AddManhwa.next_id (AddManhwa.tracking_seq b) (map row_id (table (AddManhwa.core b))))
        uid title slug (Some (float_of_Z 0)) now.

(** [tracked uid slug t]: the user already tracks the slug. *)
Definition tracked (uid : Z) (slug : string) (t : list Row) : bool :=
  existsb (fun r => Store.key_eqb (uid, slug) (Store.key r)) t.
(* ================================================================== *)
(** * Reasoning about computations *)
(* ================================================================== *)

Section Keeps.

Variable R : St -> St -> Prop.
Hypothesis R_refl : forall s, R s s.
Hypothesis R_trans : forall a b c, R a b -> R b c -> R a c.

Lemma keeps_ret {A : Type} (a : A) : keeps R (ret a).
Proof. intros s; apply R_refl. Qed.

Lemma keeps_raise {A : Type} (e : exn) : keeps R (@raise A e).
Proof. intros s; apply R_refl. Qed.

Lemma keeps_lift {A : Type} (r : result A) : keeps R (lift r).
Proof. intros s; apply R_refl. Qed.

Lemma keeps_bind {A B : Type} (c : M A) (k : A -> M B) :
  keeps R c -> (forall a, keeps R (k a)) -> keeps R (bind c k).
Proof.
  intros Hc Hk s. unfold bind. specialize (Hc s).
  destruct (c s) as [[a|e] s1]; simpl in *.
  - eapply R_trans; [exact Hc | apply Hk].
  - exact Hc.
Qed.

Lemma keeps_try {A : Type} (c : M A) (h : exn -> M A) :
  keeps R c -> (forall e, keeps R (h e)) -> keeps R (try_except c h).
Proof.
  intros Hc Hh s. unfold try_except. specialize (Hc s).
  destruct (c s) as [[a|e] s1]; simpl in *.
  - exact Hc.
  - eapply R_trans; [exact Hc | apply Hh].
Qed.

Lemma keeps_for_each {A : Type} (body : A -> M unit) (xs : list A) :
  (forall x, keeps R (body x)) -> keeps R (for_each body xs).
Proof.
  intros Hb. induction xs as [|x rest IH]; simpl.
  - apply keeps_ret.
  - apply keeps_bind; [apply Hb | intros _; exact IH].
Qed.

End Keeps.

Lemma total_ret {A : Type} (a : A) : total (ret a).
Proof. intros s; exists a; reflexivity. Qed.

Lemma total_bind {A B : Type} (c : M A) (k : A -> M B) :
  total c -> (forall a, total (k a)) -> total (bind c k).
Proof.
  intros Hc Hk s. unfold bind. destruct (Hc s) as [a Ha].
  destruct (c s) as [[a'|e] s1]; simpl in *; [apply Hk | discriminate].
Qed.

Lemma total_try {A : Type} (c : M A) (h : exn -> M A) :
  (forall e, total (h e)) -> total (try_except c h).
Proof.
  intros Hh s. unfold try_except.
  destruct (c s) as [[a|e] s1]; simpl; [exists a; reflexivity | apply Hh].
Qed.

Lemma total_for_each {A : Type} (body : A -> M unit) (xs : list A) :
  (forall x, total (body x)) -> total (for_each body xs).
Proof.
  intros Hb. induction xs as [|x rest IH]; simpl.
  - apply total_ret.
  - apply total_bind; [apply Hb | intros _; exact IH].
Qed.

Lemma total_emit (e : Event) : total (emit e).
Proof. intros s; exists tt; reflexivity. Qed.

Lemma total_log (m : LogMsg) : total (log m).
Proof. apply total_emit. Qed.

Lemma total_sleep (d : nat) : total (sleep d).
Proof. intros s; exists tt; reflexivity. Qed.

Lemma total_http_get (W : World) (r : Request) : total (http_get W r).
Proof. intros s; eexists; reflexivity. Qed.

(** ** What the lookups leave alone *)

Lemma untouched_refl (s : St) : untouched s s.
Proof. repeat split. Qed.

Lemma untouched_trans (a b c : St) : untouched a b -> untouched b c -> untouched a c.
Proof.
  unfold untouched. intros (H1 & H2 & H3 & H4 & H5 & H6 & H7) (K1 & K2 & K3 & K4 & K5 & K6 & K7).
  repeat split; congruence.
Qed.

Lemma untouched_emit (e : Event) : keeps untouched (emit e).
Proof. intros s; repeat split. Qed.

Lemma untouched_log (m : LogMsg) : keeps untouched (log m).
Proof. apply untouched_emit. Qed.

Lemma untouched_sleep (d : nat) : keeps untouched (sleep d).
Proof. intros s; repeat split. Qed.

Lemma untouched_http_get (W : World) (r : Request) : keeps untouched (http_get W r).
Proof. intros s; repeat split. Qed.

Create HintDb keeps.

#[local] Hint Resolve untouched_refl untouched_trans untouched_log untouched_emit
  untouched_sleep untouched_http_get : keeps.

(** Break a computation down along its binds and its case analyses. *)
Ltac keeps_step R_refl R_trans :=
  first
    [ apply (keeps_ret _ R_refl)
    | apply (keeps_raise _ R_refl)
    | apply (keeps_lift _ R_refl)
    | apply (keeps_bind _ R_trans); [ | intros ? ]
    | apply (keeps_try _ R_trans); [ | intros ? ]
    | apply (keeps_for_each _ R_refl R_trans); intros ?
    | match goal with
      | |- keeps _ (match ?x with _ => _ end) => destruct x
      | |- keeps _ (if ?b then _ else _) => destruct b
      | |- keeps _ (let '_ := ?x in _) => destruct x
      end ].

Ltac untouched_auto :=
  repeat first
    [ solve [ auto with keeps ]
    | keeps_step untouched_refl untouched_trans ].

Lemma untouched_tracking_retry (retries attempt : nat) (k : M json) :
  keeps untouched k -> keeps untouched (Tracking.retry_or_give_up retries attempt k).
Proof. intros Hk. unfold Tracking.retry_or_give_up. untouched_auto. Qed.

Lemma untouched_tracking_attempts (W : World) (u : string) (ps : list (string * string))
      (retries : nat) (attempts : list nat) :
  keeps untouched (Tracking.fetch_attempts W u ps retries attempts).
Proof.
  induction attempts as [|a rest IH]; simpl.
  - untouched_auto.
  - untouched_auto; apply untouched_tracking_retry; exact IH.
Qed.

Lemma untouched_tracking_fetch_json (W : World) (u : string) (ps : list (string * string)) :
  keeps untouched (Tracking.fetch_json W u ps).
Proof.
  intros s. unfold Tracking.fetch_json, Tracking.fetch_json_with.
  destruct (session s).
  - apply untouched_tracking_attempts.
  - apply untouched_refl.
Qed.

#[local] Hint Resolve untouched_tracking_fetch_json : keeps.

Lemma untouched_search_slug (W : World) (title : string) :
  keeps untouched (Tracking.search_slug W title).
Proof. unfold Tracking.search_slug. untouched_auto. Qed.

#[local] Hint Resolve untouched_search_slug : keeps.

Lemma untouched_resolve_comic (W : World) (title slug : string) :
  keeps untouched (Tracking.resolve_comic W title slug).
Proof. unfold Tracking.resolve_comic. untouched_auto. Qed.

#[local] Hint Resolve untouched_resolve_comic : keeps.

Lemma untouched_tracking_latest (W : World) (title slug : string) :
  keeps untouched (Tracking.get_latest_chapter W title slug).
Proof. unfold Tracking.get_latest_chapter. untouched_auto. Qed.

Lemma untouched_manual_fetch_json (W : World) (u : string) (ps : list (string * string)) :
  keeps untouched (ManualCheck.fetch_json W u ps).
Proof. unfold ManualCheck.fetch_json. untouched_auto. Qed.

#[local] Hint Resolve untouched_manual_fetch_json : keeps.

Lemma untouched_search_by_title (W : World) (title : string) :
  keeps untouched (ManualCheck.search_by_title W title).
Proof. unfold ManualCheck.search_by_title. untouched_auto. Qed.

#[local] Hint Resolve untouched_search_by_title : keeps.

Lemma untouched_resolve_slug (W : World) (title slug : string) :
  keeps untouched (ManualCheck.resolve_slug W title slug).
Proof. unfold ManualCheck.resolve_slug. untouched_auto. Qed.

Lemma untouched_manual_latest (W : World) (slug : json) :
  keeps untouched (ManualCheck.get_latest_chapter W slug).
Proof. unfold ManualCheck.get_latest_chapter. untouched_auto. Qed.

(* ================================================================== *)
(** * The content proxy client: [fetch_json] *)
(* ================================================================== *)

Lemma total_tracking_retry (retries attempt : nat) (k : M json) :
  total k -> total (Tracking.retry_or_give_up retries attempt k).
Proof.
  intros Hk. unfold Tracking.retry_or_give_up.
  destruct (Nat.leb attempt retries).
  - apply total_bind; [apply total_sleep | intros _; exact Hk].
  - apply total_ret.
Qed.

Lemma total_tracking_attempts (W : World) (u : string) (ps : list (string * string))
      (retries : nat) (attempts : list nat) :
  total (Tracking.fetch_attempts W u ps retries attempts).
Proof.
  induction attempts as [|a rest IH]; simpl.
  - apply total_ret.
  - apply total_bind; [apply total_http_get|].
    intros [status [j|]| |].
    + destruct (negb (Z.eqb status 200)).
      * apply total_bind; [apply total_log | intros _; apply total_tracking_retry, IH].
      * apply total_ret.
    + destruct (negb (Z.eqb status 200));
        (apply total_bind; [apply total_log | intros _; apply total_tracking_retry, IH]).
    + apply total_bind; [apply total_log | intros _; apply total_tracking_retry, IH].
    + apply total_bind; [apply total_log | intros _; apply total_tracking_retry, IH].
Qed.

(** The scheduled client never raises. *)
Lemma total_tracking_fetch_json (W : World) (u : string) (ps : list (string * string)) :
  total (Tracking.fetch_json W u ps).
Proof.
  intros s. unfold Tracking.fetch_json, Tracking.fetch_json_with.
  destruct (session s).
  - apply total_tracking_attempts.
  - exists JNull; reflexivity.
Qed.

(** The on-demand client never raises. *)
Lemma total_manual_fetch_json (W : World) (u : string) (ps : list (string * string)) :
  total (ManualCheck.fetch_json W u ps).
Proof.
  unfold ManualCheck.fetch_json.
  apply total_bind; [apply total_http_get|].
  intros [status [j|]| |].
  - destruct (negb (Z.eqb status 200)).
    + apply total_bind; [apply total_log | intros _; apply total_ret].
    + apply total_ret.
  - destruct (negb (Z.eqb status 200));
      (apply total_bind; [apply total_log | intros _; apply total_ret]).
  - apply total_bind; [apply total_log | intros _; apply total_ret].
  - apply total_bind; [apply total_log | intros _; apply total_ret].
Qed.

(** One failed attempt of the scheduled client: the request, a printed
    line and, when attempts are left, a sleep of one unit. *)
Lemma tracking_attempt_failed (W : World) (u : string) (ps : list (string * string))
      (retries a : nat) (rest : list nat) (s : St) :
  failed (http W (calls s) (Tracking.request u ps)) = true ->
  exists m,
    Tracking.fetch_attempts W u ps retries (a :: rest) s =
    if Nat.leb a retries
    then Tracking.fetch_attempts W u ps retries rest
           (set_trace (EvSleep 1 :: EvLog m :: EvGet (calls s) (Tracking.request u ps) :: trace s)
              (set_clock (clock s + 1) (set_calls (S (calls s)) s)))
    else (Ok JNull,
          set_trace (EvLog m :: EvGet (calls s) (Tracking.request u ps) :: trace s)
            (set_calls (S (calls s)) s)).
Proof.
  intros Hf. simpl. unfold bind, http_get, Tracking.retry_or_give_up.
  destruct (http W (calls s) (Tracking.request u ps)) as [status [j|]| |]; simpl in Hf |- *.
  - rewrite Hf. eexists. unfold log, emit, bind, sleep. simpl.
    destruct (Nat.leb a retries); reflexivity.
  - destruct (negb (Z.eqb status 200)); eexists; unfold log, emit, bind, sleep; simpl;
      destruct (Nat.leb a retries); reflexivity.
  - eexists. unfold log, emit, bind, sleep. simpl.
    destruct (Nat.leb a retries); reflexivity.
  - eexists. unfold log, emit, bind, sleep. simpl.
    destruct (Nat.leb a retries); reflexivity.
Qed.

(** When every attempt fails the scheduled client gives up with [None]
    after [k] requests and [k - 1] sleeps of one unit each. *)
Lemma tracking_attempts_exhausted (W : World) (u : string) (ps : list (string * string))
      (retries : nat) :
  forall (k a : nat) (s : St),
    a + k = retries + 1 ->
    (forall i, i <= k -> failed (http W (calls s + i) (Tracking.request u ps)) = true) ->
    let r := Tracking.fetch_attempts W u ps retries (seq a (S k)) s in
    fst r = Ok JNull /\
    calls (snd r) = calls s + S k /\
    clock (snd r) = clock s + k /\
    session (snd r) = session s.
Proof.
  induction k as [|k IH]; intros a s Ha Hfail.
  - destruct (tracking_attempt_failed W u ps retries a [] s) as [m Hm].
    { specialize (Hfail 0). rewrite Nat.add_0_r in Hfail. apply Hfail. lia. }
    cbn zeta. change (seq a 1) with [a]. rewrite Hm.
    assert (Hle : Nat.leb a retries = false) by (apply Nat.leb_gt; lia).
    rewrite Hle. simpl. repeat split; lia.
  - destruct (tracking_attempt_failed W u ps retries a (seq (S a) (S k)) s) as [m Hm].
    { specialize (Hfail 0). rewrite Nat.add_0_r in Hfail. apply Hfail. lia. }
    cbn zeta. change (seq a (S (S k))) with (a :: seq (S a) (S k)). rewrite Hm.
    assert (Hle : Nat.leb a retries = true) by (apply Nat.leb_le; lia).
    rewrite Hle.
    match goal with |- context [Tracking.fetch_attempts _ _ _ _ _ ?s1] => set (s1' := s1) end.
    destruct (IH (S a) s1') as (H1 & H2 & H3 & H4).
    + lia.
    + intros i Hi. subst s1'. simpl. specialize (Hfail (S i)).
      replace (S (calls s + i)) with (calls s + S i) by lia. apply Hfail. lia.
    + subst s1'. simpl in *. repeat split; try assumption; lia.
Qed.

(** The scheduled client with its default of two retries: three failed
    attempts end in [None], after three requests and two sleeps of one
    unit. *)
Lemma tracking_fetch_json_gives_up (W : World) (u : string) (ps : list (string * string))
      (s : St) :
  session s = true ->
  (forall i, i <= 2 -> failed (http W (calls s + i) (Tracking.request u ps)) = true) ->
  let r := Tracking.fetch_json W u ps s in
  fst r = Ok JNull /\ calls (snd r) = calls s + 3 /\ clock (snd r) = clock s + 2.
Proof.
  intros Hs Hfail. unfold Tracking.fetch_json, Tracking.fetch_json_with. rewrite Hs.
  destruct (tracking_attempts_exhausted W u ps Tracking.RETRIES 2 1 s) as (H1 & H2 & H3 & _).
  - reflexivity.
  - exact Hfail.
  - cbn zeta. change (Tracking.RETRIES + 1) with 3. repeat split; assumption.
Qed.

(** The on-demand client makes one request, never sleeps, and answers a
    failure with [None]. *)
Lemma manual_fetch_json_single_attempt (W : World) (u : string) (ps : list (string * string))
      (s : St) :
  let r := ManualCheck.fetch_json W u ps s in
  calls (snd r) = S (calls s) /\ clock (snd r) = clock s /\
  (failed (http W (calls s) (ManualCheck.request u ps)) = true -> fst r = Ok JNull).
Proof.
  unfold ManualCheck.fetch_json, bind, http_get. cbn zeta.
  destruct (http W (calls s) (ManualCheck.request u ps)) as [status [j|]| |]; simpl.
  - destruct (negb (Z.eqb status 200)); simpl; repeat split; try reflexivity.
    intros H; discriminate.
  - destruct (negb (Z.eqb status 200)); simpl; repeat split; reflexivity.
  - repeat split; reflexivity.
  - repeat split; reflexivity.
Qed.

(** C4 (on-demand client): [Manual_Check.fetch_json] does not retry.
    Against an upstream whose first answer is a 503 and whose second would
    be a 200, it returns [None] after one request and no sleep; the
    scheduled client [Tracking.fetch_json], in the same situation, sleeps
    one unit, sends the request again and returns the body. *)
Theorem C4_manual_fetch_json_gives_up_at_once :
  let u := ManualCheck.chapters_url Demo.flaky (JStr "solo") in
  let ps := ManualCheck.chapters_params in
  let manual := ManualCheck.fetch_json Demo.flaky u ps (Demo.start []) in
  let scheduled := Tracking.fetch_json Demo.flaky u ps (Demo.start []) in
  failed (http Demo.flaky 0 (ManualCheck.request u ps)) = true /\
  failed (http Demo.flaky 1 (ManualCheck.request u ps)) = false /\
  fst manual = Ok JNull /\
  network (trace (snd manual)) = [EvGet 0 (ManualCheck.request u ps)] /\
  fst scheduled = Ok (Demo.chapter_list "6" "Arise" "h6") /\
  network (trace (snd scheduled)) =
    [EvGet 1 (Tracking.request u ps); EvSleep 1; EvGet 0 (Tracking.request u ps)].
Proof. vm_compute. repeat split. Qed.

(* ================================================================== *)
(** * The slug resolver: [resolve_slug] *)
(* ================================================================== *)

(** What the on-demand client returns, from the outcome of its request. *)
Lemma manual_fetch_json_run (W : World) (u : string) (ps : list (string * string)) (s : St) :
  exists l,
    ManualCheck.fetch_json W u ps s =
    (Ok (match body_of (http W (calls s) (ManualCheck.request u ps)) with
         | Some j => j
         | None => JNull
         end),
     set_trace (l ++ EvGet (calls s) (ManualCheck.request u ps) :: trace s)
               (set_calls (S (calls s)) s)) /\
    network l = [].
Proof.
  unfold ManualCheck.fetch_json, bind, http_get, body_of.
  destruct (http W (calls s) (ManualCheck.request u ps)) as [status [j|]| |]; simpl.
  - destruct (Z.eqb status 200); simpl.
    + exists []. split; reflexivity.
    + eexists [_]. split; reflexivity.
  - destruct (Z.eqb status 200); simpl; eexists [_]; split; reflexivity.
  - eexists [_]. split; reflexivity.
  - eexists [_]. split; reflexivity.
Qed.

Lemma network_app (l1 l2 : list Event) : network (l1 ++ l2) = network l1 ++ network l2.
Proof. apply filter_app. Qed.

(** A body that is an object whose "chapters" is a non-empty array lists
    a chapter. *)
Lemma has_items_chapters (items : list (string * json)) (c : json) (cs : list json) :
  assoc "chapters" items = Some (JArr (c :: cs)) ->
  ManualCheck.has_items "chapters" (JObj items) = Ok true.
Proof.
  intros H. unfold ManualCheck.has_items. simpl.
  destruct items as [|i rest]; [discriminate|]. simpl Py.truthy. cbv iota. simpl negb. cbv iota.
  rewrite H. reflexivity.
Qed.


(** The fallback of the resolver: one search request; its value is the
    identifier of the top result, or [None]. *)
Lemma search_by_title_run (W : World) (title : string) (s1 : St) (v : json) (s' : St) :
  ManualCheck.search_by_title W title s1 = (Ok v, s') ->
  v = match top_slug (http W (calls s1) (search_request title)) with
      | Some x => x
      | None => JNull
      end /\
  network (trace s') = EvGet (calls s1) (search_request title) :: network (trace s1).
Proof.
  unfold ManualCheck.search_by_title, top_slug, search_request. intros Hrun.
  unfold bind at 1 in Hrun.
  destruct (manual_fetch_json_run W ManualCheck.search_url
              (ManualCheck.search_params title) s1) as (l2 & Hf & Hl2).
  rewrite Hf in Hrun. clear Hf.
  set (s2 := set_trace _ _) in Hrun.
  assert (Hnet : forall e, network (EvLog e :: trace s2) =
            EvGet (calls s1) (ManualCheck.request ManualCheck.search_url
                                (ManualCheck.search_params title))
            :: network (trace s1)).
  { intros e. subst s2. simpl trace. change (EvLog e :: ?l) with ([EvLog e] ++ l).
    rewrite !network_app. rewrite Hl2. reflexivity. }
  clearbody s2.
  destruct (body_of (http W (calls s1) _)) as [j2|] eqn:Hb2.
  2:{ change (ManualCheck.has_items "results" JNull) with (@Ok bool false) in Hrun.
      unfold bind, lift, log, emit, ret in Hrun. simpl in Hrun.
      inversion Hrun; subst. split; [reflexivity | apply Hnet]. }
  unfold bind at 1, lift at 1 in Hrun.
  destruct (ManualCheck.has_items "results" j2) as [[|]|e2] eqn:Hh2.
  - unfold bind at 1, lift at 1 in Hrun.
    destruct (Py.item j2 "results") as [results|e] eqn:Hi; [|discriminate].
    unfold bind at 1, lift at 1 in Hrun.
    destruct (Py.item0 results) as [top|e] eqn:H0; [|discriminate].
    unfold bind at 1, lift at 1 in Hrun.
    destruct (Py.get top "slug") as [v0|e] eqn:Hg; [|discriminate].
    unfold bind, log, emit, ret in Hrun. simpl in Hrun.
    inversion Hrun; subst. split; [reflexivity | apply Hnet].
  - unfold bind, lift, log, emit, ret in Hrun. simpl in Hrun.
    inversion Hrun; subst. split; [reflexivity | apply Hnet].
  - discriminate.
Qed.

(** The requests of the fallback, however it ends. *)
Lemma search_by_title_net (W : World) (title : string) (s1 : St) :
  network (trace (snd (ManualCheck.search_by_title W title s1))) =
  EvGet (calls s1) (search_request title) :: network (trace s1).
Proof.
  unfold ManualCheck.search_by_title, search_request.
  unfold bind at 1.
  destruct (manual_fetch_json_run W ManualCheck.search_url
              (ManualCheck.search_params title) s1) as (l2 & Hf & Hl2).
  rewrite Hf. clear Hf.
  set (s2 := set_trace _ _).
  assert (Hnet2 : network (trace s2) =
            EvGet (calls s1) (ManualCheck.request ManualCheck.search_url
                                (ManualCheck.search_params title))
            :: network (trace s1)).
  { subst s2. simpl trace. rewrite network_app, Hl2. reflexivity. }
  clearbody s2.
  set (j := match body_of _ with Some j => j | None => JNull end). clearbody j.
  unfold bind at 1, lift at 1.
  destruct (ManualCheck.has_items "results" j) as [[|]|e]; cbn [fst snd]; [| |exact Hnet2].
  - unfold bind at 1, lift at 1.
    destruct (Py.item j "results") as [results|e]; cbn [fst snd]; [|exact Hnet2].
    unfold bind at 1, lift at 1.
    destruct (Py.item0 results) as [top|e]; cbn [fst snd]; [|exact Hnet2].
    unfold bind at 1, lift at 1.
    destruct (Py.get top "slug") as [v0|e]; cbn [fst snd]; [|exact Hnet2].
    exact Hnet2.
  - exact Hnet2.
Qed.

(** The tests of the resolver on a body with nothing under the key. *)
Lemma has_items_nothing (k : string) (o : Outcome) :
  nothing_under k o ->
  ManualCheck.has_items k (match body_of o with Some j => j | None => JNull end) = Ok false.
Proof.
  intros [H | [H | (items & H & Hk)]]; rewrite H; try reflexivity.
  unfold ManualCheck.has_items. destruct items as [|i rest]; [reflexivity|].
  cbn [Py.truthy negb Py.contains Py.item].
  destruct Hk as [Hk | Hk]; rewrite Hk; reflexivity.
Qed.

Lemma has_items_array (k : string) (o : Outcome) (c : json) (cs : list json) :
  array_under k o = Some (c :: cs) ->
  exists items, body_of o = Some (JObj items) /\ assoc k items = Some (JArr (c :: cs)) /\
                ManualCheck.has_items k (JObj items) = Ok true.
Proof.
  unfold array_under. intros H.
  destruct (body_of o) as [[| | | | | |items]|]; try discriminate.
  destruct (assoc k items) as [[| | | | |l|]|] eqn:Hk; try discriminate.
  inversion H; subst l. exists items. split; [reflexivity|]. split; [exact Hk|].
  unfold ManualCheck.has_items. destruct items as [|i rest]; [discriminate|].
  cbn [Py.truthy negb Py.contains Py.item]. rewrite Hk. reflexivity.
Qed.

(** C3: the resolver.  [o1] is the answer to the chapter listing under
    the stored identifier, [o2] the answer the title search gets when it
    is sent next.  When the listing holds at least one chapter,
    [resolve_slug] returns the stored identifier itself and sends that
    one request only: no search.  When the listing failed or holds no
    chapter, the title search is sent, and what it finds is the answer:
    the value under "slug" of its first result ([None] when the result
    has no such key), and [None] when the search failed or has no result.
    [None] is returned only when both steps failed: no chapter is listed,
    and the search has no first result with an identifier other than
    [None]. *)
Theorem C3_resolve_slug (W : World) (title slug : string) (s : St) :
  let o1 := http W (calls s) (listing_request W (JStr slug)) in
  let o2 := http W (S (calls s)) (search_request title) in
  let r := ManualCheck.resolve_slug W title slug s in
  (forall c cs, array_under "chapters" o1 = Some (c :: cs) ->
     fst r = Ok (JStr slug) /\
     network (trace (snd r)) =
       EvGet (calls s) (listing_request W (JStr slug)) :: network (trace s)) /\
  (nothing_under "chapters" o1 ->
     network (trace (snd r)) =
       EvGet (S (calls s)) (search_request title) ::
       EvGet (calls s) (listing_request W (JStr slug)) :: network (trace s) /\
     (forall top rest, array_under "results" o2 = Some (JObj top :: rest) ->
        fst r = Ok (match assoc "slug" top with Some v => v | None => JNull end)) /\
     (nothing_under "results" o2 -> fst r = Ok JNull)) /\
  (fst r = Ok JNull ->
     (forall c cs, array_under "chapters" o1 <> Some (c :: cs)) /\
     (forall top rest v, array_under "results" o2 = Some (JObj top :: rest) ->
        assoc "slug" top = Some v -> v = JNull)).
Proof.
  cbn zeta.
  set (o1 := http W (calls s) (listing_request W (JStr slug))).
  assert (Hrun : exists s1,
             calls s1 = S (calls s) /\
             network (trace s1) =
               EvGet (calls s) (listing_request W (JStr slug)) :: network (trace s) /\
             ManualCheck.resolve_slug W title slug s =
             match ManualCheck.has_items "chapters"
                     (match body_of o1 with Some j => j | None => JNull end) with
             | Ok true => (Ok (JStr slug), s1)
             | Ok false => ManualCheck.search_by_title W title s1
             | Raise e => (Raise e, s1)
             end).
  { unfold ManualCheck.resolve_slug. unfold bind at 1.
    destruct (manual_fetch_json_run W (ManualCheck.chapters_url W (JStr slug))
                ManualCheck.chapters_params s) as (l1 & Hf & Hl1).
    rewrite Hf. clear Hf.
    fold (listing_request W (JStr slug)). fold o1.
    eexists. split; [|split; [|unfold bind, lift;
      destruct (ManualCheck.has_items "chapters" _) as [[|]|e]; reflexivity]].
    - reflexivity.
    - simpl trace. rewrite network_app, Hl1. reflexivity. }
  destruct Hrun as (s1 & Hc1 & Ht1 & Hrun). rewrite Hrun. clear Hrun.
  (* what the search gives, when it is reached *)
  assert (Hsearch :
    network (trace (snd (ManualCheck.search_by_title W title s1))) =
      EvGet (S (calls s)) (search_request title) ::
      EvGet (calls s) (listing_request W (JStr slug)) :: network (trace s) /\
    (forall top rest,
        array_under "results" (http W (S (calls s)) (search_request title)) =
          Some (JObj top :: rest) ->
        fst (ManualCheck.search_by_title W title s1) =
          Ok (match assoc "slug" top with Some v => v | None => JNull end)) /\
    (nothing_under "results" (http W (S (calls s)) (search_request title)) ->
     fst (ManualCheck.search_by_title W title s1) = Ok JNull)).
  { split; [rewrite search_by_title_net, Hc1, Ht1; reflexivity|].
    destruct (manual_fetch_json_run W ManualCheck.search_url
                (ManualCheck.search_params title) s1) as (l2 & Hf & _).
    rewrite Hc1 in Hf. fold (search_request title) in Hf.
    split.
    - intros top rest Ha.
      destruct (has_items_array _ _ _ _ Ha) as (items & Hb & Hk & Hh).
      unfold ManualCheck.search_by_title. unfold bind at 1. rewrite Hf, Hb.
      unfold bind at 1, lift at 1. rewrite Hh.
      unfold bind at 1, lift at 1. cbn [Py.item]. rewrite Hk.
      unfold bind at 1, lift at 1. cbn [Py.item0].
      unfold bind at 1, lift at 1. cbn [Py.get Py.get_default].
      reflexivity.
    - intros Hn.
      unfold ManualCheck.search_by_title. unfold bind at 1. rewrite Hf.
      unfold bind at 1, lift at 1. rewrite (has_items_nothing _ _ Hn).
      reflexivity. }
  destruct Hsearch as (Hnet & Htop & Hnone).
  split; [|split].
  - intros c cs Ha.
    destruct (has_items_array _ _ _ _ Ha) as (items & Hb & _ & Hh).
    rewrite Hb, Hh. cbn [fst snd]. split; [reflexivity | exact Ht1].
  - intros Hn. rewrite (has_items_nothing _ _ Hn).
    split; [exact Hnet|]. split; [exact Htop | exact Hnone].
  - destruct (ManualCheck.has_items "chapters" _) as [[|]|e] eqn:Hh; cbn [fst snd].
    + discriminate.
    + intros Hnull. split.
      * intros c cs Ha. destruct (has_items_array _ _ _ _ Ha) as (items & Hb & _ & Hh').
        rewrite Hb in Hh. congruence.
      * intros top rest v Ha Hv. specialize (Htop top rest Ha).
        rewrite Hv in Htop. congruence.
    + discriminate.
Qed.

(** [resolve_slug] at work.  The stored identifier is kept when its
    listing has a chapter (upstream [Demo.steady]); when the listing is a
    404 the title search is sent and the identifier of its top result is
    the answer (upstream [Demo.moved]: "old" resolves to "new"); with
    both requests failing the answer is [None] ([Demo.down]). *)
Lemma C3_resolve_slug_witness :
  (fst (ManualCheck.resolve_slug Demo.steady "Solo Leveling" "solo" (Demo.start [])) =
     Ok (JStr "solo") /\
   network (trace (snd (ManualCheck.resolve_slug Demo.steady "Solo Leveling" "solo"
                          (Demo.start [])))) =
     [EvGet 0 (listing_request Demo.steady (JStr "solo"))]) /\
  (fst (ManualCheck.resolve_slug Demo.moved "Solo Leveling" "old" (Demo.start [])) =
     Ok (JStr "new") /\
   network (trace (snd (ManualCheck.resolve_slug Demo.moved "Solo Leveling" "old"
                          (Demo.start [])))) =
     [EvGet 1 (search_request "Solo Leveling");
      EvGet 0 (listing_request Demo.moved (JStr "old"))]) /\
  fst (ManualCheck.resolve_slug Demo.down "Solo Leveling" "old" (Demo.start [])) = Ok JNull.
Proof.
  split; [|split].
  - apply (proj1 (C3_resolve_slug Demo.steady "Solo Leveling" "solo" (Demo.start []))
             (JObj [("chap", JStr "6"); ("title", JStr "Arise"); ("hid", JStr "h6")]) []).
    vm_compute. reflexivity.
  - destruct (proj1 (proj2 (C3_resolve_slug Demo.moved "Solo Leveling" "old" (Demo.start []))))
      as (Hnet & Htop & _).
    { left. vm_compute. reflexivity. }
    split; [|exact Hnet].
    apply (Htop [("slug", JStr "new"); ("title", JStr "Solo Leveling")] []).
    vm_compute. reflexivity.
  - destruct (proj1 (proj2 (C3_resolve_slug Demo.down "Solo Leveling" "old" (Demo.start []))))
      as (_ & _ & Hnone).
    { left. vm_compute. reflexivity. }
    apply Hnone. left. vm_compute. reflexivity.
Defined.

(* ================================================================== *)
(** * The order on chapter numbers *)
(* ================================================================== *)

(** The order on (exponent, mantissa) that [SFcompare] uses on two finite
    floats of the same sign. *)
Lemma lex_compare_spec (e1 e2 : Z) (m1 m2 : positive) :
  match Z.compare e1 e2 with
  | Lt => Lt
  | Gt => Gt
  | Eq => Pos.compare_cont Eq m1 m2
  end =
  if Z.ltb e1 e2 then Lt
  else if Z.ltb e2 e1 then Gt
  else if Pos.ltb m1 m2 then Lt
  else if Pos.ltb m2 m1 then Gt else Eq.
Proof.
  change (Pos.compare_cont Eq m1 m2) with (Pos.compare m1 m2).
  destruct (Z.compare_spec e1 e2); destruct (Z.ltb_spec e1 e2); destruct (Z.ltb_spec e2 e1);
    try lia; try reflexivity.
  destruct (Pos.compare_spec m1 m2); destruct (Pos.ltb_spec m1 m2); destruct (Pos.ltb_spec m2 m1);
    try lia; reflexivity.
Qed.

Lemma lex_compare_opp_spec (e1 e2 : Z) (m1 m2 : positive) :
  match Z.compare e1 e2 with
  | Lt => Gt
  | Gt => Lt
  | Eq => CompOpp (Pos.compare_cont Eq m1 m2)
  end =
  if Z.ltb e1 e2 then Gt
  else if Z.ltb e2 e1 then Lt
  else if Pos.ltb m1 m2 then Gt
  else if Pos.ltb m2 m1 then Lt else Eq.
Proof.
  change (Pos.compare_cont Eq m1 m2) with (Pos.compare m1 m2).
  destruct (Z.compare_spec e1 e2); destruct (Z.ltb_spec e1 e2); destruct (Z.ltb_spec e2 e1);
    try lia; try reflexivity.
  destruct (Pos.compare_spec m1 m2); destruct (Pos.ltb_spec m1 m2); destruct (Pos.ltb_spec m2 m1);
    try lia; reflexivity.
Qed.

Ltac float_order_cases ex ey ez mx my mz :=
  rewrite ?lex_compare_spec, ?lex_compare_opp_spec;
  destruct (Z.ltb_spec ex ey), (Z.ltb_spec ey ex), (Z.ltb_spec ey ez), (Z.ltb_spec ez ey),
    (Z.ltb_spec ex ez), (Z.ltb_spec ez ex),
    (Pos.ltb_spec mx my), (Pos.ltb_spec my mx), (Pos.ltb_spec my mz), (Pos.ltb_spec mz my),
    (Pos.ltb_spec mx mz), (Pos.ltb_spec mz mx);
  simpl; try discriminate; try reflexivity; lia.

Lemma SFltb_irrefl (x : float) : SFltb x x = false.
Proof.
  unfold SFltb. destruct x as [s|s| |s m e]; simpl; try reflexivity.
  - destruct s; reflexivity.
  - destruct s; rewrite ?lex_compare_spec, ?lex_compare_opp_spec;
      rewrite !Z.ltb_irrefl, !Pos.ltb_irrefl; reflexivity.
Qed.

Lemma SFltb_trans (x y z : float) :
  SFltb x y = true -> SFltb y z = true -> SFltb x z = true.
Proof.
  unfold SFltb.
  destruct x as [sx|sx| |sx mx ex], y as [sy|sy| |sy my ey], z as [sz|sz| |sz mz ez];
    simpl; try discriminate; try reflexivity;
    try (destruct sx; simpl; try discriminate; try reflexivity);
    try (destruct sy; simpl; try discriminate; try reflexivity);
    try (destruct sz; simpl; try discriminate; try reflexivity);
    try (intros; assumption).
  - float_order_cases ex ey ez mx my mz.
  - float_order_cases ex ey ez mx my mz.
Qed.

Lemma SFltb_leb (x y : float) : SFltb x y = true -> SFleb x y = true.
Proof.
  unfold SFltb, SFleb. destruct (SFcompare x y) as [[| |]|]; try discriminate; reflexivity.
Qed.

Lemma SFleb_ltb_trans (x y z : float) :
  SFleb x y = true -> SFltb y z = true -> SFltb x z = true.
Proof.
  unfold SFltb, SFleb.
  destruct x as [sx|sx| |sx mx ex], y as [sy|sy| |sy my ey], z as [sz|sz| |sz mz ez];
    simpl; try discriminate; try reflexivity;
    try (destruct sx; simpl; try discriminate; try reflexivity);
    try (destruct sy; simpl; try discriminate; try reflexivity);
    try (destruct sz; simpl; try discriminate; try reflexivity);
    try (intros; assumption).
  - float_order_cases ex ey ez mx my mz.
  - float_order_cases ex ey ez mx my mz.
Qed.

Lemma or_zero_gt (x c : float) :
  float_gt c (Tracking.or_zero (Some x)) = float_gt c x.
Proof.
  destruct x as [[|]|[|]| |[|] m e]; try reflexivity;
    destruct c as [[|]|[|]| |[|] mc ec]; reflexivity.
Qed.

Lemma float_gt_irrefl (c : float) : float_gt c c = false.
Proof. apply SFltb_irrefl. Qed.

(* ================================================================== *)
(** * One row of a pass *)
(* ================================================================== *)

Lemma tracking_check_row_run (W : World) (uid : Z) (title slug : string)
      (stored : option float) (s : St) :
  Tracking.check_row W (uid, title, slug, stored) s =
  match Tracking.get_latest_chapter W title slug s with
  | (Raise e, s1) => (Ok tt, set_trace (EvLog (LogErrorChecking title e) :: trace s1) s1)
  | (Ok None, s1) => (Ok tt, s1)
  | (Ok (Some info), s1) =>
      if float_gt (info_chapter info) (Tracking.or_zero stored) then
        let s2 := set_user_updates (Tracking.dict_append uid info (user_updates s1)) s1 in
        if db_fault W (dbops s1)
        then (Ok tt, not_persisted (info_chapter info) uid title slug s2)
        else (Ok tt, persisted (info_chapter info) uid slug s2)
      else (Ok tt, s1)
  end.
Proof.
  unfold Tracking.check_row, try_except. unfold bind at 1.
  destruct (Tracking.get_latest_chapter W title slug s) as [[[info|]|e] s1]; try reflexivity.
  destruct (float_gt (info_chapter info) (Tracking.or_zero stored)); [|reflexivity].
  unfold Tracking.record_update, Tracking.persist_progress, db_op, bind, log, emit. cbn.
  destruct (db_fault W (dbops s1)); reflexivity.
Qed.

Lemma execute_update_run (W : World) (chapter : float) (rs : json) (uid : Z) (title : string)
      (s : St) :
  ManualCheck.execute_update W chapter rs uid title s =
  let q := UpdateByTitle chapter rs uid title in
  let s1 := set_dbops (S (dbops s)) s in
  if db_fault W (dbops s)
  then (Raise OperationalError, set_trace (EvSql q false :: trace s) s1)
  else match Store.bind_text W rs with
       | Raise e => (Raise e, set_trace (EvSql q false :: trace s) s1)
       | Ok slug =>
           match Store.update_by_title chapter slug (clock s) uid title (txn s) with
           | Raise e => (Raise e, set_trace (EvSql q false :: trace s) s1)
           | Ok t' => (Ok tt, set_trace (EvSql q true :: trace s) (set_txn t' s1))
           end
       end.
Proof.
  unfold ManualCheck.execute_update, db_op, bind. destruct s; cbn.
  destruct (db_fault W _); [reflexivity|].
  destruct (Store.bind_text W rs) as [slug|e]; [|reflexivity].
  destruct (Store.update_by_title chapter slug _ uid title _); reflexivity.
Qed.



Lemma snoc_changes {A : Type} (l : list A) (x : A) : l ++ [x] <> l.
Proof.
  intros H. apply (f_equal (@List.length _)) in H. rewrite length_app in H. simpl in H. lia.
Qed.



(* ================================================================== *)
(** * Rows that cannot be resolved *)
(* ================================================================== *)

(** The value of the scheduled client: [None], or the body of one of the
    answers. *)
Lemma tracking_attempts_value (W : World) (u : string) (ps : list (string * string))
      (retries : nat) (attempts : list nat) (s : St) :
  exists d, fst (Tracking.fetch_attempts W u ps retries attempts s) = Ok d /\
    (d = JNull \/ exists n, body_of (http W n (Tracking.request u ps)) = Some d).
Proof.
  revert s. induction attempts as [|a rest IH]; intros s; simpl.
  - exists JNull. split; [reflexivity | left; reflexivity].
  - unfold bind at 1, http_get.
    assert (Hretry : forall s1, exists d,
              fst (Tracking.retry_or_give_up retries a
                     (Tracking.fetch_attempts W u ps retries rest) s1) = Ok d /\
              (d = JNull \/ exists n, body_of (http W n (Tracking.request u ps)) = Some d)).
    { intros s1. unfold Tracking.retry_or_give_up. destruct (Nat.leb a retries).
      - unfold bind, sleep. apply IH.
      - exists JNull. split; [reflexivity | left; reflexivity]. }
    destruct (http W (calls s) (Tracking.request u ps)) as [status [j|]| |] eqn:Ho.
    + destruct (Z.eqb status 200) eqn:Hst; simpl negb; cbv iota.
      * exists j. split; [reflexivity|]. right. exists (calls s). rewrite Ho. simpl.
        rewrite Hst. reflexivity.
      * unfold bind, log, emit. apply Hretry.
    + destruct (negb (Z.eqb status 200)); unfold bind, log, emit; apply Hretry.
    + unfold bind, log, emit; apply Hretry.
    + unfold bind, log, emit; apply Hretry.
Qed.

Lemma tracking_fetch_json_value (W : World) (u : string) (ps : list (string * string)) (s : St) :
  exists d, fst (Tracking.fetch_json W u ps s) = Ok d /\
    (d = JNull \/ exists n, body_of (http W n (Tracking.request u ps)) = Some d).
Proof.
  unfold Tracking.fetch_json, Tracking.fetch_json_with. destruct (session s).
  - apply tracking_attempts_value.
  - exists JNull. split; [reflexivity | left; reflexivity].
Qed.

(** When the comic detail and the title search yield nothing, the
    scheduled lookup returns [None]. *)
Lemma tracking_latest_nothing (W : World) (title slug : string) (s : St) :
  (forall n, no_detail (http W n (detail_request slug)) = true) ->
  (forall n, no_search_result (http W n (title_search_request title)) = true) ->
  fst (Tracking.get_latest_chapter W title slug s) = Ok None.
Proof.
  intros Hd Hs.
  unfold Tracking.get_latest_chapter, Tracking.resolve_comic.
  unfold bind at 1. unfold bind at 1.
  destruct (tracking_fetch_json_value W (Tracking.comic_url slug) Tracking.comic_params s)
    as (d1 & E1 & V1).
  destruct (Tracking.fetch_json W (Tracking.comic_url slug) Tracking.comic_params s)
    as [r1 s1]. simpl in E1. subst r1.
  assert (N1 : Tracking.no_comic d1 = Ok true).
  { destruct V1 as [-> | [n Hn]]; [reflexivity|].
    specialize (Hd n). unfold no_detail, detail_request in Hd. rewrite Hn in Hd.
    destruct (Tracking.no_comic d1) as [[|]|]; congruence. }
  unfold bind at 1, lift at 1. rewrite N1.
  unfold bind at 1. unfold Tracking.search_slug. unfold bind at 1. unfold log at 1, emit.
  unfold bind at 1.
  set (s2 := set_trace _ s1).
  destruct (tracking_fetch_json_value W (Tracking.BASE_URL ++ "/v1.0/search")%string
              (Tracking.search_request_params title) s2) as (d2 & E2 & V2).
  destruct (Tracking.fetch_json W _ _ s2) as [r2 s3]. simpl in E2. subst r2.
  assert (N2 : Py.truthy d2 = false).
  { destruct V2 as [-> | [n Hn]]; [reflexivity|].
    specialize (Hs n). unfold no_search_result, title_search_request in Hs. rewrite Hn in Hs.
    destruct (Py.truthy d2); [discriminate | reflexivity]. }
  rewrite N2. reflexivity.
Qed.

Lemma manual_resolve_nothing (W : World) (title slug : string) (s : St) :
  (forall n, no_listing (http W n (listing_request W (JStr slug))) = true) ->
  (forall n, no_result (http W n (search_request title)) = true) ->
  fst (ManualCheck.resolve_slug W title slug s) = Ok JNull.
Proof.
  intros Hl Hr. unfold ManualCheck.resolve_slug. unfold bind at 1.
  destruct (manual_fetch_json_run W (ManualCheck.chapters_url W (JStr slug))
              ManualCheck.chapters_params s) as (l1 & -> & _).
  specialize (Hl (calls s)). unfold no_listing, listing_request in Hl.
  assert (N1 : ManualCheck.has_items "chapters"
                 (match body_of (http W (calls s)
                                   (ManualCheck.request (ManualCheck.chapters_url W (JStr slug))
                                      ManualCheck.chapters_params)) with
                  | Some j => j
                  | None => JNull
                  end) = Ok false).
  { destruct (body_of _) as [j|]; [|reflexivity].
    destruct (ManualCheck.has_items "chapters" j) as [[|]|]; congruence. }
  unfold bind at 1, lift at 1. rewrite N1.
  unfold ManualCheck.search_by_title. unfold bind at 1.
  set (s1 := set_trace _ _).
  destruct (manual_fetch_json_run W ManualCheck.search_url (ManualCheck.search_params title) s1)
    as (l2 & -> & _).
  specialize (Hr (calls s1)). unfold no_result, search_request in Hr.
  assert (N2 : ManualCheck.has_items "results"
                 (match body_of (http W (calls s1)
                                   (ManualCheck.request ManualCheck.search_url
                                      (ManualCheck.search_params title))) with
                  | Some j => j
                  | None => JNull
                  end) = Ok false).
  { destruct (body_of (http W (calls s1) _)) as [j|]; [|reflexivity].
    destruct (ManualCheck.has_items "results" j) as [[|]|]; congruence. }
  unfold bind at 1, lift at 1. rewrite N2. reflexivity.
Qed.

Lemma for_each_cons_ok {A : Type} (body : A -> M unit) (x : A) (rest : list A) (s s' : St) :
  body x s = (Ok tt, s') -> for_each body (x :: rest) s = for_each body rest s'.
Proof. intros H. simpl. unfold bind. rewrite H. reflexivity. Qed.

Lemma for_each_cons_raise {A : Type} (body : A -> M unit) (x : A) (rest : list A)
      (e : exn) (s s' : St) :
  body x s = (Raise e, s') -> for_each body (x :: rest) s = (Raise e, s').
Proof. intros H. simpl. unfold bind. rewrite H. reflexivity. Qed.

(** C5: a row for which both the lookup under the stored identifier and
    the title search yield nothing is skipped.  The row returns normally
    (no exception reaches the loop), the store and the pending updates are
    what they were, and the loop goes on with the rows that follow.  This
    holds for the row of the scheduled pass (comic detail and search) and
    for the row of the on-demand pass (chapter listing and search). *)
Theorem C5_unresolvable_row_is_skipped :
  (forall (W : World) (uid : Z) (title slug : string) (stored : option float)
          (rest : list (Z * string * string * option float)) (s : St),
      (forall n, no_detail (http W n (detail_request slug)) = true) ->
      (forall n, no_search_result (http W n (title_search_request title)) = true) ->
      let r := Tracking.check_row W (uid, title, slug, stored) s in
      fst r = Ok tt /\
      table (snd r) = table s /\
      user_updates (snd r) = user_updates s /\
      Tracking.check_rows W ((uid, title, slug, stored) :: rest) s =
        Tracking.check_rows W rest (snd r)) /\
  (forall (W : World) (uid : Z) (title slug : string) (stored : option float)
          (rest : list (string * string * option float)) (s : St),
      (forall n, no_listing (http W n (listing_request W (JStr slug))) = true) ->
      (forall n, no_result (http W n (search_request title)) = true) ->
      let r := ManualCheck.check_row W uid (title, slug, stored) s in
      fst r = Ok tt /\
      table (snd r) = table s /\
      txn (snd r) = txn s /\
      updates (snd r) = updates s /\
      for_each (ManualCheck.check_row W uid) ((title, slug, stored) :: rest) s =
        for_each (ManualCheck.check_row W uid) rest (snd r)).
Proof.
  split.
  - intros W uid title slug stored rest s Hd Hs. cbn zeta.
    pose proof (tracking_latest_nothing W title slug s Hd Hs) as Hnone.
    pose proof (untouched_tracking_latest W title slug s) as U.
    assert (Hrow : Tracking.check_row W (uid, title, slug, stored) s =
                   (Ok tt, snd (Tracking.get_latest_chapter W title slug s))).
    { rewrite tracking_check_row_run.
      destruct (Tracking.get_latest_chapter W title slug s) as [r1 s1].
      simpl in Hnone. subst r1. reflexivity. }
    unfold Tracking.check_rows. rewrite (for_each_cons_ok _ _ _ _ _ Hrow). rewrite Hrow.
    destruct U as (_ & _ & _ & Ht & Hu & _). repeat split; assumption.
  - intros W uid title slug stored rest s Hl Hr. cbn zeta.
    set (s0 := set_trace (EvLog (LogManualChecking title slug) :: trace s) s).
    pose proof (manual_resolve_nothing W title slug s0 Hl Hr) as Hnone.
    pose proof (untouched_resolve_slug W title slug s0) as U.
    assert (Hrow : ManualCheck.check_row W uid (title, slug, stored) s =
                   (Ok tt, snd (ManualCheck.resolve_slug W title slug s0))).
    { unfold ManualCheck.check_row. unfold bind at 1, log at 1, emit. unfold bind at 1.
      fold s0. destruct (ManualCheck.resolve_slug W title slug s0) as [r1 s1].
      simpl in Hnone. subst r1. reflexivity. }
    rewrite (for_each_cons_ok _ _ _ _ _ Hrow). rewrite Hrow.
    destruct U as (_ & _ & _ & Ht & _ & Hu & Hx). repeat split; assumption.
Qed.

Lemma C5_unresolvable_row_is_skipped_witness :
  let r := Tracking.check_row Demo.down (7%Z, "Solo Leveling", "solo", Some Demo.f5)
             (Demo.start (Demo.tracked Demo.f5)) in
  fst r = Ok tt /\ table (snd r) = Demo.tracked Demo.f5 /\ user_updates (snd r) = [].
Proof.
  destruct (proj1 C5_unresolvable_row_is_skipped Demo.down 7%Z "Solo Leveling" "solo"
              (Some Demo.f5) [] (Demo.start (Demo.tracked Demo.f5)))
    as (H1 & H2 & H3 & _).
  - intros n. reflexivity.
  - intros n. reflexivity.
  - cbn zeta. repeat split; assumption.
Defined.

(* ================================================================== *)
(** * Where the two passes part *)
(* ================================================================== *)

(** C2 (scheduled pass): the resolved slug is not written back.  User 7
    tracks "Solo Leveling" under "old", which the upstream has dropped;
    the lookup of the scheduled pass falls back to the search, resolves
    "new" and finds chapter 6 against 5 stored.  The pass stores 6 and
    leaves the slug "old" in the row, so the next pass has to search
    again.  The on-demand pass, on the same row and the same upstream,
    stores 6 and the slug "new". *)
Theorem C2_scheduled_pass_keeps_stale_slug :
  let s0 := Demo.start (Demo.tracked_under "old" Demo.f5) in
  let scheduled := snd (Tracking.chapter_check_loop Demo.moved s0) in
  let on_demand := snd (ManualCheck.manual_check Demo.moved 7 s0) in
  map (fun e => map info_slug (snd e)) (user_updates scheduled) = [[JStr "new"]] /\
  map latest_chapter_notified (table scheduled) = [Some Demo.f6] /\
  map manhwa_slug (table scheduled) = ["old"] /\
  map latest_chapter_notified (table on_demand) = [Some Demo.f6] /\
  map manhwa_slug (table on_demand) = ["new"].
Proof. vm_compute. repeat split. Qed.

(** C6 (on-demand pass): an exception raised by one row ends the pass.
    User 7 tracks "Solo Leveling" under the dropped "gone" and
    "Omniscient Reader" under "new"; the first row is read first, by
    rowid and by identifier alike.  It resolves to "new" and finds
    chapter 6; its UPDATE would give two rows of the user the slug "new",
    SQLite raises an integrity error, and nothing catches it before the
    handler of the whole command: the second row is never started,
    nothing is committed, the user is told the check failed.  That
    second row, checked without the first, is updated to 6.  The
    scheduled pass, whose first UPDATE fails, prints the error and goes on
    to update the second row. *)
Theorem C6_on_demand_pass_aborts_on_row_failure :
  let s0 := Demo.start Demo.tracked_two_titles in
  let on_demand := snd (ManualCheck.manual_check Demo.moved 7 s0) in
  let alone := snd (ManualCheck.manual_check Demo.moved 7 (Demo.start (tl Demo.tracked_two_titles))) in
  let scheduled := snd (Tracking.chapter_check_loop Demo.moved_faulty_db s0) in
  caught (trace on_demand) = [IntegrityError] /\
  checked_rows (trace on_demand) = [("Solo Leveling", "gone")] /\
  table on_demand = Demo.tracked_two_titles /\
  followups (trace on_demand) = [CheckFailedSeeLogs] /\
  checked_rows (trace alone) = [("Omniscient Reader", "new")] /\
  map latest_chapter_notified (table alone) = [Some Demo.f6] /\
  caught (trace scheduled) = [OperationalError] /\
  map latest_chapter_notified (table scheduled) = [Some Demo.f5; Some Demo.f6].
Proof. vm_compute. repeat split. Qed.

(** C9, as stated, fails: user 7 tracks "Solo Leveling" twice, under
    "old" and under "new".  The on-demand pass detects an advance on the
    row it checks first (6 against 5) and no row bearing the title is
    overwritten: the table is what it was. *)
Lemma C9_counterexample :
  let s' := snd (ManualCheck.manual_check Demo.moved 7 (Demo.start Demo.tracked_twice)) in
  map (fun u => (fst (fst (fst u)), snd (fst (fst u)))) (updates s') =
    [("Solo Leveling", Demo.f6)] /\
  table s' = Demo.tracked_twice /\
  ~ (forall r, In r (table s') ->
       user_id r = 7%Z -> manhwa_title r = "Solo Leveling" ->
       latest_chapter_notified r = Some Demo.f6 /\ manhwa_slug r = "new").
Proof.
  cbn zeta. split; [vm_compute; reflexivity|]. split; [vm_compute; reflexivity|].
  intros H.
  specialize (H (mkRow 1 7 "Solo Leveling" "old" (Some Demo.f5) 0)).
  destruct H as [H _]; [vm_compute; left; reflexivity | reflexivity | reflexivity |].
  vm_compute in H. discriminate.
Qed.

(* ================================================================== *)
(** * The UNIQUE constraint and the UPDATE of the scheduled pass *)
(* ================================================================== *)

Lemma key_eqb_eq (a b : Z * string) : Store.key_eqb a b = true <-> a = b.
Proof.
  unfold Store.key_eqb. destruct a as [u1 s1], b as [u2 s2]. simpl.
  rewrite andb_true_iff, Z.eqb_eq, String.eqb_eq. split.
  - intros [-> ->]. reflexivity.
  - intros H. inversion H. split; reflexivity.
Qed.

Lemma unique_keys_NoDup (t : list Row) :
  Store.unique_keys t = true <-> NoDup (map Store.key t).
Proof.
  induction t as [|r rest IH]; simpl.
  - split; [constructor | reflexivity].
  - rewrite andb_true_iff, negb_true_iff, IH. split.
    + intros [Hn Hd]. constructor; [|exact Hd].
      intros Hin. apply in_map_iff in Hin. destruct Hin as (r' & Hk & Hr').
      assert (E : existsb (fun r' => Store.key_eqb (Store.key r) (Store.key r')) rest = true).
      { apply existsb_exists. exists r'. split; [exact Hr'|]. apply key_eqb_eq. congruence. }
      congruence.
    + intros H. inversion H as [|k ks Hn Hd]; subst. split; [|exact Hd].
      destruct (existsb _ rest) eqn:E; [|reflexivity].
      apply existsb_exists in E. destruct E as (r' & Hr' & Hk). apply key_eqb_eq in Hk.
      exfalso. apply Hn. rewrite Hk. apply in_map. exact Hr'.
Qed.

Lemma update_by_slug_keys (c : float) (now : nat) (uid : Z) (slug : string) (t : list Row) :
  map Store.key (Store.update_by_slug c now uid slug t) = map Store.key t.
Proof.
  unfold Store.update_by_slug. rewrite map_map. apply map_ext.
  intros r. destruct (_ && _); reflexivity.
Qed.

Lemma update_by_slug_other (c : float) (now : nat) (uid : Z) (slug : string) (t : list Row) :
  ~ In (uid, slug) (map Store.key t) -> Store.update_by_slug c now uid slug t = t.
Proof.
  intros Hn. unfold Store.update_by_slug. rewrite <- (map_id t) at 2. apply map_ext_in.
  intros r Hr.
  destruct (Z.eqb (user_id r) uid && String.eqb (manhwa_slug r) slug) eqn:E; [|reflexivity].
  exfalso. apply Hn. apply andb_true_iff in E. destruct E as [E1 E2].
  apply Z.eqb_eq in E1. apply String.eqb_eq in E2.
  apply in_map_iff. exists r. split; [|exact Hr]. unfold Store.key. congruence.
Qed.

(** On a table that satisfies the UNIQUE constraint, the UPDATE of the
    scheduled pass rewrites the row it was issued for and no other. *)
Lemma update_by_slug_own_row (c : float) (now : nat) (pre post : list Row) (r : Row) :
  NoDup (map Store.key (pre ++ r :: post)) ->
  Store.update_by_slug c now (user_id r) (manhwa_slug r) (pre ++ r :: post) =
  pre ++ with_progress r c now :: post.
Proof.
  intros Hd. rewrite map_app in Hd. simpl in Hd.
  pose proof (NoDup_remove_2 _ _ _ Hd) as Hn.
  assert (Hpre : ~ In (Store.key r) (map Store.key pre))
    by (intros H; apply Hn; apply in_or_app; left; exact H).
  assert (Hpost : ~ In (Store.key r) (map Store.key post))
    by (intros H; apply Hn; apply in_or_app; right; exact H).
  change (Store.update_by_slug c now (user_id r) (manhwa_slug r) (pre ++ r :: post))
    with (map (fun r0 => if Z.eqb (user_id r0) (user_id r) && String.eqb (manhwa_slug r0) (manhwa_slug r)
                         then mkRow (row_id r0) (user_id r0) (manhwa_title r0) (manhwa_slug r0) (Some c) now
                         else r0) (pre ++ r :: post)).
  rewrite map_app. simpl.
  rewrite Z.eqb_refl, String.eqb_refl. simpl.
  fold (Store.update_by_slug c now (user_id r) (manhwa_slug r) pre).
  fold (Store.update_by_slug c now (user_id r) (manhwa_slug r) post).
  rewrite (update_by_slug_other _ _ _ _ pre Hpre), (update_by_slug_other _ _ _ _ post Hpost).
  reflexivity.
Qed.

(* ================================================================== *)
(** * A stationary upstream *)
(* ================================================================== *)

Lemma steady_ret {A : Type} (a : A) : steady (ret a).
Proof. intros s1 s2 H. split; [reflexivity | exact H]. Qed.

Lemma steady_raise {A : Type} (e : exn) : steady (@raise A e).
Proof. intros s1 s2 H. split; [reflexivity | exact H]. Qed.

Lemma steady_lift {A : Type} (r : result A) : steady (lift r).
Proof. intros s1 s2 H. split; [reflexivity | exact H]. Qed.

Lemma steady_bind {A B : Type} (c : M A) (k : A -> M B) :
  steady c -> (forall a, steady (k a)) -> steady (bind c k).
Proof.
  intros Hc Hk s1 s2 H. unfold bind. destruct (Hc s1 s2 H) as [Hv Hs].
  destruct (c s1) as [[a1|e1] t1], (c s2) as [[a2|e2] t2]; simpl in *; try discriminate.
  - inversion Hv; subst a2. apply Hk, Hs.
  - inversion Hv; subst e2. split; [reflexivity | exact Hs].
Qed.

Lemma steady_emit (e : Event) : steady (emit e).
Proof. intros s1 s2 H. split; [reflexivity | exact H]. Qed.

Lemma steady_log (m : LogMsg) : steady (log m).
Proof. apply steady_emit. Qed.

Lemma steady_sleep (d : nat) : steady (sleep d).
Proof. intros s1 s2 H. split; [reflexivity | exact H]. Qed.

Lemma steady_http_get (W : World) (r : Request) : stationary W -> steady (http_get W r).
Proof.
  intros HW s1 s2 H. unfold http_get. simpl. split; [|exact H].
  rewrite (HW (calls s1) (calls s2)). reflexivity.
Qed.

Create HintDb steady.
#[local] Hint Resolve steady_ret steady_raise steady_lift steady_log steady_emit steady_sleep
  steady_http_get : steady.

Ltac steady_auto :=
  repeat first
    [ solve [ auto with steady ]
    | apply steady_bind; [ | intros ? ]
    | match goal with
      | |- steady (match ?x with _ => _ end) => destruct x
      | |- steady (if ?b then _ else _) => destruct b
      end ].

Section Stationary.

Variable W : World.
Hypothesis HW : stationary W.

Lemma steady_tracking_attempts (u : string) (ps : list (string * string))
      (retries : nat) (attempts : list nat) :
  steady (Tracking.fetch_attempts W u ps retries attempts).
Proof.
  induction attempts as [|a rest IH]; simpl.
  - steady_auto.
  - assert (Hr : steady (Tracking.retry_or_give_up retries a
                           (Tracking.fetch_attempts W u ps retries rest))).
    { unfold Tracking.retry_or_give_up. steady_auto. }
    steady_auto.
Qed.

Lemma steady_tracking_fetch_json (u : string) (ps : list (string * string)) :
  steady (Tracking.fetch_json W u ps).
Proof.
  intros s1 s2 H. unfold Tracking.fetch_json, Tracking.fetch_json_with. rewrite H.
  destruct (session s2) eqn:E.
  - apply steady_tracking_attempts. congruence.
  - simpl. split; [reflexivity | congruence].
Qed.

#[local] Hint Resolve steady_tracking_fetch_json : steady.

Lemma steady_search_slug (title : string) : steady (Tracking.search_slug W title).
Proof. unfold Tracking.search_slug. steady_auto. Qed.

#[local] Hint Resolve steady_search_slug : steady.

Lemma steady_resolve_comic (title slug : string) : steady (Tracking.resolve_comic W title slug).
Proof. unfold Tracking.resolve_comic. steady_auto. Qed.

#[local] Hint Resolve steady_resolve_comic : steady.

Lemma steady_tracking_latest (title slug : string) :
  steady (Tracking.get_latest_chapter W title slug).
Proof. unfold Tracking.get_latest_chapter. steady_auto. Qed.

Lemma steady_manual_fetch_json (u : string) (ps : list (string * string)) :
  steady (ManualCheck.fetch_json W u ps).
Proof. unfold ManualCheck.fetch_json. steady_auto. Qed.

#[local] Hint Resolve steady_manual_fetch_json : steady.

Lemma steady_search_by_title (title : string) : steady (ManualCheck.search_by_title W title).
Proof. unfold ManualCheck.search_by_title. steady_auto. Qed.

#[local] Hint Resolve steady_search_by_title : steady.

Lemma steady_resolve_slug (title slug : string) : steady (ManualCheck.resolve_slug W title slug).
Proof. unfold ManualCheck.resolve_slug. steady_auto. Qed.

Lemma steady_manual_latest (slug : json) : steady (ManualCheck.get_latest_chapter W slug).
Proof. unfold ManualCheck.get_latest_chapter. steady_auto. Qed.

(** With a stationary upstream the scheduled lookup answers [lookup]. *)
Lemma tracking_latest_lookup (title slug : string) (s : St) :
  fst (Tracking.get_latest_chapter W title slug s) = lookup W (session s) title slug.
Proof. unfold lookup. apply steady_tracking_latest. reflexivity. Qed.

End Stationary.

(* ================================================================== *)
(** * The rows phase of the scheduled pass *)
(* ================================================================== *)

Lemma select_all_cons (r : Row) (t : list Row) :
  Store.select_all (r :: t) = row_tuple r :: Store.select_all t.
Proof. reflexivity. Qed.

(** What one row of the scheduled pass does to the store and to the
    pending updates. *)
Lemma tracking_check_row_effect (W : World) (r : Row) (s : St) :
  let s' := snd (Tracking.check_row W (row_tuple r) s) in
  fst (Tracking.check_row W (row_tuple r) s) = Ok tt /\
  session s' = session s /\ txn s' = txn s /\ updates s' = updates s /\ dms s' = dms s /\
  ((table s' = table s /\ user_updates s' = user_updates s /\ dbops s' = dbops s /\
    match fst (Tracking.get_latest_chapter W (manhwa_title r) (manhwa_slug r) s) with
    | Ok (Some info) =>
        float_gt (info_chapter info) (Tracking.or_zero (latest_chapter_notified r)) = false
    | _ => True
    end) \/
   (exists info,
      fst (Tracking.get_latest_chapter W (manhwa_title r) (manhwa_slug r) s) = Ok (Some info) /\
      float_gt (info_chapter info) (Tracking.or_zero (latest_chapter_notified r)) = true /\
      user_updates s' = Tracking.dict_append (user_id r) info (user_updates s) /\
      dbops s' = S (dbops s) /\
      if db_fault W (dbops s) then table s' = table s
      else exists now,
          table s' = Store.update_by_slug (info_chapter info) now (user_id r) (manhwa_slug r)
                       (table s))).
Proof.
  cbn zeta. unfold row_tuple. rewrite tracking_check_row_run.
  pose proof (untouched_tracking_latest W (manhwa_title r) (manhwa_slug r) s) as U.
  destruct (Tracking.get_latest_chapter W (manhwa_title r) (manhwa_slug r) s)
    as [[[info|]|e] s1]; simpl in U;
    destruct U as (U1 & U2 & U3 & U4 & U5 & U6 & U7).
  - destruct (float_gt (info_chapter info) (Tracking.or_zero (latest_chapter_notified r))) eqn:G.
    + cbn zeta. replace (dbops s1) with (dbops s) by (symmetry; exact U2).
      destruct (db_fault W (dbops s)) eqn:F; simpl;
        (repeat split; try assumption); right; exists info;
        rewrite ?U5, ?U2, ?U4; repeat split; try reflexivity; try exact G.
      eexists. reflexivity.
    + simpl. repeat split; try assumption. left. repeat split; assumption.
  - simpl. repeat split; try assumption. left. repeat split; assumption.
  - simpl. repeat split; try assumption. left. repeat split; assumption.
Qed.

Lemma advanced_by_update (r : Row) (c : float) (now : nat) :
  float_gt c (Tracking.or_zero (latest_chapter_notified r)) = true ->
  row_advanced r (with_progress r c now).
Proof.
  intros G. split; [repeat split|]. right. simpl.
  destruct (latest_chapter_notified r) as [a|]; [|exact I].
  rewrite or_zero_gt in G. exact G.
Qed.

Lemma row_advanced_refl (r : Row) : row_advanced r r.
Proof. split; [repeat split | left; reflexivity]. Qed.

(** The rows phase of the scheduled pass, on a table that satisfies the
    UNIQUE constraint: every row is left alone or has its progress raised
    strictly, and the keys stay. *)
Lemma tracking_check_rows_effect (W : World) (todo : list Row) :
  forall (done : list Row) (s : St),
    table s = done ++ todo ->
    NoDup (map Store.key (done ++ todo)) ->
    let s' := snd (Tracking.check_rows W (Store.select_all todo) s) in
    fst (Tracking.check_rows W (Store.select_all todo) s) = Ok tt /\
    session s' = session s /\ dbops s <= dbops s' /\
    exists todo',
      table s' = done ++ todo' /\
      Forall2 row_advanced todo todo' /\
      map Store.key todo' = map Store.key todo.
Proof.
  induction todo as [|r todo IH]; intros done s Ht Hd; cbn zeta.
  - simpl. repeat split; try lia. exists []. repeat split; [exact Ht | constructor].
  - rewrite select_all_cons. unfold Tracking.check_rows.
    destruct (tracking_check_row_effect W r s) as (Hok & Hs & _ & _ & _ & Hcases).
    destruct (Tracking.check_row W (row_tuple r) s) as [res s1] eqn:Hrow.
    simpl in Hok, Hs, Hcases. subst res.
    rewrite (for_each_cons_ok _ _ _ _ _ Hrow).
    fold (Tracking.check_rows W (Store.select_all todo) s1).
    assert (Hstep : exists r1, table s1 = done ++ r1 :: todo /\ row_advanced r r1 /\
                               Store.key r1 = Store.key r /\ dbops s <= dbops s1).
    { destruct Hcases as [(Ht1 & _ & Hd1 & _) | (info & _ & G & _ & Hd1 & Hup)].
      - exists r. repeat split; try congruence; try lia. left; reflexivity.
      - destruct (db_fault W (dbops s)).
        + exists r. repeat split; try congruence; try lia. left; reflexivity.
        + destruct Hup as [now Hup]. exists (with_progress r (info_chapter info) now).
          split; [|split; [apply advanced_by_update, G | split; [reflexivity | lia]]].
          rewrite Hup, Ht. apply update_by_slug_own_row. exact Hd. }
    destruct Hstep as (r1 & Ht1 & Hadv & Hk & Hdb).
    destruct (IH (done ++ [r1]) s1) as (Hok' & Hs' & Hdb' & todo' & Ht' & Hf & Hk').
    + rewrite <- app_assoc. exact Ht1.
    + rewrite <- app_assoc. simpl. rewrite map_app in Hd |- *. simpl in Hd |- *.
      rewrite Hk. exact Hd.
    + cbn zeta in Hok', Hs', Hdb', Ht'.
      repeat split; try congruence; try lia.
      exists (r1 :: todo'). repeat split.
      * rewrite Ht', <- app_assoc. reflexivity.
      * constructor; assumption.
      * simpl. rewrite Hk, Hk'. reflexivity.
Qed.

Section StationaryRows.

Variable W : World.
Hypothesis HW : stationary W.

Lemma advance_after_update (open : bool) (r : Row) (info : ChapterInfo) (now : nat) :
  lookup W open (manhwa_title r) (manhwa_slug r) = Ok (Some info) ->
  advance W open (with_progress r (info_chapter info) now) = None.
Proof.
  intros H. unfold advance, with_progress.
  cbn [manhwa_title manhwa_slug latest_chapter_notified]. rewrite H.
  rewrite or_zero_gt, float_gt_irrefl. reflexivity.
Qed.

Lemma settled_quiet (open : bool) (r r' : Row) :
  settled W open r r' -> advance W open r' = None.
Proof.
  unfold settled. destruct (advance W open r) as [info|] eqn:E.
  - intros [now ->]. apply advance_after_update.
    unfold advance in E.
    destruct (lookup W open (manhwa_title r) (manhwa_slug r)) as [[i|]|]; try discriminate.
    destruct (float_gt _ _); [|discriminate]. inversion E. reflexivity.
  - intros ->. exact E.
Qed.

(** With a stationary upstream and a database that takes every UPDATE,
    the rows phase stores every advance it detects. *)
Lemma tracking_check_rows_persists (todo : list Row) :
  forall (done : list Row) (s : St),
    table s = done ++ todo ->
    NoDup (map Store.key (done ++ todo)) ->
    (forall n, dbops s <= n -> db_fault W n = false) ->
    let s' := snd (Tracking.check_rows W (Store.select_all todo) s) in
    exists todo',
      table s' = done ++ todo' /\
      Forall2 (settled W (session s)) todo todo' /\
      map Store.key todo' = map Store.key todo.
Proof.
  induction todo as [|r todo IH]; intros done s Ht Hd Hdb; cbn zeta.
  - simpl. exists []. repeat split; [exact Ht | constructor].
  - rewrite select_all_cons. unfold Tracking.check_rows.
    destruct (tracking_check_row_effect W r s) as (Hok & Hs & _ & _ & _ & Hcases).
    rewrite (tracking_latest_lookup W HW) in Hcases.
    destruct (Tracking.check_row W (row_tuple r) s) as [res s1] eqn:Hrow.
    simpl in Hok, Hs, Hcases. subst res.
    rewrite (for_each_cons_ok _ _ _ _ _ Hrow).
    fold (Tracking.check_rows W (Store.select_all todo) s1).
    assert (Hstep : exists r1, table s1 = done ++ r1 :: todo /\
                               settled W (session s) r r1 /\
                               Store.key r1 = Store.key r /\ dbops s <= dbops s1).
    { destruct Hcases as [(Ht1 & _ & Hd1 & Hq) | (info & Hl & G & _ & Hd1 & Hup)].
      - exists r. repeat split; try congruence; try lia.
        unfold settled, advance.
        destruct (lookup W (session s) (manhwa_title r) (manhwa_slug r)) as [[info|]|e];
          try reflexivity.
        rewrite Hq. reflexivity.
      - rewrite (Hdb (dbops s)) in Hup by lia.
        destruct Hup as [now Hup]. exists (with_progress r (info_chapter info) now).
        split; [|split; [|split; [reflexivity | lia]]].
        + rewrite Hup, Ht. apply update_by_slug_own_row. exact Hd.
        + unfold settled, advance. rewrite Hl, G. exists now. reflexivity. }
    destruct Hstep as (r1 & Ht1 & Hq & Hk & Hdb1).
    destruct (IH (done ++ [r1]) s1) as (todo' & Ht' & Hf & Hk').
    + rewrite <- app_assoc. exact Ht1.
    + rewrite <- app_assoc. simpl. rewrite map_app in Hd |- *. simpl in Hd |- *.
      rewrite Hk. exact Hd.
    + intros n Hn. apply Hdb. lia.
    + cbn zeta in Ht'. rewrite Hs in Hf.
      exists (r1 :: todo'). repeat split.
      * rewrite Ht', <- app_assoc. reflexivity.
      * constructor; assumption.
      * simpl. rewrite Hk, Hk'. reflexivity.
Qed.

(** With a stationary upstream, rows on which there is no advance leave
    the store and the pending updates alone. *)
Lemma tracking_check_rows_quiet (todo : list Row) :
  forall (s : St),
    Forall (fun r => advance W (session s) r = None) todo ->
    let s' := snd (Tracking.check_rows W (Store.select_all todo) s) in
    table s' = table s /\ user_updates s' = user_updates s /\ session s' = session s /\
    dbops s' = dbops s.
Proof.
  induction todo as [|r todo IH]; intros s Hq; cbn zeta.
  - simpl. repeat split.
  - rewrite select_all_cons. unfold Tracking.check_rows.
    destruct (tracking_check_row_effect W r s) as (Hok & Hs & _ & _ & _ & Hcases).
    rewrite (tracking_latest_lookup W HW) in Hcases.
    destruct (Tracking.check_row W (row_tuple r) s) as [res s1] eqn:Hrow.
    simpl in Hok, Hs, Hcases. subst res.
    rewrite (for_each_cons_ok _ _ _ _ _ Hrow).
    fold (Tracking.check_rows W (Store.select_all todo) s1).
    inversion Hq as [|r' todo'' Hr Hrest]; subst.
    destruct Hcases as [(Ht1 & Hu1 & Hd1 & _) | (info & Hl & G & _)].
    + destruct (IH s1) as (Ht' & Hu' & Hs' & Hd').
      * rewrite Hs. exact Hrest.
      * cbn zeta in Ht', Hu', Hs', Hd'. repeat split; congruence.
    + unfold advance in Hr. rewrite Hl, G in Hr. discriminate.
Qed.

End StationaryRows.

(* ================================================================== *)
(** * The scheduled pass as a whole *)
(* ================================================================== *)

Lemma same_store_refl (s : St) : same_store s s.
Proof. repeat split. Qed.

Lemma same_store_trans (a b c : St) : same_store a b -> same_store b c -> same_store a c.
Proof.
  unfold same_store. intros (H1 & H2 & H3 & H4 & H5 & H6) (K1 & K2 & K3 & K4 & K5 & K6).
  repeat split; congruence.
Qed.

Lemma same_store_emit (e : Event) : keeps same_store (emit e).
Proof. intros s; repeat split. Qed.

Lemma same_store_log (m : LogMsg) : keeps same_store (log m).
Proof. apply same_store_emit. Qed.

Lemma same_store_sleep (d : nat) : keeps same_store (sleep d).
Proof. intros s; repeat split. Qed.

Lemma same_store_platform_call (W : World) (uid : Z) : keeps same_store (Tracking.platform_call W uid).
Proof. intros s. unfold Tracking.platform_call. destruct (dm_fault W (dms s) uid); repeat split. Qed.

Lemma same_store_send_dm (W : World) (entry : Z * list ChapterInfo) :
  keeps same_store (Tracking.send_dm W entry).
Proof.
  unfold Tracking.send_dm. destruct entry as [uid ups].
  repeat first
    [ solve [ auto using same_store_refl, same_store_log, same_store_emit, same_store_sleep,
                same_store_platform_call ]
    | keeps_step same_store_refl same_store_trans ].
Qed.

(** Delivering the notifications, whether it succeeds or not, leaves the
    store as the rows phase left it. *)
Lemma same_store_send_updates (W : World) : keeps same_store (Tracking.send_updates W).
Proof.
  intros s. unfold Tracking.send_updates.
  apply (keeps_bind _ same_store_trans); [apply same_store_log|].
  intros _. apply (keeps_for_each _ same_store_refl same_store_trans).
  intros x. apply same_store_send_dm.
Qed.

Lemma total_send_dm (W : World) (entry : Z * list ChapterInfo) : total (Tracking.send_dm W entry).
Proof.
  unfold Tracking.send_dm. destruct entry as [uid ups].
  apply total_try. intros e. apply total_log.
Qed.

Lemma total_send_updates (W : World) : total (Tracking.send_updates W).
Proof.
  intros s. unfold Tracking.send_updates.
  apply total_bind; [apply total_log|]. intros _. apply total_for_each. apply total_send_dm.
Qed.

Lemma total_tracking_check_row (W : World) (row : Z * string * string * option float) :
  total (Tracking.check_row W row).
Proof.
  destruct row as [[[uid title] slug] stored]. unfold Tracking.check_row.
  apply total_try. intros e. apply total_log.
Qed.

Lemma total_tracking_check_rows (W : World) (rows : list (Z * string * string * option float)) :
  total (Tracking.check_rows W rows).
Proof. apply total_for_each. apply total_tracking_check_row. Qed.

(** The scheduled pass: the initial read decides between the two ways it
    can go. *)
Lemma chapter_check_loop_run (W : World) (s : St) :
  Tracking.chapter_check_loop W s =
  if db_fault W (dbops s)
  then (Ok tt, read_failed (pass_started s))
  else (Ok tt,
        snd (Tracking.send_updates W
               (snd (Tracking.check_rows W (Store.select_all (table s))
                       (rows_read (pass_started s)))))).
Proof.
  unfold Tracking.chapter_check_loop. unfold bind at 1, log at 1, emit.
  unfold try_except. unfold bind at 1. fold (pass_started s).
  unfold bind at 1. unfold Tracking.read_all. unfold bind at 1, db_op.
  change (dbops (pass_started s)) with (dbops s).
  destruct (db_fault W (dbops s)); [reflexivity|].
  unfold bind at 1, log at 1, emit.
  change (set_trace _ (set_trace _ (set_dbops _ (pass_started s))))
    with (rows_read (pass_started s)).
  change (table (set_dbops _ (pass_started s))) with (table s).
  unfold bind.
  destruct (total_tracking_check_rows W (Store.select_all (table s))
              (rows_read (pass_started s))) as [[] Hr].
  destruct (Tracking.check_rows W (Store.select_all (table s)) (rows_read (pass_started s)))
    as [r1 s1]. simpl in Hr. subst r1. cbn [fst snd].
  destruct (total_send_updates W s1) as [[] Hs].
  destruct (Tracking.send_updates W s1) as [r2 s2]. simpl in Hs. subst r2. reflexivity.
Qed.

(* ================================================================== *)
(** * The order of the events of the scheduled pass *)
(* ================================================================== *)

Section Grows.

Variable P : Event -> bool.

Lemma grows_refl (s : St) : grows P s s.
Proof. exists []. split; [reflexivity | constructor]. Qed.

Lemma grows_trans (a b c : St) : grows P a b -> grows P b c -> grows P a c.
Proof.
  intros (l1 & H1 & F1) (l2 & H2 & F2). exists (l2 ++ l1). split.
  - rewrite H2, H1, app_assoc. reflexivity.
  - apply Forall_app. split; assumption.
Qed.

Lemma grows_emit (e : Event) : P e = true -> keeps (grows P) (emit e).
Proof. intros H s. exists [e]. split; [reflexivity | constructor; [exact H | constructor]]. Qed.

Lemma grows_silent {A : Type} (c : M A) :
  (forall s, trace (snd (c s)) = trace s) -> keeps (grows P) c.
Proof. intros H s. exists []. split; [apply H | constructor]. Qed.

End Grows.

Ltac grows_auto P :=
  repeat first
    [ apply grows_emit; reflexivity
    | apply grows_silent; intros ?; reflexivity
    | keeps_step (grows_refl P) (grows_trans P) ].

Lemma quiet_sleep (P : Event -> bool) (d : nat) : P (EvSleep d) = true -> keeps (grows P) (sleep d).
Proof. intros H s. exists [EvSleep d]. split; [reflexivity | constructor; [exact H | constructor]]. Qed.

Lemma quiet_http_get (P : Event -> bool) (W : World) (r : Request) :
  (forall n, P (EvGet n r) = true) -> keeps (grows P) (http_get W r).
Proof.
  intros H s. exists [EvGet (calls s) r].
  split; [reflexivity | constructor; [apply H | constructor]].
Qed.

Lemma quiet_db_op (W : World) (q : Sql) : keeps (grows not_delivery) (db_op W q).
Proof.
  intros s. unfold db_op. destruct (db_fault W (dbops s)); simpl.
  - exists [EvSql q false]. split; [reflexivity | repeat constructor].
  - exists []. split; [reflexivity | constructor].
Qed.

Ltac no_delivery :=
  repeat first
    [ apply grows_emit; reflexivity
    | apply quiet_sleep; reflexivity
    | apply quiet_http_get; intros ?; reflexivity
    | apply quiet_db_op
    | apply grows_silent; intros ?; reflexivity
    | keeps_step (grows_refl not_delivery) (grows_trans not_delivery) ].

Lemma no_delivery_attempts (W : World) (u : string) (ps : list (string * string))
      (retries : nat) (attempts : list nat) :
  keeps (grows not_delivery) (Tracking.fetch_attempts W u ps retries attempts).
Proof.
  induction attempts as [|a rest IH]; simpl.
  - no_delivery.
  - assert (Hr : keeps (grows not_delivery)
                   (Tracking.retry_or_give_up retries a
                      (Tracking.fetch_attempts W u ps retries rest))).
    { unfold Tracking.retry_or_give_up. unfold log. no_delivery. exact IH. }
    unfold log. no_delivery; exact Hr.
Qed.

Lemma no_delivery_fetch_json (W : World) (u : string) (ps : list (string * string)) :
  keeps (grows not_delivery) (Tracking.fetch_json W u ps).
Proof.
  intros s. unfold Tracking.fetch_json, Tracking.fetch_json_with. destruct (session s).
  - apply no_delivery_attempts.
  - apply grows_refl.
Qed.

Lemma no_delivery_latest (W : World) (title slug : string) :
  keeps (grows not_delivery) (Tracking.get_latest_chapter W title slug).
Proof.
  unfold Tracking.get_latest_chapter, Tracking.resolve_comic, Tracking.search_slug, log.
  repeat first
    [ apply no_delivery_fetch_json
    | apply grows_emit; reflexivity
    | apply grows_silent; intros ?; reflexivity
    | keeps_step (grows_refl not_delivery) (grows_trans not_delivery) ].
Qed.

(** The rows phase makes no attempt to reach a user. *)
Lemma no_delivery_check_rows (W : World) (rows : list (Z * string * string * option float)) :
  keeps (grows not_delivery) (Tracking.check_rows W rows).
Proof.
  unfold Tracking.check_rows.
  apply (keeps_for_each _ (grows_refl _) (grows_trans _)). intros [[[uid title] slug] stored].
  unfold Tracking.check_row, Tracking.record_update, Tracking.persist_progress, log.
  repeat first
    [ apply no_delivery_latest
    | apply quiet_db_op
    | apply grows_emit; reflexivity
    | apply grows_silent; intros ?; reflexivity
    | keeps_step (grows_refl not_delivery) (grows_trans not_delivery) ].
Qed.

Lemma no_sql_platform_call (W : World) (uid : Z) : keeps (grows not_sql) (Tracking.platform_call W uid).
Proof.
  intros s. unfold Tracking.platform_call. exists [].
  split; [destruct (dm_fault W (dms s) uid); reflexivity | constructor].
Qed.

(** The delivery sends no statement to the database. *)
Lemma no_sql_send_updates (W : World) : keeps (grows not_sql) (Tracking.send_updates W).
Proof.
  intros s. unfold Tracking.send_updates.
  apply (keeps_bind _ (grows_trans _)); [apply grows_emit; reflexivity|]. intros _.
  apply (keeps_for_each _ (grows_refl _) (grows_trans _)). intros [uid ups].
  unfold Tracking.send_dm, log.
  repeat first
    [ apply no_sql_platform_call
    | apply grows_emit; reflexivity
    | apply quiet_sleep; reflexivity
    | apply grows_silent; intros ?; reflexivity
    | keeps_step (grows_refl not_sql) (grows_trans not_sql) ].
Qed.

(* ================================================================== *)
(** * The row of the on-demand pass *)
(* ================================================================== *)

(** The body of the loop of [manual_check] is its two halves in a row. *)
Lemma manual_check_row_halves (W : World) (uid : Z) (title slug : string)
      (stored : option float) (s : St) :
  ManualCheck.check_row W uid (title, slug, stored) s =
  (found <- find_latest W title slug ;; apply_finding W uid title stored found) s.
Proof.
  unfold ManualCheck.check_row, find_latest, apply_finding, bind, log, emit, ret, raise.
  destruct (ManualCheck.resolve_slug W title slug _) as [[rs|e] s1]; [|reflexivity].
  destruct (negb (Py.truthy rs)); [reflexivity|].
  destruct (ManualCheck.get_latest_chapter W rs s1) as [[[l|]|e] s2]; try reflexivity.
  destruct (negb (Py.truthy (latest_number l))); [reflexivity|].
  destruct (Py.to_float (float_of_str W) (latest_number l)) as [number|[]]; reflexivity.
Qed.

Lemma untouched_find_latest (W : World) (title slug : string) :
  keeps untouched (find_latest W title slug).
Proof.
  unfold find_latest.
  repeat first
    [ apply untouched_resolve_slug
    | apply untouched_manual_latest
    | apply untouched_log
    | keeps_step untouched_refl untouched_trans ].
Qed.

Lemma steady_find_latest (W : World) (title slug : string) :
  stationary W -> steady (find_latest W title slug).
Proof.
  intros HW. unfold find_latest.
  repeat first
    [ apply (steady_resolve_slug W HW)
    | apply (steady_manual_latest W HW)
    | apply steady_log
    | apply steady_ret
    | apply steady_raise
    | apply steady_bind; [ | intros ? ]
    | match goal with
      | |- steady (match ?x with _ => _ end) => destruct x
      | |- steady (if ?b then _ else _) => destruct b
      end ].
Qed.

(** With a stationary upstream the first half of a row answers
    [finding]. *)
Lemma find_latest_finding (W : World) (title slug : string) (s : St) :
  stationary W -> fst (find_latest W title slug s) = finding W (session s) title slug.
Proof.
  intros HW. unfold finding. apply (steady_find_latest W title slug HW). reflexivity.
Qed.

(** ** The UPDATE keyed by (user_id, manhwa_title) *)

Lemma update_by_title_ok (c : float) (slug : string) (now : nat) (uid : Z) (title : string)
      (t t' : list Row) :
  Store.update_by_title c slug now uid title t = Ok t' ->
  t' = map (retitled c slug now uid title) t /\ Store.unique_keys t' = true.
Proof.
  unfold Store.update_by_title.
  change (map _ t) with (map (retitled c slug now uid title) t).
  destruct (Store.unique_keys (map (retitled c slug now uid title) t)) eqn:E; [|discriminate].
  intros H. inversion H; subst. split; [reflexivity | exact E].
Qed.

Lemma NoDup_map_at_most_one {A B : Type} (g : A -> B) (p : A -> bool) (k : B) (l : list A) :
  NoDup (map g l) ->
  (forall x, In x l -> p x = true -> g x = k) ->
  List.length (filter p l) <= 1.
Proof.
  induction l as [|x l IH]; simpl; intros Hd Hk; [lia|].
  inversion Hd as [|y ys Hn Hd']; subst.
  destruct (p x) eqn:Px.
  - simpl. assert (E : filter p l = []).
    { destruct (filter p l) as [|y ys] eqn:F; [reflexivity|]. exfalso.
      assert (Hy : In y (filter p l)) by (rewrite F; left; reflexivity).
      apply filter_In in Hy. destruct Hy as [Hy Py].
      apply Hn. rewrite (Hk x (or_introl eq_refl) Px).
      rewrite <- (Hk y (or_intror Hy) Py). apply in_map. exact Hy. }
    rewrite E. simpl. lia.
  - apply IH; [exact Hd'|]. intros y Hy. apply Hk. right. exact Hy.
Qed.

Lemma titled_retitled (c : float) (slug : string) (now : nat) (uid : Z) (title : string)
      (u : Z) (t : string) (r : Row) :
  titled u t (retitled c slug now uid title r) = titled u t r.
Proof. unfold retitled. destruct (titled uid title r); reflexivity. Qed.

Lemma filter_map_commute {A : Type} (f : A -> A) (p : A -> bool) (l : list A) :
  (forall x, p (f x) = p x) -> filter p (map f l) = map f (filter p l).
Proof.
  intros H. induction l as [|x l IH]; simpl; [reflexivity|].
  rewrite H. destruct (p x); simpl; rewrite IH; reflexivity.
Qed.

(** An UPDATE by title that SQLite accepts has met at most one row. *)
Lemma update_by_title_at_most_one (c : float) (slug : string) (now : nat) (uid : Z)
      (title : string) (t t' : list Row) :
  Store.update_by_title c slug now uid title t = Ok t' ->
  List.length (filter (titled uid title) t) <= 1.
Proof.
  intros H. apply update_by_title_ok in H. destruct H as [-> Hu].
  apply unique_keys_NoDup in Hu.
  pose proof (NoDup_map_at_most_one Store.key (titled uid title) (uid, slug) _ Hu) as H.
  rewrite filter_map_commute in H by (intros x; apply titled_retitled).
  rewrite length_map in H. apply H.
  intros x Hx Px. apply in_map_iff in Hx. destruct Hx as (r & <- & Hr).
  rewrite titled_retitled in Px. unfold retitled. rewrite Px. unfold Store.key. simpl.
  unfold titled in Px. apply andb_true_iff in Px. destruct Px as [Pu _].
  apply Z.eqb_eq in Pu. rewrite Pu. reflexivity.
Qed.

Lemma bind_ok {A B : Type} (c : M A) (k : A -> M B) (a : A) (s s1 : St) :
  c s = (Ok a, s1) -> bind c k s = k a s1.
Proof. intros H. unfold bind. rewrite H. reflexivity. Qed.

Lemma bind_raise {A B : Type} (c : M A) (k : A -> M B) (e : exn) (s s1 : St) :
  c s = (Raise e, s1) -> bind c k s = (Raise e, s1).
Proof. intros H. unfold bind. rewrite H. reflexivity. Qed.

Lemma manual_check_row_run (W : World) (uid : Z) (title slug : string)
      (stored : option float) (s : St) :
  ManualCheck.check_row W uid (title, slug, stored) s =
  match find_latest W title slug s with
  | (Raise e, s1) => (Raise e, s1)
  | (Ok None, s1) => (Ok tt, s1)
  | (Ok (Some (number, rs, l)), s1) =>
      match ManualCheck.newer number stored with
      | Raise e => (Raise e, s1)
      | Ok false => (Ok tt, s1)
      | Ok true =>
          ManualCheck.execute_update W number rs uid title
            (set_updates (updates s1 ++ [(title, number, latest_title l, latest_url l)]) s1)
      end
  end.
Proof.
  rewrite manual_check_row_halves. unfold bind at 1.
  destruct (find_latest W title slug s) as [[[[[number rs] l]|]|e] s1]; try reflexivity.
  unfold apply_finding. unfold bind at 1, lift at 1.
  destruct (ManualCheck.newer number stored) as [[|]|e]; reflexivity.
Qed.

(** What one row of the on-demand pass does: it leaves the committed
    table alone; either it changes nothing in the connection and in
    [updates], or it has found a newer chapter, has appended it to
    [updates] and has sent the UPDATE, which fails without effect or
    rewrites the connection's view of the table. *)
Lemma manual_check_row_effect (W : World) (uid : Z) (r : Row) (s : St) :
  let res := ManualCheck.check_row W uid (row_triple r) s in
  let found := fst (find_latest W (manhwa_title r) (manhwa_slug r) s) in
  let s' := snd res in
  table s' = table s /\ session s' = session s /\ user_updates s' = user_updates s /\
  dbops s <= dbops s' /\
  ((txn s' = txn s /\ updates s' = updates s /\ dbops s' = dbops s /\
    fst res = match found with
              | Raise e => Raise e
              | Ok None => Ok tt
              | Ok (Some (number, _, _)) =>
                  match ManualCheck.newer number (latest_chapter_notified r) with
                  | Raise e => Raise e
                  | Ok _ => Ok tt
                  end
              end /\
    match found with
    | Ok (Some (number, _, _)) =>
        ManualCheck.newer number (latest_chapter_notified r) <> Ok true
    | _ => True
    end) \/
   (exists number rs l,
      found = Ok (Some (number, rs, l)) /\
      ManualCheck.newer number (latest_chapter_notified r) = Ok true /\
      updates s' = updates s ++ [(manhwa_title r, number, latest_title l, latest_url l)] /\
      dbops s' = S (dbops s) /\
      ((exists e, fst res = Raise e /\ txn s' = txn s) \/
       (exists slug' now,
          fst res = Ok tt /\ Store.bind_text W rs = Ok slug' /\
          Store.update_by_title number slug' now uid (manhwa_title r) (txn s) = Ok (txn s'))))).
Proof.
  cbn zeta. unfold row_triple. rewrite manual_check_row_run.
  pose proof (untouched_find_latest W (manhwa_title r) (manhwa_slug r) s) as U.
  destruct (find_latest W (manhwa_title r) (manhwa_slug r) s)
    as [[[[[number rs] l]|]|e] s1] eqn:Hf;
    simpl in U; destruct U as (U1 & U2 & U3 & U4 & U5 & U6 & U7); cbn [fst snd].
  - destruct (ManualCheck.newer number (latest_chapter_notified r)) as [[|]|e] eqn:N.
    + rewrite execute_update_run. cbn zeta.
      set (s2 := set_updates _ s1).
      change (dbops s2) with (dbops s1). change (txn s2) with (txn s1).
      change (trace s2) with (trace s1). change (clock s2) with (clock s1).
      assert (Hup : updates s2 = updates s ++ [(manhwa_title r, number, latest_title l, latest_url l)])
        by (subst s2; simpl; rewrite U6; reflexivity).
      assert (Hfr : table s2 = table s /\ session s2 = session s /\
                    user_updates s2 = user_updates s /\ txn s2 = txn s)
        by (subst s2; simpl; auto).
      destruct Hfr as (F1 & F2 & F3 & F4).
      clearbody s2.
      destruct (db_fault W (dbops s1)).
      { simpl. rewrite U2. repeat split; try assumption; try lia.
        right. exists number, rs, l. repeat split; try assumption.
        left. eexists. split; [reflexivity | exact F4]. }
      destruct (Store.bind_text W rs) as [slug'|e] eqn:Bd.
      2:{ simpl. rewrite U2. repeat split; try assumption; try lia.
          right. exists number, rs, l. repeat split; try assumption.
          left. eexists. split; [reflexivity | exact F4]. }
      destruct (Store.update_by_title number slug' (clock s1) uid (manhwa_title r) (txn s1))
        as [t'|e] eqn:Up.
      2:{ simpl. rewrite U2. repeat split; try assumption; try lia.
          right. exists number, rs, l. repeat split; try assumption.
          left. eexists. split; [reflexivity | exact F4]. }
      simpl. rewrite U2. repeat split; try assumption; try lia.
      right. exists number, rs, l. repeat split; try assumption.
      right. exists slug', (clock s1). repeat split; [exact Bd|]. rewrite <- U7. exact Up.
    + simpl. rewrite U2. repeat split; try assumption; try lia.
      left. repeat split; try assumption; try discriminate.
    + simpl. rewrite U2. repeat split; try assumption; try lia.
      left. repeat split; try assumption; try discriminate.
  - simpl. rewrite U2. repeat split; try assumption; try lia.
    left. repeat split; try assumption.
  - simpl. rewrite U2. repeat split; try assumption; try lia.
    left. repeat split; try assumption.
Qed.

(* ================================================================== *)
(** * The loop of the on-demand pass *)
(* ================================================================== *)

Lemma filter_le1_unique {A : Type} (p : A -> bool) (l : list A) (x y : A) :
  List.length (filter p l) <= 1 -> In x l -> In y l -> p x = true -> p y = true -> x = y.
Proof.
  intros Hlen Hx Hy Px Py.
  assert (Fx : In x (filter p l)) by (apply filter_In; split; assumption).
  assert (Fy : In y (filter p l)) by (apply filter_In; split; assumption).
  destruct (filter p l) as [|a [|b rest]]; simpl in *; try lia; try contradiction.
  destruct Fx as [<-|[]], Fy as [<-|[]]. reflexivity.
Qed.

Lemma Forall2_map_r_in {A B : Type} (P Q : A -> B -> Prop) (f : B -> B)
      (l1 : list A) (l2 : list B) :
  Forall2 P l1 l2 ->
  (forall a b, In a l1 -> In b l2 -> P a b -> Q a (f b)) ->
  Forall2 Q l1 (map f l2).
Proof.
  intros H. induction H as [|a b l1 l2 Hab H IH]; intros Hq; simpl.
  - constructor.
  - constructor.
    + apply Hq; [left; reflexivity | left; reflexivity | exact Hab].
    + apply IH. intros a' b' Ha Hb. apply Hq; right; assumption.
Qed.

Lemma Forall2_impl {A B : Type} (P Q : A -> B -> Prop) (l1 : list A) (l2 : list B) :
  (forall a b, P a b -> Q a b) -> Forall2 P l1 l2 -> Forall2 Q l1 l2.
Proof. intros H F. induction F; constructor; auto. Qed.

Lemma count_titled_Forall2 (uid : Z) (title : string) (l1 l2 : list Row) :
  Forall2 (fun a b => user_id b = user_id a /\ manhwa_title b = manhwa_title a) l1 l2 ->
  count_titled uid title l2 = count_titled uid title l1.
Proof.
  unfold count_titled. intros H. induction H as [|a b l1 l2 [Hu Ht] H IH]; simpl; [reflexivity|].
  assert (E : titled uid title b = titled uid title a)
    by (unfold titled; rewrite Hu, Ht; reflexivity).
  rewrite E. destruct (titled uid title a); simpl; [f_equal|]; exact IH.
Qed.

Lemma loop_inv_same (uid : Z) (todo : list Row) (r0 r : Row) :
  loop_inv uid todo r0 r -> user_id r = user_id r0 /\ manhwa_title r = manhwa_title r0.
Proof.
  intros [-> | (_ & _ & (_ & Hu & Ht) & _)]; [split; reflexivity | split; assumption].
Qed.

Lemma count_titled_users (uid : Z) (title : string) (l : list Row) :
  count_titled uid title (filter (fun r => Z.eqb (user_id r) uid) l) = count_titled uid title l.
Proof.
  unfold count_titled. induction l as [|r l IH]; simpl; [reflexivity|].
  destruct (Z.eqb (user_id r) uid) eqn:E; simpl.
  - destruct (titled uid title r); simpl; [f_equal|]; exact IH.
  - assert (F : titled uid title r = false) by (unfold titled; rewrite E; reflexivity).
    rewrite F. exact IH.
Qed.

Lemma count_titled_perm (uid : Z) (title : string) (l l' : list Row) :
  Permutation l l' -> count_titled uid title l = count_titled uid title l'.
Proof.
  unfold count_titled. induction 1 as [|x l l' _ IH|x y l|l l' l'' _ IH1 _ IH2]; simpl.
  - reflexivity.
  - destruct (titled uid title x); simpl; [f_equal|]; exact IH.
  - destruct (titled uid title x), (titled uid title y); reflexivity.
  - congruence.
Qed.

(** The index holds the rows it is given, in its own order. *)
Lemma index_insert_perm (r : Row) (rows : list Row) :
  Permutation (r :: rows) (Store.index_insert r rows).
Proof.
  induction rows as [|r' rest IH]; simpl; [apply Permutation_refl|].
  destruct (Store.index_leb r r'); [apply Permutation_refl|].
  eapply Permutation_trans; [apply perm_swap|]. apply perm_skip. exact IH.
Qed.

Lemma index_order_perm (rows : list Row) : Permutation rows (Store.index_order rows).
Proof.
  induction rows as [|r rest IH]; simpl; [apply perm_nil|].
  eapply Permutation_trans; [apply perm_skip; exact IH|]. apply index_insert_perm.
Qed.

Lemma count_titled_app (uid : Z) (title : string) (l1 l2 : list Row) :
  count_titled uid title (l1 ++ l2) = count_titled uid title l1 + count_titled uid title l2.
Proof. unfold count_titled. rewrite filter_app, length_app. reflexivity. Qed.

Lemma count_titled_in (uid : Z) (title : string) (l : list Row) (r : Row) :
  In r l -> titled uid title r = true -> 1 <= count_titled uid title l.
Proof.
  intros Hin Ht. unfold count_titled.
  assert (F : In r (filter (titled uid title) l)) by (apply filter_In; split; assumption).
  destruct (filter (titled uid title) l); [contradiction | simpl; lia].
Qed.

Lemma titled_true (uid : Z) (title : string) (r : Row) :
  titled uid title r = true <-> user_id r = uid /\ manhwa_title r = title.
Proof.
  unfold titled. rewrite andb_true_iff, Z.eqb_eq, String.eqb_eq. reflexivity.
Qed.

Lemma newer_true (number : float) (stored : option float) :
  ManualCheck.newer number stored = Ok true ->
  exists a, stored = Some a /\ SFltb a number = true.
Proof.
  unfold ManualCheck.newer, float_gt. destruct stored as [a|]; [|discriminate].
  intros H. inversion H. exists a. split; reflexivity.
Qed.

Lemma row_advanced_trans (a b c : Row) : row_advanced a b -> row_advanced b c -> row_advanced a c.
Proof.
  intros [(I1 & U1 & T1) A1] [(I2 & U2 & T2) A2]. split; [repeat split; congruence|].
  destruct A1 as [E1|A1]; [rewrite E1 in A2; exact A2|].
  destruct A2 as [E2|A2]; [right; rewrite E2; exact A1|].
  right.
  destruct (latest_chapter_notified a) as [x|], (latest_chapter_notified b) as [y|],
    (latest_chapter_notified c) as [z|]; try contradiction; try exact I.
  apply (SFltb_trans x y z); assumption.
Qed.

Lemma loop_inv_weaken (uid : Z) (r_h : Row) (todo : list Row) (r0 r : Row) :
  loop_inv uid (r_h :: todo) r0 r -> loop_inv uid todo r0 r.
Proof.
  intros [E | (Hu & Hn & Ha)]; [left; exact E|].
  right. split; [exact Hu|]. split; [|exact Ha]. intros Hin. apply Hn. right. exact Hin.
Qed.

(** When SQLite accepts the UPDATE by title sent for the row [r_h] the
    loop is at, the one row of the connection it rewrites is [r_h],
    untouched so far, and no later row of the loop bears its title. *)
Lemma accepted_update_hits_own_row (uid : Z) (T0 txn t' done todo : list Row) (r_h : Row)
      (number : float) (slug' : string) (now : nat) :
  Forall2 (loop_inv uid (r_h :: todo)) T0 txn ->
  Permutation (filter (fun r => Z.eqb (user_id r) uid) T0) (done ++ r_h :: todo) ->
  Store.update_by_title number slug' now uid (manhwa_title r_h) txn = Ok t' ->
  titled uid (manhwa_title r_h) r_h = true /\
  ~ In (manhwa_title r_h) (map manhwa_title todo) /\
  (forall r0 r, In r0 T0 -> loop_inv uid (r_h :: todo) r0 r ->
                titled uid (manhwa_title r_h) r = true -> r = r_h /\ r0 = r_h).
Proof.
  intros Hinv Husers Hup.
  pose proof (update_by_title_at_most_one _ _ _ _ _ _ _ Hup) as Hle.
  fold (count_titled uid (manhwa_title r_h) txn) in Hle.
  assert (Hcount : count_titled uid (manhwa_title r_h) T0 <= 1).
  { rewrite <- (count_titled_Forall2 uid (manhwa_title r_h) T0 txn); [exact Hle|].
    eapply Forall2_impl; [|exact Hinv]. intros a b. apply loop_inv_same. }
  assert (Hh : In r_h T0 /\ user_id r_h = uid).
  { assert (Hin : In r_h (filter (fun r => Z.eqb (user_id r) uid) T0))
      by (apply (Permutation_in _ (Permutation_sym Husers)); apply in_or_app; right; left; reflexivity).
    apply filter_In in Hin. destruct Hin as [Hin Hu]. apply Z.eqb_eq in Hu. split; assumption. }
  destruct Hh as [Hh_in Hh_user].
  assert (Hh_titled : titled uid (manhwa_title r_h) r_h = true)
    by (apply titled_true; split; [exact Hh_user | reflexivity]).
  split; [exact Hh_titled|]. split.
  - intros Hin. apply in_map_iff in Hin. destruct Hin as (r2 & Ht2 & Hin2).
    assert (Hu2 : user_id r2 = uid).
    { assert (Hin : In r2 (filter (fun r => Z.eqb (user_id r) uid) T0))
        by (apply (Permutation_in _ (Permutation_sym Husers)); apply in_or_app; right; right; exact Hin2).
      apply filter_In in Hin. destruct Hin as [_ Hu]. apply Z.eqb_eq in Hu. exact Hu. }
    assert (H2 : 1 <= count_titled uid (manhwa_title r_h) todo).
    { apply (count_titled_in _ _ _ r2 Hin2). apply titled_true. split; assumption. }
    assert (H3 : count_titled uid (manhwa_title r_h) (done ++ r_h :: todo) <= 1).
    { rewrite <- (count_titled_perm uid _ _ _ Husers), count_titled_users. exact Hcount. }
    rewrite count_titled_app in H3.
    change (r_h :: todo) with ([r_h] ++ todo) in H3. rewrite count_titled_app in H3.
    assert (H4 : count_titled uid (manhwa_title r_h) [r_h] = 1)
      by (unfold count_titled; simpl; rewrite Hh_titled; reflexivity).
    lia.
  - intros r0 r Hr0 Hrel Tr.
    apply titled_true in Tr. destruct Tr as [Tu Tt].
    destruct (loop_inv_same _ _ _ _ Hrel) as [Su St].
    assert (E : r = r0).
    { destruct Hrel as [E | (_ & Hn & _)]; [exact E|].
      exfalso. apply Hn. left. congruence. }
    subst r.
    assert (E0 : r0 = r_h).
    { apply (filter_le1_unique (titled uid (manhwa_title r_h)) T0); try assumption.
      apply titled_true. split; assumption. }
    split; exact E0.
Qed.

(** An accepted UPDATE by title keeps the invariant of the loop: it has
    rewritten the one row the loop is at, and has raised its progress. *)
Lemma loop_inv_update (uid : Z) (T0 txn t' done todo : list Row) (r_h : Row)
      (number : float) (slug' : string) (now : nat) :
  Forall2 (loop_inv uid (r_h :: todo)) T0 txn ->
  Permutation (filter (fun r => Z.eqb (user_id r) uid) T0) (done ++ r_h :: todo) ->
  Store.update_by_title number slug' now uid (manhwa_title r_h) txn = Ok t' ->
  ManualCheck.newer number (latest_chapter_notified r_h) = Ok true ->
  Forall2 (loop_inv uid todo) T0 t'.
Proof.
  intros Hinv Husers Hup Hnew.
  destruct (accepted_update_hits_own_row uid T0 txn t' done todo r_h number slug' now
              Hinv Husers Hup) as (Hh_titled & Hnotin & Hown).
  apply update_by_title_ok in Hup. destruct Hup as [-> _].
  apply (Forall2_map_r_in (loop_inv uid (r_h :: todo))); [exact Hinv|].
  intros r0 r Hr0 Hr Hrel.
  unfold retitled. destruct (titled uid (manhwa_title r_h) r) eqn:Tr.
  - destruct (Hown r0 r Hr0 Hrel Tr) as [-> ->].
    apply titled_true in Hh_titled. destruct Hh_titled as [Hh_user _].
    right. split; [exact Hh_user|]. split; [exact Hnotin|].
    split; [repeat split|]. right. simpl.
    destruct (newer_true _ _ Hnew) as (a & Ha & Hlt). rewrite Ha. exact Hlt.
  - apply loop_inv_weaken in Hrel. exact Hrel.
Qed.

Lemma map_row_triple_cons (r : Row) (l : list Row) :
  map row_triple (r :: l) = row_triple r :: map row_triple l.
Proof. reflexivity. Qed.

(** The loop of [manual_check] over the rows of the user, from a
    connection that satisfies the invariant.  It never touches the
    committed table; when it ends without an exception every row of the
    connection is the row of the start or has had its progress raised,
    and no update was recorded for a title the user has on two rows. *)
Lemma manual_rows_effect (W : World) (uid : Z) (T0 : list Row) (todo : list Row) :
  forall (done : list Row) (s : St),
    Permutation (filter (fun r => Z.eqb (user_id r) uid) T0) (done ++ todo) ->
    Forall2 (loop_inv uid todo) T0 (txn s) ->
    let res := for_each (ManualCheck.check_row W uid) (map row_triple todo) s in
    let s' := snd res in
    table s' = table s /\ session s' = session s /\ user_updates s' = user_updates s /\
    dbops s <= dbops s' /\
    (fst res = Ok tt ->
       Forall2 row_advanced T0 (txn s') /\
       (txn s' = txn s \/ Store.unique_keys (txn s') = true) /\
       (forall T e, 2 <= count_titled uid T T0 -> In e (updates s') ->
                    fst (fst (fst e)) = T -> In e (updates s))).
Proof.
  induction todo as [|r_h todo IH]; intros done s Husers Hinv; cbn zeta.
  - simpl. split; [reflexivity|]. split; [reflexivity|]. split; [reflexivity|].
    split; [lia|]. intros _. split; [|split].
    + eapply Forall2_impl; [|exact Hinv].
      intros a b [-> | (_ & _ & Ha)]; [apply row_advanced_refl | exact Ha].
    + left. reflexivity.
    + intros T e _ Hin _. exact Hin.
  - rewrite map_row_triple_cons.
    destruct (manual_check_row_effect W uid r_h s) as (Ht & Hs & Huu & Hdb & Hcases).
    cbn zeta in Ht, Hs, Huu, Hdb, Hcases.
    destruct (ManualCheck.check_row W uid (row_triple r_h) s) as [[[]|e] s1] eqn:Hrow;
      cbn [fst snd] in *.
    2:{ rewrite (for_each_cons_raise _ _ _ _ _ _ Hrow). cbn [fst snd].
        split; [exact Ht|]. split; [exact Hs|]. split; [exact Huu|]. split; [exact Hdb|].
        intros H; discriminate. }
    rewrite (for_each_cons_ok _ _ _ _ _ Hrow).
    assert (Hcount : forall T, count_titled uid T (txn s) = count_titled uid T T0).
    { intros T. apply count_titled_Forall2. eapply Forall2_impl; [|exact Hinv].
      intros a b. apply loop_inv_same. }
    assert (Hstep : Forall2 (loop_inv uid todo) T0 (txn s1) /\
                    (txn s1 = txn s \/ Store.unique_keys (txn s1) = true) /\
                    (forall T e, 2 <= count_titled uid T T0 -> In e (updates s1) ->
                                 fst (fst (fst e)) = T -> In e (updates s))).
    { destruct Hcases as [(Hx & Hu & _) | (number & rs & l & _ & Hnew & Hu & _ & Hex)].
      - rewrite Hx, Hu. split; [|split].
        + eapply Forall2_impl; [|exact Hinv]. intros a b. apply loop_inv_weaken.
        + left. reflexivity.
        + intros T e _ Hin _. exact Hin.
      - destruct Hex as [(e & He & _) | (slug' & now & _ & _ & Hup)]; [discriminate|].
        split; [|split].
        + apply (loop_inv_update uid T0 (txn s) (txn s1) done todo r_h number slug' now);
            assumption.
        + right. apply update_by_title_ok in Hup. apply Hup.
        + intros T e HT Hin Htitle. rewrite Hu in Hin. apply in_app_or in Hin.
          destruct Hin as [Hin | [<- | []]]; [exact Hin|]. exfalso.
          simpl in Htitle. subst T.
          pose proof (update_by_title_at_most_one _ _ _ _ _ _ _ Hup) as Hle.
          fold (count_titled uid (manhwa_title r_h) (txn s)) in Hle.
          rewrite Hcount in Hle. lia. }
    destruct Hstep as (Hinv1 & Hkeys1 & Hupd1).
    destruct (IH (done ++ [r_h]) s1) as (Ht' & Hs' & Huu' & Hdb' & Hok').
    + rewrite <- app_assoc. exact Husers.
    + exact Hinv1.
    + cbn zeta in Ht', Hs', Huu', Hdb', Hok'.
      split; [congruence|]. split; [congruence|]. split; [congruence|]. split; [lia|].
      intros Hres. destruct (Hok' Hres) as (Hadv & Hkeys' & Hupd'). split; [exact Hadv|]. split.
      * destruct Hkeys' as [E | U]; [rewrite E; exact Hkeys1 | right; exact U].
      * intros T e HT Hin Htitle.
        apply (Hupd1 T e HT); [|exact Htitle]. apply (Hupd' T e HT Hin Htitle).
Qed.

(* ================================================================== *)
(** * The on-demand pass as a whole, and passes in sequence *)
(* ================================================================== *)

Lemma select_user_rows (uid : Z) (t : list Row) :
  Store.select_user uid t =
  map row_triple (Store.index_order (filter (fun r => Z.eqb (user_id r) uid) t)).
Proof. reflexivity. Qed.

(** The on-demand pass, along the ways it can go. *)
Lemma manual_check_run (W : World) (uid : Z) (s : St) :
  ManualCheck.manual_check W uid s =
  if db_fault W (dbops s)
  then (Ok tt, manual_failed OperationalError
                 (set_trace (EvSql (SelectUser uid) false :: trace s)
                    (set_dbops (S (dbops s)) (set_updates [] s))))
  else
    match Store.select_user uid (table s) with
    | [] => (Ok tt, set_trace (EvFollowup NotFollowing :: trace (connected uid s))
                      (connected uid s))
    | rows =>
        match for_each (ManualCheck.check_row W uid) rows (connected uid s) with
        | (Raise e, s2) => (Ok tt, manual_failed e s2)
        | (Ok _, s2) =>
            if db_fault W (dbops s2)
            then (Ok tt, manual_failed OperationalError
                           (set_trace (EvSql Commit false :: trace s2)
                              (set_dbops (S (dbops s2)) s2)))
            else (Ok tt, committed s2)
        end
    end.
Proof.
  unfold ManualCheck.manual_check. unfold bind at 1. unfold try_except.
  unfold bind at 1. unfold ManualCheck.read_user. unfold bind at 1. unfold db_op at 1.
  change (dbops (set_updates [] s)) with (dbops s).
  destruct (db_fault W (dbops s)); [reflexivity|].
  change (table (set_dbops (S (dbops s)) (set_updates [] s))) with (table s).
  change (set_trace _ (set_txn (table s) (set_dbops (S (dbops s)) (set_updates [] s))))
    with (connected uid s).
  destruct (Store.select_user uid (table s)) as [|row rows]; [reflexivity|].
  unfold bind at 1.
  destruct (for_each (ManualCheck.check_row W uid) (row :: rows) (connected uid s))
    as [[[]|e] s2]; [|reflexivity].
  unfold bind at 1. unfold ManualCheck.commit. unfold bind at 1. unfold db_op at 1.
  destruct (db_fault W (dbops s2)); [reflexivity|].
  unfold committed, ManualCheck.followup, emit. simpl.
  destruct (updates s2); reflexivity.
Qed.

Lemma loop_inv_start (uid : Z) (todo T0 : list Row) : Forall2 (loop_inv uid todo) T0 T0.
Proof. induction T0; constructor; [left; reflexivity | assumption]. Qed.

Lemma Forall2_row_advanced_refl (t : list Row) : Forall2 row_advanced t t.
Proof. induction t; constructor; [apply row_advanced_refl | assumption]. Qed.

(** What the on-demand pass does to the committed table: nothing, or,
    with its commit, the outcome of a loop that ended without an
    exception. *)
Lemma manual_check_effect (W : World) (uid : Z) (s : St) :
  let s' := snd (ManualCheck.manual_check W uid s) in
  session s' = session s /\ user_updates s' = user_updates s /\
  (table s' = table s \/
   (exists s2,
      for_each (ManualCheck.check_row W uid) (Store.select_user uid (table s))
               (connected uid s) = (Ok tt, s2) /\
      table s' = txn s2 /\ updates s' = updates s2)) /\
  Forall2 row_advanced (table s) (table s') /\
  (Store.unique_keys (table s) = true -> Store.unique_keys (table s') = true) /\
  (forall T e, 2 <= count_titled uid T (table s) -> In e (updates s') ->
               fst (fst (fst e)) = T -> table s' = table s).
Proof.
  cbn zeta. rewrite manual_check_run.
  destruct (db_fault W (dbops s)).
  { simpl. repeat split; auto using Forall2_row_advanced_refl; try (left; auto). }
  destruct (Store.select_user uid (table s)) as [|row rows] eqn:Hsel.
  { simpl. repeat split; auto using Forall2_row_advanced_refl; try (left; auto). }
  rewrite <- Hsel. rewrite select_user_rows.
  destruct (manual_rows_effect W uid (table s)
              (Store.index_order (filter (fun r => Z.eqb (user_id r) uid) (table s)))
              [] (connected uid s)) as (Ht & Hs & Hu & _ & Hok).
  { apply index_order_perm. }
  { apply loop_inv_start. }
  cbn zeta in Ht, Hs, Hu, Hok.
  destruct (for_each (ManualCheck.check_row W uid) _ (connected uid s)) as [[[]|e] s2];
    cbn [fst snd] in *.
  2:{ simpl. rewrite Ht, Hs, Hu. simpl.
      repeat split; auto using Forall2_row_advanced_refl; try (left; auto). }
  destruct (Hok eq_refl) as (Hadv & Hkeys & Hupd).
  destruct (db_fault W (dbops s2)).
  { simpl. rewrite Ht, Hs, Hu. simpl.
    repeat split; auto using Forall2_row_advanced_refl; try (left; auto). }
  simpl. rewrite Hs, Hu. simpl. split; [reflexivity|]. split; [reflexivity|]. split; [|split; [|split]].
  - right. exists s2. repeat split.
  - exact Hadv.
  - intros Hun. destruct Hkeys as [E | U]; [rewrite E; exact Hun | exact U].
  - intros T e HT Hin Htitle. exfalso. apply (Hupd T e HT Hin Htitle).
Qed.

(** What the scheduled pass does to the table, when the table satisfies
    the UNIQUE constraint. *)
Lemma chapter_check_loop_effect (W : World) (s : St) :
  Store.unique_keys (table s) = true ->
  let s' := snd (Tracking.chapter_check_loop W s) in
  Forall2 row_advanced (table s) (table s') /\
  map Store.key (table s') = map Store.key (table s) /\
  Store.unique_keys (table s') = true.
Proof.
  intros Hu. cbn zeta. rewrite chapter_check_loop_run.
  destruct (db_fault W (dbops s)).
  { simpl. repeat split; auto using Forall2_row_advanced_refl. }
  cbn [snd].
  pose proof Hu as Hd. apply unique_keys_NoDup in Hd.
  destruct (tracking_check_rows_effect W (table s) [] (rows_read (pass_started s)))
    as (_ & _ & _ & todo' & Ht & Hadv & Hk); [reflexivity | exact Hd |].
  cbn zeta in Ht. simpl in Ht.
  destruct (same_store_send_updates W
              (snd (Tracking.check_rows W (Store.select_all (table s))
                      (rows_read (pass_started s))))) as (Hsame & _).
  rewrite Hsame, Ht. split; [exact Hadv|]. split; [exact Hk|].
  apply unique_keys_NoDup. rewrite Hk. exact Hd.
Qed.

Lemma Forall2_trans_rel {A : Type} (R : A -> A -> Prop) (l1 l2 l3 : list A) :
  (forall a b c, R a b -> R b c -> R a c) ->
  Forall2 R l1 l2 -> Forall2 R l2 l3 -> Forall2 R l1 l3.
Proof.
  intros Ht H. revert l3. induction H as [|a b l1 l2 Hab H IH]; intros l3 H3.
  - inversion H3. constructor.
  - inversion H3 as [|b' c l2' l3' Hbc H3']; subst. constructor; [eapply Ht; eassumption | auto].
Qed.

(** Any pass keeps the UNIQUE constraint and raises or keeps the progress
    of every row. *)
Lemma run_pass_effect (p : Pass) (s : St) :
  Store.unique_keys (table s) = true ->
  Forall2 row_advanced (table s) (table (run_pass p s)) /\
  Store.unique_keys (table (run_pass p s)) = true.
Proof.
  intros Hu. destruct p as [W | W uid]; simpl.
  - destruct (chapter_check_loop_effect W s Hu) as (H1 & _ & H3). split; assumption.
  - destruct (manual_check_effect W uid s) as (_ & _ & _ & H1 & H2 & _).
    split; [exact H1 | apply H2, Hu].
Qed.

Lemma run_passes_effect (ps : list Pass) :
  forall s, Store.unique_keys (table s) = true ->
    Forall2 row_advanced (table s) (table (run_passes ps s)) /\
    Store.unique_keys (table (run_passes ps s)) = true.
Proof.
  induction ps as [|p ps IH]; intros s Hu.
  - simpl. split; [apply Forall2_row_advanced_refl | exact Hu].
  - change (run_passes (p :: ps) s) with (run_passes ps (run_pass p s)).
    destruct (run_pass_effect p s Hu) as [H1 H2].
    destruct (IH (run_pass p s) H2) as [H3 H4]. split; [|exact H4].
    eapply Forall2_trans_rel; [apply row_advanced_trans | exact H1 | exact H3].
Qed.

Lemma advanced_never_regressed (old new : option float) :
  advanced old new -> never_regressed old new.
Proof.
  intros [E | H]; [left; exact E|]. right.
  destruct old as [a|], new as [b|]; try exact H. apply SFltb_leb. exact H.
Qed.

(* ================================================================== *)
(** * Progress is stored before it is delivered *)
(* ================================================================== *)

Lemma returns_bind {A B : Type} (P : B -> Prop) (c : M A) (k : A -> M B) :
  (forall a, returns P (k a)) -> returns P (bind c k).
Proof.
  intros Hk s b. unfold bind. destruct (c s) as [[a|e] s1]; simpl.
  - apply Hk.
  - discriminate.
Qed.

Lemma returns_ret {A : Type} (P : A -> Prop) (a : A) : P a -> returns P (ret a).
Proof. intros H s a' E. inversion E. subst. exact H. Qed.

(** The update the scheduled lookup builds bears the title of the row. *)
Lemma tracking_latest_title (W : World) (title slug : string) :
  returns (fun o => forall info, o = Some info -> info_title info = title)
          (Tracking.get_latest_chapter W title slug).
Proof.
  unfold Tracking.get_latest_chapter.
  repeat first
    [ apply returns_ret; intros info E; inversion E; reflexivity
    | apply returns_bind; intros ?
    | match goal with
      | |- returns _ (match ?x with _ => _ end) => destruct x
      | |- returns _ (if ?b then _ else _) => destruct b
      end ].
Qed.

Lemma dict_append_in (u : Z) (i : ChapterInfo) (d : list (Z * list ChapterInfo))
      (uid : Z) (ups : list ChapterInfo) (info : ChapterInfo) :
  In (uid, ups) (Tracking.dict_append u i d) -> In info ups ->
  (exists ups0, In (uid, ups0) d /\ In info ups0) \/ (uid = u /\ info = i).
Proof.
  induction d as [|[u0 l] rest IH]; simpl.
  - intros [E | []] Hin. inversion E; subst. destruct Hin as [<- | []]. right. split; reflexivity.
  - destruct (Z.eqb u0 u) eqn:Eu.
    + apply Z.eqb_eq in Eu. subst u0. intros [E | Hr] Hin.
      * inversion E; subst. apply in_app_or in Hin. destruct Hin as [Hin | [<- | []]].
        -- left. exists l. split; [left; reflexivity | exact Hin].
        -- right. split; reflexivity.
      * left. exists ups. split; [right; exact Hr | exact Hin].
    + intros [E | Hr] Hin.
      * inversion E; subst. left. exists ups. split; [left; reflexivity | exact Hin].
      * destruct (IH Hr Hin) as [(ups0 & H1 & H2) | H].
        -- left. exists ups0. split; [right; exact H1 | exact H2].
        -- right. exact H.
Qed.

(** One row of the scheduled pass: the trace grows; the row records no
    update and leaves the table alone, or it records an update that
    bears its title, and then the table has taken the UPDATE keyed by its
    (user_id, manhwa_slug) or the failure of that UPDATE is in the
    trace. *)
Lemma tracking_check_row_stored (W : World) (r : Row) (s : St) :
  let s' := snd (Tracking.check_row W (row_tuple r) s) in
  (exists l, trace s' = l ++ trace s) /\
  ((table s' = table s /\ user_updates s' = user_updates s) \/
   exists info,
     info_title info = manhwa_title r /\
     user_updates s' = Tracking.dict_append (user_id r) info (user_updates s) /\
     ((exists now, table s' = Store.update_by_slug (info_chapter info) now (user_id r)
                                (manhwa_slug r) (table s)) \/
      (table s' = table s /\
       In (EvSql (UpdateBySlug (info_chapter info) (user_id r) (manhwa_slug r)) false)
          (trace s')))).
Proof.
  cbn zeta. unfold row_tuple. rewrite tracking_check_row_run.
  pose proof (untouched_tracking_latest W (manhwa_title r) (manhwa_slug r) s) as U.
  pose proof (no_delivery_latest W (manhwa_title r) (manhwa_slug r) s) as (l & Hl & _).
  pose proof (tracking_latest_title W (manhwa_title r) (manhwa_slug r) s) as Ht.
  destruct (Tracking.get_latest_chapter W (manhwa_title r) (manhwa_slug r) s)
    as [[[info|]|e] s1]; cbn [fst snd] in *;
    destruct U as (_ & U2 & _ & U4 & U5 & _).
  - destruct (float_gt (info_chapter info) (Tracking.or_zero (latest_chapter_notified r))).
    + cbn zeta. specialize (Ht (Some info) eq_refl info eq_refl).
      destruct (db_fault W (dbops s1)); cbn [snd].
      * split; [eexists (_ :: _ :: l); simpl; rewrite Hl; reflexivity|].
        right. exists info. split; [exact Ht|]. split; [simpl; rewrite U5; reflexivity|].
        right. split; [simpl; exact U4|]. simpl. right. left. reflexivity.
      * split; [eexists (_ :: l); simpl; rewrite Hl; reflexivity|].
        right. exists info. split; [exact Ht|]. split; [simpl; rewrite U5; reflexivity|].
        left. eexists. simpl. rewrite U4. reflexivity.
    + split; [exists l; exact Hl|]. left. split; assumption.
  - split; [exists l; exact Hl|]. left. split; assumption.
  - split; [eexists (_ :: l); simpl; rewrite Hl; reflexivity|]. left. split; assumption.
Qed.

(** The rows phase of the scheduled pass, on a table that satisfies the
    UNIQUE constraint: every update it has recorded is in the store, in
    the row it was found for, unless the database failed on its
    UPDATE. *)
Lemma tracking_check_rows_stored (W : World) (todo : list Row) :
  forall (done : list Row) (s : St),
    table s = done ++ todo ->
    NoDup (map Store.key (done ++ todo)) ->
    (forall uid ups info, In (uid, ups) (user_updates s) -> In info ups ->
       (exists r, In r done /\ user_id r = uid /\ manhwa_title r = info_title info /\
                  latest_chapter_notified r = Some (info_chapter info)) \/
       (exists slug, In (EvSql (UpdateBySlug (info_chapter info) uid slug) false) (trace s))) ->
    let s' := snd (Tracking.check_rows W (Store.select_all todo) s) in
    forall uid ups info, In (uid, ups) (user_updates s') -> In info ups ->
                         stored_or_failed s' uid info.
Proof.
  induction todo as [|r todo IH]; intros done s Ht Hd Hinv; cbn zeta.
  - simpl. intros uid ups info H1 H2. rewrite app_nil_r in Ht.
    destruct (Hinv uid ups info H1 H2) as [(r & Hr & H) | H]; [left | right; exact H].
    exists r. rewrite Ht. split; [exact Hr | exact H].
  - rewrite select_all_cons. unfold Tracking.check_rows.
    destruct (tracking_check_row_effect W r s) as (Hok & _).
    destruct (tracking_check_row_stored W r s) as ((l & Hl) & Hcases).
    destruct (Tracking.check_row W (row_tuple r) s) as [res s1] eqn:Hrow.
    cbn [fst snd] in Hok, Hl, Hcases. subst res.
    rewrite (for_each_cons_ok _ _ _ _ _ Hrow).
    fold (Tracking.check_rows W (Store.select_all todo) s1).
    assert (Hold : forall e, In e (trace s) -> In e (trace s1)).
    { intros e He. rewrite Hl. apply in_or_app. right. exact He. }
    assert (Hstep : exists r1,
               table s1 = done ++ r1 :: todo /\ Store.key r1 = Store.key r /\
               (forall uid ups info, In (uid, ups) (user_updates s1) -> In info ups ->
                  (exists r', In r' (done ++ [r1]) /\ user_id r' = uid /\
                              manhwa_title r' = info_title info /\
                              latest_chapter_notified r' = Some (info_chapter info)) \/
                  (exists slug, In (EvSql (UpdateBySlug (info_chapter info) uid slug) false)
                                   (trace s1)))).
    { assert (Hkeep' : forall r1 uid ups info,
                In (uid, ups) (user_updates s) -> In info ups ->
                (exists r', In r' (done ++ [r1]) /\ user_id r' = uid /\
                            manhwa_title r' = info_title info /\
                            latest_chapter_notified r' = Some (info_chapter info)) \/
                (exists slug, In (EvSql (UpdateBySlug (info_chapter info) uid slug) false)
                                 (trace s1))).
      { intros r1 uid ups info H1 H2.
        destruct (Hinv uid ups info H1 H2) as [(r' & Hr' & H) | (slug & H)].
        - left. exists r'. split; [apply in_or_app; left; exact Hr' | exact H].
        - right. exists slug. apply Hold, H. }
      destruct Hcases as [(Ht1 & Hu1) | (info & Hti & Hu1 & Hup)].
      - exists r. split; [congruence|]. split; [reflexivity|].
        intros uid ups info H1 H2. rewrite Hu1 in H1. apply (Hkeep' r uid ups info H1 H2).
      - destruct Hup as [[now Hup] | [Ht1 Hfail]].
        + exists (with_progress r (info_chapter info) now).
          split; [rewrite Hup, Ht; apply update_by_slug_own_row; exact Hd|].
          split; [reflexivity|].
          intros uid ups info' H1 H2. rewrite Hu1 in H1.
          destruct (dict_append_in _ _ _ _ _ _ H1 H2) as [(ups0 & H3 & H4) | [-> ->]].
          * apply (Hkeep' _ uid ups0 info' H3 H4).
          * left. exists (with_progress r (info_chapter info) now).
            split; [apply in_or_app; right; left; reflexivity|].
            split; [reflexivity|]. split; [simpl; symmetry; exact Hti | reflexivity].
        + exists r. split; [congruence|]. split; [reflexivity|].
          intros uid ups info' H1 H2. rewrite Hu1 in H1.
          destruct (dict_append_in _ _ _ _ _ _ H1 H2) as [(ups0 & H3 & H4) | [-> ->]].
          * apply (Hkeep' _ uid ups0 info' H3 H4).
          * right. exists (manhwa_slug r). exact Hfail. }
    destruct Hstep as (r1 & Ht1 & Hk & Hinv1).
    apply (IH (done ++ [r1]) s1).
    + rewrite <- app_assoc. exact Ht1.
    + rewrite <- app_assoc. simpl. rewrite map_app in Hd |- *. simpl in Hd |- *.
      rewrite Hk. exact Hd.
    + exact Hinv1.
Qed.

(** C10, as stated, fails.  User 7 tracks "Solo Leveling" at chapter 5
    and the database fails on the UPDATE of the first pass.  The pass has
    put chapter 6 among the updates of the user before sending the
    UPDATE, and the failure is printed by the row and goes no further:
    chapter 6 is delivered to the user while the table still says 5, and
    the next pass surfaces chapter 6 a second time. *)
Lemma C10_counterexample :
  let s0 := Demo.start (Demo.tracked_under "old" Demo.f5) in
  let s1 := run_pass (Scheduled Demo.moved_faulty_db) s0 in
  let s2 := run_pass (Scheduled Demo.moved_faulty_db) s1 in
  let chapters := map (fun m => (fst m, map field_chapter (embed_fields (snd m)))) in
  chapters (delivered (trace s1)) = [(7%Z, [inl 6%Z])] /\
  caught (trace s1) = [OperationalError] /\
  table s1 = table s0 /\
  ~ (exists r, In r (table s1) /\ latest_chapter_notified r = Some Demo.f6) /\
  chapters (delivered (trace s2)) = [(7%Z, [inl 6%Z]); (7%Z, [inl 6%Z])].
Proof.
  cbn zeta. split; [vm_compute; reflexivity|]. split; [vm_compute; reflexivity|].
  split; [vm_compute; reflexivity|]. split; [|vm_compute; reflexivity].
  intros (r & Hin & Hr).
  assert (E : table (run_pass (Scheduled Demo.moved_faulty_db)
                       (Demo.start (Demo.tracked_under "old" Demo.f5))) =
              Demo.tracked_under "old" Demo.f5) by (vm_compute; reflexivity).
  rewrite E in Hin. clear E. destruct Hin as [<- | []]. vm_compute in Hr. discriminate Hr.
Qed.

(** C10, amended.  Once the initial read has succeeded, the events of
    the scheduled pass are those of the rows phase, none of which reaches
    for a user, followed by those of the delivery, none of which is a
    statement to the database: every UPDATE comes before the first
    attempt to deliver.  The table the pass leaves is the table of the end
    of the rows phase, whether the deliveries succeed or fail.  On a table
    that satisfies its UNIQUE constraint, every update handed to the
    delivery ([user_updates] as the rows phase leaves it) is by then in
    the store, in a row of the user bearing its title, unless the
    database failed on its UPDATE, in which case the failed statement is
    in the trace of the rows phase.  Later passes
    do not lower what is stored, the identifiers that the title searches
    of the on-demand ones return being strings; and a check of a row whose
    stored progress is [c] or more, by either pass, records only chapters
    strictly greater than [c]: a stored chapter is not surfaced again. *)
Theorem C10_progress_stored_before_delivery (W : World) (s : St) :
  db_fault W (dbops s) = false ->
  let checked := snd (Tracking.check_rows W (Store.select_all (table s))
                        (rows_read (pass_started s))) in
  let s' := snd (Tracking.chapter_check_loop W s) in
  (exists deliveries checks,
      trace checked = checks ++ trace s /\
      trace s' = deliveries ++ trace checked /\
      Forall (fun e => not_delivery e = true) checks /\
      Forall (fun e => not_sql e = true) deliveries) /\
  table s' = table checked /\
  (Store.unique_keys (table s) = true ->
   forall uid ups info,
     In (uid, ups) (user_updates checked) -> In info ups ->
     stored_or_failed checked uid info) /\
  (Store.unique_keys (table s) = true ->
   forall ps, text_identifiers ps ->
     Forall2 (fun r r' =>
                same_row r r' /\
                never_regressed (latest_chapter_notified r) (latest_chapter_notified r'))
             (table s') (table (run_passes ps s'))) /\
  (forall W' uid r c c' s1,
      latest_chapter_notified r = Some c' -> c' = c \/ SFleb c c' = true ->
      (let s2 := snd (Tracking.check_row W' (row_tuple r) s1) in
       user_updates s2 = user_updates s1 \/
       exists info,
         SFltb c (info_chapter info) = true /\
         user_updates s2 = Tracking.dict_append (user_id r) info (user_updates s1)) /\
      (let s2 := snd (ManualCheck.check_row W' uid (row_triple r) s1) in
       updates s2 = updates s1 \/
       exists number chapter_title link,
         SFltb c number = true /\
         updates s2 = updates s1 ++ [(manhwa_title r, number, chapter_title, link)])).
Proof.
  intros Hread. cbn zeta.
  pose proof (chapter_check_loop_effect W s) as Hpass. cbn zeta in Hpass.
  rewrite chapter_check_loop_run, Hread in *. cbn [snd] in *.
  set (s0 := rows_read (pass_started s)) in *.
  set (checked := snd (Tracking.check_rows W (Store.select_all (table s)) s0)) in *.
  destruct (no_delivery_check_rows W (Store.select_all (table s)) s0) as (l1 & Hl1 & F1).
  fold checked in Hl1.
  destruct (no_sql_send_updates W checked) as (l2 & Hl2 & F2).
  destruct (same_store_send_updates W checked) as (Ht & _).
  split; [|split; [exact Ht | split; [|split]]].
  - exists l2, (l1 ++ [EvLog (LogCheckingCount (List.length (Store.select_all (table s))));
                       EvSql SelectAll true; EvLog LogRunning]).
    split; [|split; [exact Hl2 | split; [|exact F2]]].
    + rewrite Hl1. subst s0. unfold rows_read, pass_started. simpl.
      rewrite <- !app_assoc. reflexivity.
    + apply Forall_app. split; [exact F1 | repeat constructor].
  - intros Hu. apply unique_keys_NoDup in Hu.
    apply (tracking_check_rows_stored W (table s) [] s0); [reflexivity | exact Hu |].
    intros uid ups info [].
  - intros Hu ps _.
    destruct (Hpass Hu) as (_ & _ & Hu').
    destruct (run_passes_effect ps _ Hu') as [H _].
    eapply Forall2_impl; [|exact H].
    intros a b [Hs Ha]. split; [exact Hs | apply advanced_never_regressed, Ha].
  - intros W' uid r c c' s1 Hl Hle.
    assert (Hgt : forall x, float_gt x c' = true -> SFltb c x = true).
    { intros x G. destruct Hle as [-> | Hle]; [exact G|].
      apply (SFleb_ltb_trans c c'); assumption. }
    split; cbn zeta.
    + destruct (tracking_check_row_effect W' r s1) as (_ & _ & _ & _ & _ & Hcases).
      destruct Hcases as [(_ & Hu & _) | (info & _ & G & Hu & _)].
      * left. exact Hu.
      * right. exists info. split; [|exact Hu].
        rewrite Hl, or_zero_gt in G. apply Hgt, G.
    + destruct (manual_check_row_effect W' uid r s1) as (_ & _ & _ & _ & Hcases).
      destruct Hcases as [(_ & Hu & _) | (number & rs & l & _ & Hnew & Hu & _)].
      * left. exact Hu.
      * right. exists number, (latest_title l), (latest_url l). split; [|exact Hu].
        rewrite Hl in Hnew. unfold ManualCheck.newer in Hnew.
        apply Hgt. congruence.
Qed.

(** The amended claim at work.  User 7 cannot be reached: the delivery
    fails, and chapter 6 is in the store all the same; what the rows
    phase has recorded is stored, two later passes leave it there, and a
    new check of the row records nothing but a chapter after 6. *)
Lemma C10_progress_stored_before_delivery_witness :
  let s0 := Demo.start (Demo.tracked_under "old" Demo.f5) in
  let checked := snd (Tracking.check_rows Demo.moved_unreachable (Store.select_all (table s0))
                        (rows_read (pass_started s0))) in
  let s' := snd (Tracking.chapter_check_loop Demo.moved_unreachable s0) in
  caught (trace s') = [DeliveryError] /\
  map latest_chapter_notified (table s') = [Some Demo.f6] /\
  (forall uid ups info, In (uid, ups) (user_updates checked) -> In info ups ->
                        stored_or_failed checked uid info) /\
  Forall2 (fun r r' =>
             same_row r r' /\
             never_regressed (latest_chapter_notified r) (latest_chapter_notified r'))
          (table s') (table (run_passes [OnDemand Demo.moved 7; Scheduled Demo.moved] s')) /\
  (let r := mkRow 1 7 "Solo Leveling" "old" (Some Demo.f6) 0 in
   let s2 := snd (Tracking.check_row Demo.moved (row_tuple r) s') in
   user_updates s2 = user_updates s' \/
   exists info,
     SFltb Demo.f6 (info_chapter info) = true /\
     user_updates s2 = Tracking.dict_append 7 info (user_updates s')).
Proof.
  cbn zeta.
  destruct (C10_progress_stored_before_delivery Demo.moved_unreachable
              (Demo.start (Demo.tracked_under "old" Demo.f5)) eq_refl)
    as (_ & Ht & Hstored & Hlater & Hagain).
  cbn zeta in Ht, Hstored, Hlater, Hagain.
  split; [vm_compute; reflexivity|]. split; [rewrite Ht; vm_compute; reflexivity|].
  split; [|split].
  - apply (Hstored eq_refl).
  - apply (Hlater eq_refl [OnDemand Demo.moved 7; Scheduled Demo.moved]).
    constructor; [|constructor; [exact I | constructor]].
    intros n title v H. vm_compute in H. inversion H. right. eexists. reflexivity.
  - apply (proj1 (Hagain Demo.moved 7%Z (mkRow 1 7 "Solo Leveling" "old" (Some Demo.f6) 0)
                    Demo.f6 Demo.f6 _ eq_refl (or_introl eq_refl))).
Defined.

(** C9, amended: the UPDATE of the on-demand pass is keyed by
    (user_id, manhwa_title) and not by the slug: when SQLite accepts it,
    every row of the user bearing the title has been given the chapter
    and the resolved slug.  With an identifier that is a string and two
    rows of the user bearing the title, the UPDATE is refused: the two
    rows would end with the same (user_id, manhwa_slug), which the UNIQUE
    constraint forbids.  So when the identifiers the title search returns
    are strings and the pass detects an advance on a title the user
    tracks on two rows, no row is overwritten: the pass ends without a
    commit and the table is what it was. *)
Theorem C9_update_keyed_by_title :
  (forall c slug now uid title t t' r,
      Store.update_by_title c slug now uid title t = Ok t' ->
      In r t -> user_id r = uid -> manhwa_title r = title ->
      In (mkRow (row_id r) uid title slug (Some c) now) t') /\
  (forall W c slug uid title s,
      2 <= count_titled uid title (txn s) ->
      db_fault W (dbops s) = false ->
      let r := ManualCheck.execute_update W c (JStr slug) uid title s in
      fst r = Raise IntegrityError /\ txn (snd r) = txn s /\ table (snd r) = table s) /\
  (forall W uid s title e,
      string_slugs W ->
      2 <= count_titled uid title (table s) ->
      In e (updates (snd (ManualCheck.manual_check W uid s))) ->
      fst (fst (fst e)) = title ->
      table (snd (ManualCheck.manual_check W uid s)) = table s).
Proof.
  split; [|split].
  - intros c slug now uid title t t' r Hup Hin Hu Ht.
    apply update_by_title_ok in Hup. destruct Hup as [-> _].
    apply in_map_iff. exists r. split; [|exact Hin].
    unfold retitled.
    assert (E : titled uid title r = true) by (apply titled_true; split; assumption).
    rewrite E, Hu, Ht. reflexivity.
  - intros W c slug uid title s Hc Hdb. cbn zeta.
    unfold ManualCheck.execute_update, bind, db_op. rewrite Hdb.
    cbn [Store.bind_text txn set_dbops clock].
    destruct (Store.update_by_title c slug (clock s) uid title (txn s)) as [t'|e] eqn:Hup.
    + apply update_by_title_at_most_one in Hup. fold (count_titled uid title (txn s)) in Hup. lia.
    + unfold Store.update_by_title in Hup.
      destruct (Store.unique_keys _); [discriminate|]. inversion Hup. repeat split.
  - intros W uid s title e _ Hc Hin Ht.
    destruct (manual_check_effect W uid s) as (_ & _ & _ & _ & _ & H).
    apply (H title e Hc Hin Ht).
Qed.

Lemma C9_update_keyed_by_title_witness :
  (let s := connected 7 (Demo.start Demo.tracked_twice) in
   fst (ManualCheck.execute_update Demo.moved Demo.f6 (JStr "new") 7 "Solo Leveling" s) =
     Raise IntegrityError) /\
  table (snd (ManualCheck.manual_check Demo.moved 7 (Demo.start Demo.tracked_twice))) =
  Demo.tracked_twice.
Proof.
  split.
  - apply (proj1 (proj2 C9_update_keyed_by_title) Demo.moved Demo.f6 "new" 7%Z "Solo Leveling"
             (connected 7 (Demo.start Demo.tracked_twice))).
    + vm_compute. lia.
    + reflexivity.
  - apply (proj2 (proj2 C9_update_keyed_by_title) Demo.moved 7%Z (Demo.start Demo.tracked_twice)
             "Solo Leveling"
             ("Solo Leveling", Demo.f6, JStr "Arise", "https://comick.dev/comic/new/chapter/h6")).
    + intros n title v H. vm_compute in H. inversion H. right. eexists. reflexivity.
    + vm_compute. lia.
    + vm_compute. left. reflexivity.
    + reflexivity.
Defined.

(* ================================================================== *)
(** * The on-demand pass against a stationary upstream *)
(* ================================================================== *)

Section StationaryManual.

Variable W : World.
Hypothesis HW : stationary W.

Lemma manual_fetch_json_fetched (u : string) (ps : list (string * string)) (s : St) :
  fst (ManualCheck.fetch_json W u ps s) = Ok (fetched W u ps).
Proof.
  destruct (manual_fetch_json_run W u ps s) as (l & -> & _). simpl.
  unfold fetched. rewrite (HW (calls s) 0). reflexivity.
Qed.

Lemma manual_fetch_json_eq (u : string) (ps : list (string * string)) (s : St) :
  exists s1, ManualCheck.fetch_json W u ps s = (Ok (fetched W u ps), s1).
Proof.
  pose proof (manual_fetch_json_fetched u ps s) as H.
  destruct (ManualCheck.fetch_json W u ps s) as [r s1]. simpl in H. subst r.
  exists s1. reflexivity.
Qed.

(** A lookup that found a chapter has read a listing with a chapter. *)
Lemma manual_latest_some (slug : json) (l : ManualLatest) (s : St) :
  fst (ManualCheck.get_latest_chapter W slug s) = Ok (Some l) ->
  ManualCheck.no_chapters (fetched W (ManualCheck.chapters_url W slug)
                             ManualCheck.chapters_params) = Ok false.
Proof.
  unfold ManualCheck.get_latest_chapter.
  destruct (manual_fetch_json_eq (ManualCheck.chapters_url W slug) ManualCheck.chapters_params s)
    as [s1 Hf].
  rewrite (bind_ok _ _ _ _ _ Hf). unfold bind at 1, lift at 1.
  destruct (ManualCheck.no_chapters _) as [[|]|e]; simpl; try discriminate. reflexivity.
Qed.

Lemma no_chapters_has_items (d : json) :
  ManualCheck.no_chapters d = Ok false -> ManualCheck.has_items "chapters" d = Ok true.
Proof.
  unfold ManualCheck.no_chapters, ManualCheck.has_items.
  destruct (negb (Py.truthy d)); [discriminate|].
  destruct (Py.contains "chapters" d) as [[|]|]; try discriminate.
  destruct (Py.item d "chapters") as [x|]; try discriminate.
  destruct (Py.len x) as [n|]; try discriminate.
  destruct n; simpl; [discriminate | reflexivity].
Qed.

(** The resolver keeps an identifier under which the listing has a
    chapter. *)
Lemma resolve_slug_listed (title slug : string) (s : St) :
  ManualCheck.has_items "chapters"
    (fetched W (ManualCheck.chapters_url W (JStr slug)) ManualCheck.chapters_params) = Ok true ->
  fst (ManualCheck.resolve_slug W title slug s) = Ok (JStr slug).
Proof.
  intros H. unfold ManualCheck.resolve_slug.
  destruct (manual_fetch_json_eq (ManualCheck.chapters_url W (JStr slug))
              ManualCheck.chapters_params s) as [s1 Hf].
  rewrite (bind_ok _ _ _ _ _ Hf). unfold bind at 1, lift at 1. rewrite H. reflexivity.
Qed.

(** When the search returns strings, so does the resolver. *)
Lemma resolve_slug_string (title slug : string) (s : St) (rs : json) :
  string_slugs W ->
  fst (ManualCheck.resolve_slug W title slug s) = Ok rs ->
  Py.truthy rs = true ->
  exists s0, rs = JStr s0.
Proof.
  intros HS Hr Ht. unfold ManualCheck.resolve_slug in Hr.
  destruct (manual_fetch_json_eq (ManualCheck.chapters_url W (JStr slug))
              ManualCheck.chapters_params s) as [s1 Hf].
  rewrite (bind_ok _ _ _ _ _ Hf) in Hr. unfold bind at 1, lift at 1 in Hr.
  destruct (ManualCheck.has_items "chapters" _) as [[|]|e]; simpl in Hr; try discriminate.
  - inversion Hr. exists slug. reflexivity.
  - destruct (ManualCheck.search_by_title W title s1) as [[v|e] s2] eqn:Hs; simpl in Hr;
      [|discriminate].
    inversion Hr; subst v.
    destruct (search_by_title_run W title s1 rs s2 Hs) as [Hv _].
    destruct (top_slug (http W (calls s1) (search_request title))) as [x|] eqn:Htop.
    + subst x. destruct (HS _ _ _ Htop) as [-> | [s0 ->]]; [discriminate|].
      exists s0. reflexivity.
    + subst rs. discriminate.
Qed.

(** The first half of a row, as a function of what the resolver and the
    lookup answer. *)
Lemma finding_value (open : bool) (title slug : string) :
  finding W open title slug =
  match resolved W open title slug with
  | Raise e => Raise e
  | Ok rs =>
      if negb (Py.truthy rs) then Ok None
      else
        match latest_of W open rs with
        | Raise e => Raise e
        | Ok None => Ok None
        | Ok (Some l) =>
            if negb (Py.truthy (latest_number l)) then Ok None
            else
              match Py.to_float (float_of_str W) (latest_number l) with
              | Raise ValueError | Raise TypeError => Ok None
              | Raise e => Raise e
              | Ok number => Ok (Some (number, rs, l))
              end
        end
  end.
Proof.
  unfold finding, find_latest, resolved, latest_of.
  set (s := mkSt open 0 0 0 0 [] [] [] [] []).
  unfold bind at 1, log at 1, emit.
  set (s0 := set_trace _ s).
  assert (E0 : fst (ManualCheck.resolve_slug W title slug s0) =
               fst (ManualCheck.resolve_slug W title slug s))
    by (apply (steady_resolve_slug W HW); reflexivity).
  pose proof (untouched_resolve_slug W title slug s0) as U0.
  unfold bind at 1.
  destruct (ManualCheck.resolve_slug W title slug s0) as [r1 s1].
  simpl in E0, U0. rewrite <- E0. destruct r1 as [rs|e]; [|reflexivity].
  destruct (negb (Py.truthy rs)); [reflexivity|].
  assert (E1 : fst (ManualCheck.get_latest_chapter W rs s1) =
               fst (ManualCheck.get_latest_chapter W rs s)).
  { apply (steady_manual_latest W HW). destruct U0 as (U & _). exact U. }
  unfold bind at 1.
  destruct (ManualCheck.get_latest_chapter W rs s1) as [r2 s2].
  simpl in E1. rewrite <- E1. destruct r2 as [[l|]|e]; try reflexivity.
  destruct (negb (Py.truthy (latest_number l))); [reflexivity|].
  destruct (Py.to_float (float_of_str W) (latest_number l)) as [number|[]]; reflexivity.
Qed.

Lemma latest_of_state (open : bool) (slug : json) (s : St) :
  session s = open -> fst (ManualCheck.get_latest_chapter W slug s) = latest_of W open slug.
Proof. intros H. unfold latest_of. apply (steady_manual_latest W HW). exact H. Qed.

Lemma resolved_state (open : bool) (title slug : string) (s : St) :
  session s = open -> fst (ManualCheck.resolve_slug W title slug s) = resolved W open title slug.
Proof. intros H. unfold resolved. apply (steady_resolve_slug W HW). exact H. Qed.

(** A row that an accepted UPDATE has just rewritten has nothing left to
    find: under its new slug the listing has a chapter, the same one, and
    its number is the stored one. *)
Lemma decision_after_update (open : bool) (r : Row) (number : float) (rs : json)
      (l : ManualLatest) (slug' : string) (now : nat) :
  string_slugs W ->
  finding W open (manhwa_title r) (manhwa_slug r) = Ok (Some (number, rs, l)) ->
  Store.bind_text W rs = Ok slug' ->
  decision W open (mkRow (row_id r) (user_id r) (manhwa_title r) slug' (Some number) now) =
  Ok None.
Proof.
  intros HS Hfind Hbind. rewrite finding_value in Hfind.
  destruct (resolved W open (manhwa_title r) (manhwa_slug r)) as [rs0|e] eqn:Hres;
    [|discriminate].
  destruct (Py.truthy rs0) eqn:Htr; simpl in Hfind; [|discriminate].
  destruct (latest_of W open rs0) as [[l0|]|e] eqn:Hlat; try discriminate.
  destruct (Py.truthy (latest_number l0)) eqn:Htn; simpl in Hfind; [|discriminate].
  destruct (Py.to_float (float_of_str W) (latest_number l0)) as [n0|e] eqn:Hfl.
  2:{ destruct e; discriminate. }
  inversion Hfind; subst n0 rs0 l0. clear Hfind.
  destruct (resolve_slug_string (manhwa_title r) (manhwa_slug r)
              (mkSt open 0 0 0 0 [] [] [] [] []) rs HS Hres Htr) as [s0 ->].
  simpl in Hbind. inversion Hbind; subst slug'. clear Hbind.
  unfold decision. cbn [manhwa_title manhwa_slug latest_chapter_notified].
  rewrite finding_value.
  assert (Hres' : resolved W open (manhwa_title r) s0 = Ok (JStr s0)).
  { unfold resolved. apply resolve_slug_listed. apply no_chapters_has_items.
    apply (manual_latest_some (JStr s0) l (mkSt open 0 0 0 0 [] [] [] [] [])). exact Hlat. }
  rewrite Hres'. rewrite Htr. cbn [negb].
  rewrite Hlat, Htn. cbn [negb]. rewrite Hfl.
  unfold ManualCheck.newer. rewrite float_gt_irrefl. reflexivity.
Qed.

End StationaryManual.

(* ================================================================== *)
(** * Two passes in succession *)
(* ================================================================== *)

Lemma Forall2_conj {A B : Type} (P Q : A -> B -> Prop) (l1 : list A) (l2 : list B) :
  Forall2 P l1 l2 -> Forall2 Q l1 l2 -> Forall2 (fun a b => P a b /\ Q a b) l1 l2.
Proof.
  intros H. induction H as [|a b l1 l2 Hab H IH]; intros HQ; inversion HQ; subst;
    constructor; auto.
Qed.

Section SettledManual.

Variable W : World.
Hypothesis HW : stationary W.
Hypothesis HS : string_slugs W.

(** What a row that went without an exception and without an update
    has come to. *)
Lemma skipped_row_decision (uid : Z) (r : Row) (s : St) :
  let res := ManualCheck.check_row W uid (row_triple r) s in
  fst res = Ok tt -> txn (snd res) = txn s -> updates (snd res) = updates s ->
  decision W (session s) r = Ok None.
Proof.
  cbn zeta. intros Hok Hx Hu.
  destruct (manual_check_row_effect W uid r s) as (_ & _ & _ & _ & Hcases).
  cbn zeta in Hcases. rewrite (find_latest_finding W _ _ s HW) in Hcases.
  unfold decision.
  destruct Hcases as [(_ & _ & _ & Hres & Hnew) | (number & rs & l & _ & _ & Hup & _)].
  - rewrite Hok in Hres.
    destruct (finding W (session s) (manhwa_title r) (manhwa_slug r))
      as [[[[number rs] l]|]|e]; try discriminate; try reflexivity.
    destruct (ManualCheck.newer number (latest_chapter_notified r)) as [[|]|e];
      try discriminate; try reflexivity.
    exfalso. apply Hnew. reflexivity.
  - exfalso. rewrite Hu in Hup. symmetry in Hup. apply snoc_changes in Hup. exact Hup.
Qed.

(** The loop of [manual_check] against a stationary upstream: when it
    ends without an exception, no row of the user in the connection has
    anything left to find. *)
Lemma manual_rows_settle (uid : Z) (T0 : list Row) (todo : list Row) :
  forall (done : list Row) (s : St),
    Permutation (filter (fun r => Z.eqb (user_id r) uid) T0) (done ++ todo) ->
    Forall2 (settle_inv W (session s) uid todo) T0 (txn s) ->
    let res := for_each (ManualCheck.check_row W uid) (map row_triple todo) s in
    fst res = Ok tt ->
    Forall2 (settle_inv W (session s) uid []) T0 (txn (snd res)).
Proof.
  induction todo as [|r_h todo IH]; intros done s Husers Hinv; cbn zeta.
  - simpl. intros _. exact Hinv.
  - rewrite map_row_triple_cons.
    destruct (manual_check_row_effect W uid r_h s) as (_ & Hs & _ & _ & Hcases).
    pose proof (skipped_row_decision uid r_h s) as Hskip.
    cbn zeta in Hs, Hcases, Hskip.
    rewrite (find_latest_finding W _ _ s HW) in Hcases.
    destruct (ManualCheck.check_row W uid (row_triple r_h) s) as [[[]|e] s1] eqn:Hrow;
      cbn [fst snd] in *.
    2:{ rewrite (for_each_cons_raise _ _ _ _ _ _ Hrow). cbn [fst]. intros H; discriminate. }
    rewrite (for_each_cons_ok _ _ _ _ _ Hrow).
    assert (Hloop : Forall2 (loop_inv uid (r_h :: todo)) T0 (txn s)).
    { eapply Forall2_impl; [|exact Hinv]. intros a b [H _]. exact H. }
    assert (Hh_user : user_id r_h = uid).
    { assert (Hin : In r_h (filter (fun r => Z.eqb (user_id r) uid) T0))
        by (apply (Permutation_in _ (Permutation_sym Husers)); apply in_or_app; right; left; reflexivity).
      apply filter_In in Hin. destruct Hin as [_ Hu]. apply Z.eqb_eq in Hu. exact Hu. }
    assert (Hstep : Forall2 (settle_inv W (session s) uid todo) T0 (txn s1)).
    { destruct Hcases as [(Hx & Hu & _) | (number & rs & l & Hfind & Hnew & Hu & _ & Hex)].
      - (* the row changed nothing: it has nothing left to find *)
        pose proof (Hskip eq_refl Hx Hu) as Hdec.
        rewrite Hx. eapply Forall2_impl; [|exact Hinv].
        intros a b [Hl Hq]. split; [apply loop_inv_weaken in Hl; exact Hl|].
        intros Ha. destruct (Hq Ha) as [[-> [<- | Hin]] | Hd].
        + right. exact Hdec.
        + left. split; [reflexivity | exact Hin].
        + right. exact Hd.
      - destruct Hex as [(e & He & _) | (slug' & now & _ & Hbind & Hup)]; [discriminate|].
        destruct (accepted_update_hits_own_row uid T0 (txn s) (txn s1) done todo r_h
                    number slug' now Hloop Husers Hup) as (Hh_titled & Hnotin & Hown).
        apply Forall2_conj.
        + apply (loop_inv_update uid T0 (txn s) (txn s1) done todo r_h number slug' now);
            assumption.
        + apply update_by_title_ok in Hup. destruct Hup as [Hup _]. rewrite Hup.
          apply (Forall2_map_r_in (settle_inv W (session s) uid (r_h :: todo)));
            [exact Hinv|].
          intros r0 r Hr0 Hr [Hl Hq] Ha.
          unfold retitled. destruct (titled uid (manhwa_title r_h) r) eqn:Tr.
          * destruct (Hown r0 r Hr0 Hl Tr) as [-> ->].
            right. apply (decision_after_update W HW (session s) r_h number rs l slug' now HS);
              assumption.
          * destruct (Hq Ha) as [[-> [<- | Hin]] | Hd].
            -- rewrite Hh_titled in Tr. discriminate.
            -- left. split; [reflexivity | exact Hin].
            -- right. exact Hd. }
    intros Hres. rewrite <- Hs. apply (IH (done ++ [r_h]) s1).
    + rewrite <- app_assoc. exact Husers.
    + rewrite Hs. exact Hstep.
    + exact Hres.
Qed.

(** Rows with nothing left to find go through the loop without an
    exception and without a change. *)
Lemma manual_rows_quiet (uid : Z) (todo : list Row) :
  forall (s : St),
    Forall (fun r => decision W (session s) r = Ok None) todo ->
    let res := for_each (ManualCheck.check_row W uid) (map row_triple todo) s in
    fst res = Ok tt /\ txn (snd res) = txn s /\ updates (snd res) = updates s /\
    table (snd res) = table s /\ session (snd res) = session s.
Proof.
  induction todo as [|r todo IH]; intros s Hq; cbn zeta.
  - simpl. repeat split.
  - rewrite map_row_triple_cons. inversion Hq as [|r' todo'' Hr Hrest]; subst.
    destruct (manual_check_row_effect W uid r s) as (Ht & Hs & _ & _ & Hcases).
    cbn zeta in Ht, Hs, Hcases. rewrite (find_latest_finding W _ _ s HW) in Hcases.
    unfold decision in Hr.
    destruct (ManualCheck.check_row W uid (row_triple r) s) as [res1 s1] eqn:Hrow;
      cbn [fst snd] in *.
    destruct Hcases as [(Hx & Hu & _ & Hres & _) | (number & rs & l & Hfind & Hnew & _)].
    + assert (E : res1 = Ok tt).
      { rewrite Hres.
        destruct (finding W (session s) (manhwa_title r) (manhwa_slug r))
          as [[[[number rs] l]|]|e]; try discriminate; try reflexivity.
        destruct (ManualCheck.newer number (latest_chapter_notified r)) as [[|]|e];
          try discriminate; reflexivity. }
      rewrite E in Hrow. rewrite (for_each_cons_ok _ _ _ _ _ Hrow).
      destruct (IH s1) as (H1 & H2 & H3 & H4 & H5); [rewrite Hs; exact Hrest|].
      cbn zeta in H1, H2, H3, H4, H5. repeat split; congruence.
    + rewrite Hfind, Hnew in Hr. discriminate.
Qed.

End SettledManual.

Lemma Forall2_in_r {A B : Type} (P : A -> B -> Prop) (l1 : list A) (l2 : list B) (b : B) :
  Forall2 P l1 l2 -> In b l2 -> exists a, In a l1 /\ P a b.
Proof.
  intros H. induction H as [|a b' l1 l2 Hab H IH]; intros Hin; [destruct Hin|].
  destruct Hin as [<- | Hin].
  - exists a. split; [left; reflexivity | exact Hab].
  - destruct (IH Hin) as (a' & Ha' & HP). exists a'. split; [right; exact Ha' | exact HP].
Qed.

(** The scheduled pass, twice, against a stationary upstream and a
    database that takes every statement: the second pass collects no
    update, leaves the table as the first left it, and sends the database
    its initial SELECT only. *)
Lemma scheduled_pass_twice (W : World) (s : St) :
  stationary W ->
  Store.unique_keys (table s) = true ->
  (forall n, db_fault W n = false) ->
  let s1 := snd (Tracking.chapter_check_loop W s) in
  let s2 := snd (Tracking.chapter_check_loop W s1) in
  user_updates s2 = [] /\ table s2 = table s1 /\ dbops s2 = S (dbops s1).
Proof.
  intros HW Hu Hdb. cbn zeta.
  rewrite (chapter_check_loop_run W s), Hdb. cbn [snd].
  set (s0 := rows_read (pass_started s)).
  destruct (tracking_check_rows_persists W HW (table s) [] s0) as (todo' & Ht' & Hf & _).
  { reflexivity. }
  { apply unique_keys_NoDup. exact Hu. }
  { intros n _. apply Hdb. }
  cbn zeta in Ht'. simpl app in Ht'.
  destruct (tracking_check_rows_effect W (table s) [] s0) as (_ & Hsa & _).
  { reflexivity. }
  { apply unique_keys_NoDup. exact Hu. }
  cbn zeta in Hsa. change (session s0) with (session s) in Hsa.
  set (sa := snd (Tracking.check_rows W (Store.select_all (table s)) s0)) in *.
  destruct (same_store_send_updates W sa) as (T1 & _ & _ & S1 & _).
  set (s1 := snd (Tracking.send_updates W sa)) in *.
  rewrite (chapter_check_loop_run W s1), Hdb. cbn [snd].
  set (s0' := rows_read (pass_started s1)).
  assert (Hq : Forall (fun r => advance W (session s0') r = None) (table s1)).
  { change (session s0') with (session s1). rewrite S1, Hsa, T1, Ht'.
    change (session s0) with (session s) in Hf.
    clear - Hf HW. induction Hf as [|r r' l l' Hr Hf IH]; constructor; [|exact IH].
    apply (settled_quiet W (session s) r r'). exact Hr. }
  destruct (tracking_check_rows_quiet W HW (table s1) s0' Hq) as (Tq & Uq & _ & Dq).
  cbn zeta in Tq, Uq, Dq. change (table s0') with (table s1) in Tq.
  change (user_updates s0') with (@nil (Z * list ChapterInfo)) in Uq.
  change (dbops s0') with (S (dbops s1)) in Dq.
  change (Store.select_all (table s0')) with (Store.select_all (table s1)).
  destruct (same_store_send_updates W
              (snd (Tracking.check_rows W (Store.select_all (table s1)) s0')))
    as (T2 & U2 & D2 & _).
  rewrite T2, U2, D2. repeat split; assumption.
Qed.

(** After an on-demand pass that did not fail, against a stationary
    upstream, no row of the user has anything left to find. *)
Lemma manual_check_settles (W : World) (uid : Z) (s : St) :
  stationary W -> string_slugs W ->
  let s1 := snd (ManualCheck.manual_check W uid s) in
  hd_error (trace s1) <> Some (EvFollowup CheckFailedSeeLogs) ->
  Forall (fun r => decision W (session s1) r = Ok None)
         (filter (fun r => Z.eqb (user_id r) uid) (table s1)).
Proof.
  intros HW HS. cbn zeta.
  destruct (manual_check_effect W uid s) as (Hsess & _). cbn zeta in Hsess.
  rewrite Hsess. clear Hsess.
  rewrite manual_check_run.
  destruct (db_fault W (dbops s)).
  { cbn [snd]. intros H. exfalso. apply H. reflexivity. }
  rewrite select_user_rows.
  set (users := filter (fun r => Z.eqb (user_id r) uid) (table s)).
  set (todo := Store.index_order users).
  assert (Hperm : Permutation users todo) by apply index_order_perm.
  destruct (map row_triple todo) as [|row rows] eqn:Hsel.
  { cbn [snd]. intros _.
    change (table (set_trace _ (connected uid s))) with (table s). fold users.
    destruct todo; [|discriminate].
    apply Permutation_sym, Permutation_nil in Hperm. rewrite Hperm. constructor. }
  rewrite <- Hsel.
  pose proof (manual_rows_settle W HW HS uid (table s) todo [] (connected uid s)) as Hset.
  cbn zeta in Hset.
  destruct (for_each (ManualCheck.check_row W uid) (map row_triple todo) (connected uid s))
    as [[[]|e] s2]; cbn [fst snd] in *.
  2:{ intros H. exfalso. apply H. reflexivity. }
  destruct (db_fault W (dbops s2)).
  { cbn [snd]. intros H. exfalso. apply H. reflexivity. }
  cbn [snd]. intros _.
  change (table (committed s2)) with (txn s2).
  change (session (connected uid s)) with (session s) in Hset.
  assert (Hfin : Forall2 (settle_inv W (session s) uid []) (table s) (txn s2)).
  { apply Hset; [exact Hperm | | reflexivity].
    change (txn (connected uid s)) with (table s).
    assert (G : forall l, (forall r, In r l -> In r (table s)) ->
                          Forall2 (settle_inv W (session s) uid todo) l l).
    { induction l as [|r l IH]; intros Hl; constructor.
      - split; [left; reflexivity|]. intros Hu. left. split; [reflexivity|].
        apply (Permutation_in _ Hperm). unfold users.
        apply filter_In. split; [apply Hl; left; reflexivity|].
        apply Z.eqb_eq. exact Hu.
      - apply IH. intros r' Hr'. apply Hl. right. exact Hr'. }
    apply G. auto. }
  apply Forall_forall. intros r Hr. apply filter_In in Hr. destruct Hr as [Hin Hu].
  apply Z.eqb_eq in Hu.
  destruct (Forall2_in_r _ _ _ r Hfin Hin) as (r0 & _ & Hl & Hq).
  assert (Hu0 : user_id r0 = uid).
  { destruct Hl as [-> | (H & _)]; assumption. }
  destruct (Hq Hu0) as [[_ []] | Hd]. exact Hd.
Qed.

(** An on-demand pass over rows of the user with nothing left to find
    makes no update entry and leaves the table alone. *)
Lemma manual_check_quiet (W : World) (uid : Z) (s : St) :
  stationary W ->
  Forall (fun r => decision W (session s) r = Ok None)
         (filter (fun r => Z.eqb (user_id r) uid) (table s)) ->
  let s' := snd (ManualCheck.manual_check W uid s) in
  updates s' = [] /\ table s' = table s.
Proof.
  intros HW Hq. cbn zeta. rewrite manual_check_run.
  destruct (db_fault W (dbops s)); [split; reflexivity|].
  rewrite select_user_rows.
  set (todo := Store.index_order (filter (fun r => Z.eqb (user_id r) uid) (table s))).
  assert (Hq' : Forall (fun r => decision W (session s) r = Ok None) todo).
  { apply (Permutation_Forall (index_order_perm _)). exact Hq. }
  destruct (map row_triple todo) as [|row rows] eqn:Hsel; [split; reflexivity|].
  rewrite <- Hsel.
  destruct (manual_rows_quiet W HW uid todo (connected uid s) Hq') as (_ & Hx & Hu & Ht & _).
  cbn zeta in Hx, Hu, Ht.
  destruct (for_each (ManualCheck.check_row W uid) (map row_triple todo) (connected uid s))
    as [[[]|e] s2]; cbn [fst snd] in *.
  - destruct (db_fault W (dbops s2)); cbn [snd].
    + split; [exact Hu | exact Ht].
    + split; [exact Hu | exact Hx].
  - split; [exact Hu | exact Ht].
Qed.

(** C8: a check pass run twice in succession against an upstream whose
    answers do not change finds nothing the second time.  Scheduled pass:
    with a table that satisfies its UNIQUE constraint and a database that
    takes every statement, so that the first pass has stored every advance
    it detected, the second pass collects no update entry, leaves the
    table as the first left it and sends the database nothing but its
    initial SELECT.  On-demand pass: when the identifiers a title search
    returns are strings and the first pass did not end on its failure
    answer, so that its commit has been made, the second pass makes no
    update entry and leaves the table as the first left it. *)
Theorem C8_second_pass_finds_nothing (W : World) (uid : Z) (s : St) :
  stationary W ->
  (Store.unique_keys (table s) = true ->
   (forall n, db_fault W n = false) ->
   let s1 := run_pass (Scheduled W) s in
   let s2 := run_pass (Scheduled W) s1 in
   user_updates s2 = [] /\ table s2 = table s1 /\ dbops s2 = S (dbops s1)) /\
  (string_slugs W ->
   let s1 := run_pass (OnDemand W uid) s in
   hd_error (trace s1) <> Some (EvFollowup CheckFailedSeeLogs) ->
   let s2 := run_pass (OnDemand W uid) s1 in
   updates s2 = [] /\ table s2 = table s1).
Proof.
  intros HW. split.
  - intros Hu Hdb. apply (scheduled_pass_twice W s HW Hu Hdb).
  - intros HS. cbn zeta. unfold run_pass. intros Hok.
    apply manual_check_quiet; [exact HW|].
    apply (manual_check_settles W uid s HW HS Hok).
Qed.

Lemma C8_second_pass_finds_nothing_witness :
  (let s1 := run_pass (Scheduled Demo.moved) (Demo.start (Demo.tracked_under "old" Demo.f5)) in
   let s2 := run_pass (Scheduled Demo.moved) s1 in
   user_updates s1 <> [] /\
   user_updates s2 = [] /\ table s2 = table s1 /\ dbops s2 = S (dbops s1)) /\
  (let s1 := run_pass (OnDemand Demo.moved 7) (Demo.start (Demo.tracked_under "old" Demo.f5)) in
   let s2 := run_pass (OnDemand Demo.moved 7) s1 in
   updates s1 <> [] /\
   updates s2 = [] /\ table s2 = table s1).
Proof.
  destruct (C8_second_pass_finds_nothing Demo.moved 7
              (Demo.start (Demo.tracked_under "old" Demo.f5))) as [Hs Ho].
  { intros n m r. reflexivity. }
  split.
  - split; [vm_compute; discriminate|].
    apply Hs; [reflexivity | intros n; reflexivity].
  - split; [vm_compute; discriminate|].
    apply Ho.
    + intros n title v H. vm_compute in H. inversion H. right. eexists. reflexivity.
    + vm_compute. discriminate.
Defined.

(* ================================================================== *)
(** * Beyond the claims: the clients, the delivery, the commands *)
(* ================================================================== *)

(** ** The retries of the scheduled client *)

Lemma body_of_none_failed (o : Outcome) : body_of o = None -> failed o = true.
Proof.
  destruct o as [status [j|]| |]; simpl; try reflexivity.
  destruct (Z.eqb status 200); [discriminate | reflexivity].
Qed.

(** One attempt of the scheduled client that is answered: the body is
    returned and no further request is sent. *)
Lemma tracking_attempt_answered (W : World) (u : string) (ps : list (string * string))
      (retries a : nat) (rest : list nat) (s : St) (j : json) :
  body_of (http W (calls s) (Tracking.request u ps)) = Some j ->
  Tracking.fetch_attempts W u ps retries (a :: rest) s =
  (Ok j, set_trace (EvGet (calls s) (Tracking.request u ps) :: trace s)
           (set_calls (S (calls s)) s)).
Proof.
  intros Hb. simpl. unfold bind, http_get.
  destruct (http W (calls s) (Tracking.request u ps)) as [status [j'|]| |];
    simpl in Hb; try discriminate.
  destruct (Z.eqb status 200); [|discriminate].
  inversion Hb. reflexivity.
Qed.

Lemma tracking_attempts_first_answer (W : World) (u : string) (ps : list (string * string))
      (retries : nat) :
  forall (k a : nat) (s : St),
    a + k = retries + 2 ->
    let r := Tracking.fetch_attempts W u ps retries (seq a k) s in
    match first_answer W (Tracking.request u ps) (calls s) k with
    | Some (i, j) =>
        fst r = Ok j /\ calls (snd r) = calls s + S i /\ clock (snd r) = clock s + i
    | None =>
        fst r = Ok JNull /\ calls (snd r) = calls s + k /\ clock (snd r) = clock s + (k - 1)
    end.
Proof.
  induction k as [|k IH]; intros a s Ha; cbn zeta.
  - simpl. repeat split; lia.
  - change (seq a (S k)) with (a :: seq (S a) k). cbn [first_answer].
    destruct (body_of (http W (calls s) (Tracking.request u ps))) as [j|] eqn:Hb.
    + rewrite (tracking_attempt_answered W u ps retries a _ s j Hb). simpl.
      repeat split; lia.
    + destruct (tracking_attempt_failed W u ps retries a (seq (S a) k) s
                  (body_of_none_failed _ Hb)) as [m Hm].
      rewrite Hm. destruct k as [|k'].
      * assert (Hle : Nat.leb a retries = false) by (apply Nat.leb_gt; lia).
        rewrite Hle. simpl. repeat split; lia.
      * assert (Hle : Nat.leb a retries = true) by (apply Nat.leb_le; lia).
        rewrite Hle.
        match goal with |- context [Tracking.fetch_attempts _ _ _ _ _ ?s1] => set (s1' := s1) end.
        specialize (IH (S a) s1'). cbn zeta in IH.
        change (calls s1') with (S (calls s)) in IH.
        change (clock s1') with (clock s + 1) in IH.
        destruct (first_answer W (Tracking.request u ps) (S (calls s)) (S k')) as [[i j]|];
          (destruct IH as (H1 & H2 & H3); [lia|]; repeat split; [exact H1 | lia | lia]).
Qed.

(** X1: the retries of the scheduled client.  With its session set,
    [Tracking.fetch_json] sends the request up to three times and returns
    the body of the first attempt that is answered (status 200 and a
    decodable body), after one sleep of one unit for each attempt that
    failed before it; when the three attempts fail it returns [None]
    after three requests and two sleeps.  It never raises. *)
Theorem X1_tracking_fetch_json_first_answer (W : World) (u : string)
        (ps : list (string * string)) (s : St) :
  session s = true ->
  let r := Tracking.fetch_json W u ps s in
  match first_answer W (Tracking.request u ps) (calls s) 3 with
  | Some (i, j) =>
      fst r = Ok j /\ calls (snd r) = calls s + S i /\ clock (snd r) = clock s + i
  | None =>
      fst r = Ok JNull /\ calls (snd r) = calls s + 3 /\ clock (snd r) = clock s + 2
  end.
Proof.
  intros Hs. unfold Tracking.fetch_json, Tracking.fetch_json_with. rewrite Hs.
  change (Tracking.RETRIES + 1) with 3.
  apply (tracking_attempts_first_answer W u ps Tracking.RETRIES 3 1 s). reflexivity.
Qed.

Lemma X1_tracking_fetch_json_first_answer_witness :
  let u := ManualCheck.chapters_url Demo.flaky (JStr "solo") in
  let r := Tracking.fetch_json Demo.flaky u Tracking.chapters_params (Demo.start []) in
  fst r = Ok (Demo.chapter_list "6" "Arise" "h6") /\
  calls (snd r) = 2 /\ clock (snd r) = 1.
Proof.
  apply (X1_tracking_fetch_json_first_answer Demo.flaky
           (ManualCheck.chapters_url Demo.flaky (JStr "solo")) Tracking.chapters_params
           (Demo.start [])).
  reflexivity.
Defined.

(** ** The delivery of the notifications *)

Lemma attempted_app (l1 l2 : list Event) : attempted (l1 ++ l2) = attempted l1 ++ attempted l2.
Proof.
  induction l1 as [|e l1 IH]; [reflexivity|].
  destruct e; simpl; rewrite ?IH; reflexivity.
Qed.

Lemma messaged_app (l1 l2 : list Event) : messaged (l1 ++ l2) = messaged l1 ++ messaged l2.
Proof.
  induction l1 as [|e l1 IH]; [reflexivity|].
  destruct e; simpl; rewrite ?IH; reflexivity.
Qed.

Lemma delivered_app (l1 l2 : list Event) : delivered (l1 ++ l2) = delivered l1 ++ delivered l2.
Proof.
  induction l1 as [|e l1 IH]; [reflexivity|].
  destruct e as [| | | | |uid em [|]|]; simpl; rewrite ?IH; reflexivity.
Qed.

(** The body of the delivery loop, along the ways it can go: the user
    cannot be fetched; the embed cannot be built; the message is refused;
    the message goes through. *)
Lemma send_dm_run (W : World) (uid : Z) (ups : list ChapterInfo) (s : St) :
  let r := Tracking.send_dm W (uid, ups) s in
  fst r = Ok tt /\
  exists new,
    trace (snd r) = new ++ trace s /\
    attempted new = [uid] /\
    ((messaged new = [] /\ delivered new = []) \/
     (exists e, embed_of ups = Ok e /\ messaged new = [uid] /\
                (delivered new = [] \/ delivered new = [(uid, e)]))).
Proof.
  unfold Tracking.send_dm, try_except, bind, Tracking.platform_call, emit, raise, lift, log,
    sleep, embed_of.
  destruct s as [se ca cl db dm ta tr uu up tx]. cbn.
  destruct (dm_fault W dm uid).
  { cbn. split; [reflexivity|]. eexists [_; _]. split; [reflexivity|]. split; [reflexivity|].
    left. split; reflexivity. }
  cbn. destruct (Tracking.embed_fields_of ups) as [fields|e].
  - cbn. destruct (dm_fault W (S dm) uid); cbn.
    + split; [reflexivity|]. eexists [_; _; _]. split; [reflexivity|]. split; [reflexivity|].
      right. eexists. split; [reflexivity|]. split; [reflexivity|]. left. reflexivity.
    + split; [reflexivity|]. eexists [_; _; _; _]. split; [reflexivity|].
      split; [reflexivity|].
      right. eexists. split; [reflexivity|]. split; [reflexivity|]. right. reflexivity.
  - cbn. split; [reflexivity|]. eexists [_; _]. split; [reflexivity|]. split; [reflexivity|].
    left. split; reflexivity.
Qed.

(** The delivery loop over the entries of [user_updates]. *)
Lemma send_all_run (W : World) (entries : list (Z * list ChapterInfo)) :
  forall s,
    let r := for_each (Tracking.send_dm W) entries s in
    fst r = Ok tt /\
    exists new,
      trace (snd r) = new ++ trace s /\
      attempted new = rev (map fst entries) /\
      (NoDup (map fst entries) -> NoDup (messaged new)) /\
      (forall u, In u (messaged new) -> In u (map fst entries)) /\
      (forall u e, In (u, e) (delivered new) ->
                   exists ups, In (u, ups) entries /\ embed_of ups = Ok e).
Proof.
  induction entries as [|[uid ups] rest IH]; intros s; cbn zeta.
  - simpl. split; [reflexivity|]. exists []. repeat split; try constructor; intros; contradiction.
  - destruct (send_dm_run W uid ups s) as (Hok & new1 & Ht1 & Ha1 & Hm1). cbn zeta in Hok, Ht1.
    destruct (Tracking.send_dm W (uid, ups) s) as [[[]|e] s1] eqn:Hrun;
      cbn [fst snd] in Hok, Ht1; [|discriminate].
    rewrite (for_each_cons_ok _ _ _ _ _ Hrun).
    destruct (IH s1) as (Hok2 & new2 & Ht2 & Ha2 & Hn2 & Hi2 & Hd2). cbn zeta in Hok2, Ht2.
    split; [exact Hok2|].
    exists (new2 ++ new1). split; [rewrite Ht2, Ht1, app_assoc; reflexivity|].
    split; [rewrite attempted_app, Ha1, Ha2; reflexivity|].
    rewrite messaged_app, delivered_app. cbn [map fst].
    assert (Hm : messaged new1 = [] \/ messaged new1 = [uid]).
    { destruct Hm1 as [[H _] | (e & _ & H & _)]; [left | right]; exact H. }
    split; [|split].
    + intros Hnd. inversion Hnd as [|x l Hnotin Hnd']; subst.
      destruct Hm as [-> | ->]; [rewrite app_nil_r; apply Hn2, Hnd'|].
      apply NoDup_app; [apply Hn2, Hnd' | repeat constructor; intros [] |].
      intros u Hu [<- | []]. apply Hnotin, Hi2, Hu.
    + intros u Hu. apply in_app_or in Hu. destruct Hu as [Hu | Hu].
      * right. apply Hi2, Hu.
      * destruct Hm as [E | E]; rewrite E in Hu; [destruct Hu|].
        destruct Hu as [<- | []]. left. reflexivity.
    + intros u e Hu. apply in_app_or in Hu. destruct Hu as [Hu | Hu].
      * destruct (Hd2 u e Hu) as (ups' & Hin & He). exists ups'. split; [right; exact Hin | exact He].
      * destruct Hm1 as [[_ E] | (e' & He' & _ & [E | E])]; rewrite E in Hu;
          [destruct Hu | destruct Hu | destruct Hu as [Hu | []]].
        inversion Hu; subst. exists ups. split; [left; reflexivity | exact He'].
Qed.

(** [send_updates]: the line it prints, then the loop. *)
Lemma send_updates_run (W : World) (s : St) :
  let r := Tracking.send_updates W s in
  fst r = Ok tt /\
  exists new,
    trace (snd r) = new ++ trace s /\
    attempted new = rev (map fst (user_updates s)) /\
    (NoDup (map fst (user_updates s)) -> NoDup (messaged new)) /\
    (forall u, In u (messaged new) -> In u (map fst (user_updates s))) /\
    (forall u e, In (u, e) (delivered new) ->
                 exists ups, In (u, ups) (user_updates s) /\ embed_of ups = Ok e).
Proof.
  cbn zeta. unfold Tracking.send_updates, bind, log, emit. cbn [fst snd].
  change (user_updates s) with (user_updates (set_trace (EvLog (LogSending (List.length (user_updates s))) :: trace s) s)) at 1 2.
  destruct (send_all_run W (user_updates s)
              (set_trace (EvLog (LogSending (List.length (user_updates s))) :: trace s) s))
    as (Hok & new & Ht & Ha & Hn & Hi & Hd).
  cbn zeta in Hok, Ht. split; [exact Hok|].
  exists (new ++ [EvLog (LogSending (List.length (user_updates s)))]).
  split; [rewrite Ht, <- app_assoc; reflexivity|].
  rewrite attempted_app, messaged_app, delivered_app. simpl. rewrite !app_nil_r.
  repeat split; assumption.
Qed.

(** X2: the delivery tries every user.  [send_updates] never raises;
    it looks up each user that has pending updates exactly once, in the
    order the users entered [user_updates], whatever went wrong for the
    users before; and a message that went through carries the embed built
    from the updates of its user. *)
Theorem X2_delivery_tries_every_user (W : World) (s : St) :
  let r := Tracking.send_updates W s in
  fst r = Ok tt /\
  exists new,
    trace (snd r) = new ++ trace s /\
    attempted new = rev (map fst (user_updates s)) /\
    (forall u e, In (u, e) (delivered new) ->
                 exists ups, In (u, ups) (user_updates s) /\ embed_of ups = Ok e).
Proof.
  destruct (send_updates_run W s) as (Hok & new & Ht & Ha & _ & _ & Hd).
  split; [exact Hok|]. exists new. repeat split; assumption.
Qed.

Lemma dict_append_keys (uid : Z) (i : ChapterInfo) (d : list (Z * list ChapterInfo)) :
  map fst (Tracking.dict_append uid i d) =
  if existsb (Z.eqb uid) (map fst d) then map fst d else map fst d ++ [uid].
Proof.
  induction d as [|[u l] d IH]; [reflexivity|].
  simpl. rewrite (Z.eqb_sym uid u). destruct (Z.eqb u uid); [reflexivity|].
  simpl. rewrite IH. destruct (existsb (Z.eqb uid) (map fst d)); reflexivity.
Qed.

Lemma dict_append_NoDup (uid : Z) (i : ChapterInfo) (d : list (Z * list ChapterInfo)) :
  NoDup (map fst d) -> NoDup (map fst (Tracking.dict_append uid i d)).
Proof.
  intros H. rewrite dict_append_keys.
  destruct (existsb (Z.eqb uid) (map fst d)) eqn:E; [exact H|].
  apply NoDup_app; [exact H | repeat constructor; intros [] |].
  intros u Hu [<- | []].
  assert (existsb (Z.eqb uid) (map fst d) = true).
  { apply existsb_exists. exists uid. split; [exact Hu | apply Z.eqb_refl]. }
  congruence.
Qed.

(** The rows phase keeps the keys of [user_updates] distinct: it is a
    dict. *)
Lemma check_rows_keys (W : World) (rows : list (Z * string * string * option float)) :
  keeps (fun s s' => NoDup (map fst (user_updates s)) -> NoDup (map fst (user_updates s')))
        (Tracking.check_rows W rows).
Proof.
  unfold Tracking.check_rows. apply keeps_for_each; [auto | auto |].
  intros [[[uid title] slug] stored] s.
  destruct (tracking_check_row_effect W (mkRow 0 uid title slug stored 0) s)
    as (_ & _ & _ & _ & _ & Hcases).
  cbn zeta in Hcases.
  change (row_tuple (mkRow 0 uid title slug stored 0)) with (uid, title, slug, stored) in Hcases.
  cbn beta. destruct Hcases as [(_ & E & _) | (info & _ & _ & E & _)]; rewrite E; [auto|].
  apply dict_append_NoDup.
Qed.

Lemma quiet_attempted (l : list Event) :
  Forall (fun e => not_delivery e = true) l -> attempted l = [] /\ messaged l = [].
Proof.
  induction 1 as [|e l He _ [IH1 IH2]]; [split; reflexivity|].
  destruct e; simpl; try discriminate; split; assumption.
Qed.

(** X3: one message per user and pass.  Over a whole scheduled pass,
    whatever the table, the upstream and the faults, no user is looked up
    twice and no user is sent two messages: the updates of a user travel
    in one message. *)
Theorem X3_one_message_per_user (W : World) (s : St) :
  let s' := snd (Tracking.chapter_check_loop W s) in
  exists new,
    trace s' = new ++ trace s /\ NoDup (attempted new) /\ NoDup (messaged new).
Proof.
  cbn zeta. rewrite chapter_check_loop_run.
  destruct (db_fault W (dbops s)).
  { cbn [snd]. eexists [_; _; _]. split; [reflexivity|]. split; constructor. }
  cbn [snd]. set (s0 := rows_read (pass_started s)).
  destruct (no_delivery_check_rows W (Store.select_all (table s)) s0) as (checks & Hc & Hq).
  pose proof (check_rows_keys W (Store.select_all (table s)) s0) as Hk.
  cbn beta in Hk. specialize (Hk (NoDup_nil _)).
  set (sa := snd (Tracking.check_rows W (Store.select_all (table s)) s0)) in *.
  destruct (send_updates_run W sa) as (_ & new & Ht & Ha & Hn & _).
  cbn zeta in Ht. destruct (quiet_attempted checks Hq) as [Qa Qm].
  exists (new ++ checks ++ [EvLog (LogCheckingCount (List.length (Store.select_all (table s))));
                            EvSql SelectAll true; EvLog LogRunning]).
  split; [rewrite Ht, Hc; unfold s0, rows_read, pass_started; simpl;
          rewrite <- !app_assoc; reflexivity|].
  rewrite !attempted_app, !messaged_app, Qa, Qm. simpl. rewrite !app_nil_r.
  split; [rewrite Ha; apply NoDup_rev, Hk | apply Hn, Hk].
Qed.

(** ** The chapter number shown *)

(** The integer a finite float stands for, when it stands for one: the
    mantissa [m], signed, times [2 ^ e]. *)
Lemma to_int_finite (sg : bool) (m : positive) (e : Z) :
  Py.to_int (S754_finite sg m e) =
  Ok (let a := if (e <? 0)%Z then (Zpos m / 2 ^ (- e))%Z else (Zpos m * 2 ^ e)%Z in
      if sg then (- a)%Z else a).
Proof.
  unfold Py.to_int. destruct e as [|p|p]; cbn [Z.ltb Z.compare Z.opp].
  - rewrite Z.mul_1_r. reflexivity.
  - rewrite Z.shiftl_mul_pow2 by lia. reflexivity.
  - rewrite Z.shiftr_div_pow2 by lia. reflexivity.
Qed.

(** X5: how a chapter number is shown.  [int(c) if c == int(c) else c]
    of a finite float [c] with mantissa [m], sign and exponent [e] is the
    integer [z] exactly when [c] stands for [z], that is when the signed
    mantissa times [2 ^ e] is [z]; it is [c] itself when [c] stands for
    no integer.  Of an infinity it raises OverflowError and of a NaN
    ValueError, both out of [int()]. *)
Theorem X5_chapter_label :
  (forall sg m e z,
      Tracking.chapter_label (S754_finite sg m e) = Ok (inl z) <->
      (if (e <? 0)%Z
       then ((if sg then Zneg m else Zpos m) = z * 2 ^ (- e))%Z
       else (z = (if sg then Zneg m else Zpos m) * 2 ^ e)%Z)) /\
  (forall sg m e,
      Tracking.chapter_label (S754_finite sg m e) = Ok (inr (S754_finite sg m e)) \/
      exists z, Tracking.chapter_label (S754_finite sg m e) = Ok (inl z)) /\
  (forall sg, Tracking.chapter_label (S754_zero sg) = Ok (inl 0%Z)) /\
  (forall sg, Tracking.chapter_label (S754_infinity sg) = Raise OverflowError) /\
  Tracking.chapter_label S754_nan = Raise ValueError.
Proof.
  split; [|split; [|split; [|split]]]; try reflexivity.
  - intros sg m e z. unfold Tracking.chapter_label. rewrite to_int_finite. cbn zeta.
    unfold Py.float_eq_int.
    destruct e as [|p|p]; cbn [Z.ltb Z.compare Z.opp].
    + rewrite Z.mul_1_r. cbn [Z.pow]. rewrite Z.mul_1_r.
      assert (E : (if sg then (- Zpos m)%Z else Zpos m) = (if sg then Zneg m else Zpos m))
        by (destruct sg; reflexivity).
      rewrite E, Z.eqb_refl. split; [intros H; inversion H; reflexivity | intros ->; reflexivity].
    + rewrite Z.shiftl_mul_pow2 by lia.
      assert (E : (if sg then (- (Zpos m * 2 ^ Zpos p))%Z else (Zpos m * 2 ^ Zpos p)%Z) =
                  ((if sg then Zneg m else Zpos m) * 2 ^ Zpos p)%Z).
      { destruct sg; [|reflexivity]. change (Zneg m) with (- Zpos m)%Z. lia. }
      rewrite E, Z.eqb_refl. split; [intros H; inversion H; reflexivity | intros ->; reflexivity].
    + rewrite Z.shiftl_mul_pow2 by lia.
      assert (Hp : (0 < 2 ^ Zpos p)%Z) by (apply Z.pow_pos_nonneg; lia).
      set (k := (2 ^ Zpos p)%Z) in *.
      set (a := (if sg then Zneg m else Zpos m)).
      set (q := (if sg then (- (Zpos m / k))%Z else (Zpos m / k)%Z)).
      destruct (Z.eqb a (q * k)) eqn:Q.
      * apply Z.eqb_eq in Q. split; [intros H; inversion H; subst; exact Q|].
        intros H. f_equal. f_equal. rewrite H in Q. nia.
      * apply Z.eqb_neq in Q. split; [intros H; discriminate|].
        intros H. exfalso. apply Q. subst a q. destruct sg.
        -- assert (Hm : (Zpos m = (- z) * k)%Z)
             by (change (Zneg m) with (- Zpos m)%Z in H; lia).
           rewrite Hm. rewrite Z.div_mul by lia. lia.
        -- rewrite H. rewrite Z.div_mul by lia. reflexivity.
  - intros sg m e. unfold Tracking.chapter_label. rewrite to_int_finite.
    cbn zeta. destruct (Py.float_eq_int _ _); [right; eexists; reflexivity | left; reflexivity].
Qed.

(** ** A chapter number that is infinite *)

Lemma embed_fields_of_infinite (ups : list ChapterInfo) (u : ChapterInfo) (sg : bool) :
  In u ups -> info_chapter u = S754_infinity sg ->
  exists e, Tracking.embed_fields_of ups = Raise e.
Proof.
  intros Hin Hc. induction ups as [|v ups IH]; [destruct Hin|].
  simpl. destruct (Tracking.chapter_label (info_chapter v)) as [lbl|e] eqn:L;
    [|exists e; reflexivity].
  destruct Hin as [-> | Hin].
  - rewrite Hc in L. discriminate.
  - destruct (IH Hin) as [e He]. rewrite He. exists e. reflexivity.
Qed.

(** X6: a chapter number that reads as infinity ([float("inf")],
    [float("1e999")]).  It is newer than any finite or NULL progress, so
    the update fires; the message of the user it belongs to cannot be
    built ([int()] of it raises), so that user is sent nothing in the
    pass, whatever else the message would have carried, and [send_dm]
    still returns normally; and once it is stored no chapter is ever newer:
    a later check of the row leaves the store and the pending updates
    alone, whatever the upstream answers. *)
Theorem X6_infinite_chapter (W : World) (uid : Z) (ups : list ChapterInfo) (u : ChapterInfo)
        (s : St) :
  In u ups -> info_chapter u = S754_infinity false ->
  (forall stored,
      match stored with
      | Some (S754_infinity false) | Some S754_nan => False
      | _ => True
      end ->
      float_gt (info_chapter u) (Tracking.or_zero stored) = true) /\
  (let r := Tracking.send_dm W (uid, ups) s in
   fst r = Ok tt /\ messaged (trace (snd r)) = messaged (trace s) /\
   delivered (trace (snd r)) = delivered (trace s)) /\
  (forall W' title slug s0,
      let s' := snd (Tracking.check_row W' (uid, title, slug, Some (info_chapter u)) s0) in
      table s' = table s0 /\ user_updates s' = user_updates s0).
Proof.
  intros Hin Hc. split; [|split].
  - intros stored Hst. rewrite Hc. unfold float_gt, Tracking.or_zero.
    destruct stored as [[sg|[|]| |sg m e]|]; try destruct Hst; try reflexivity.
    unfold float_truthy. destruct (SFeqb _ _); reflexivity.
  - destruct (embed_fields_of_infinite ups u false Hin Hc) as [e He].
    destruct (send_dm_run W uid ups s) as (Hok & new & Ht & _ & Hm). cbn zeta in Hok, Ht.
    cbn zeta. split; [exact Hok|]. rewrite Ht, messaged_app, delivered_app.
    destruct Hm as [[-> ->] | (em & Hem & _)]; [split; reflexivity|].
    unfold embed_of in Hem. rewrite He in Hem. discriminate.
  - intros W' title slug s0. cbn zeta.
    destruct (tracking_check_row_effect W' (mkRow 0 uid title slug (Some (info_chapter u)) 0) s0)
      as (_ & _ & _ & _ & _ & Hcases).
    cbn zeta in Hcases.
    change (row_tuple (mkRow 0 uid title slug (Some (info_chapter u)) 0))
      with (uid, title, slug, Some (info_chapter u)) in Hcases.
    destruct Hcases as [(Ht & Hu & _) | (info & _ & G & _)]; [split; assumption|].
    exfalso. cbn [latest_chapter_notified] in G. rewrite Hc in G.
    unfold float_gt, Tracking.or_zero in G. cbn in G.
    destruct (info_chapter info) as [sg|[|]| |sg m e]; discriminate.
Qed.

Lemma X6_infinite_chapter_witness :
  let u := mkInfo "Solo Leveling" (JStr "solo") (S754_infinity false) JNull "l" JNull in
  let v := mkInfo "Omniscient Reader" (JStr "orv") Demo.f12 JNull "l" JNull in
  let r := Tracking.send_dm (Demo.world (fun _ _ => TimedOut)) (7%Z, [v; u]) (Demo.start []) in
  float_gt (info_chapter u) (Tracking.or_zero (Some Demo.f12)) = true /\
  fst r = Ok tt /\ messaged (trace (snd r)) = [] /\ delivered (trace (snd r)) = [].
Proof.
  destruct (X6_infinite_chapter (Demo.world (fun _ _ => TimedOut)) 7%Z
              [mkInfo "Omniscient Reader" (JStr "orv") Demo.f12 JNull "l" JNull;
               mkInfo "Solo Leveling" (JStr "solo") (S754_infinity false) JNull "l" JNull]
              (mkInfo "Solo Leveling" (JStr "solo") (S754_infinity false) JNull "l" JNull)
              (Demo.start [])) as (H1 & H2 & _).
  - right. left. reflexivity.
  - reflexivity.
  - split; [apply (H1 (Some Demo.f12)); exact I | exact H2].
Defined.

(** ** The answer of the on-demand pass *)

Lemma quiet_db_op_gen (P : Event -> bool) (W : World) (q : Sql) :
  P (EvSql q false) = true -> keeps (grows P) (db_op W q).
Proof.
  intros H s. unfold db_op. destruct (db_fault W (dbops s)); simpl.
  - exists [EvSql q false]. split; [reflexivity | repeat constructor; exact H].
  - exists []. split; [reflexivity | constructor].
Qed.

Lemma no_followup_manual_fetch (W : World) (u : string) (ps : list (string * string)) :
  keeps (grows not_followup) (ManualCheck.fetch_json W u ps).
Proof.
  unfold ManualCheck.fetch_json, log.
  repeat first
    [ apply grows_emit; reflexivity
    | apply quiet_http_get; intros ?; reflexivity
    | keeps_step (grows_refl not_followup) (grows_trans not_followup) ].
Qed.

Lemma no_followup_execute_update (W : World) (c : float) (rs : json) (uid : Z)
      (title : string) :
  keeps (grows not_followup) (ManualCheck.execute_update W c rs uid title).
Proof.
  unfold ManualCheck.execute_update.
  apply (keeps_bind _ (grows_trans not_followup)); [apply quiet_db_op_gen; reflexivity|].
  intros _ s. destruct (Store.bind_text W rs) as [slug|e].
  - destruct (Store.update_by_title c slug (clock s) uid title (txn s)) as [t'|e];
      (eexists [_]; split; [reflexivity | repeat constructor]).
  - eexists [_]. split; [reflexivity | repeat constructor].
Qed.

(** A row of the on-demand pass gives the interaction no answer. *)
Lemma no_followup_manual_row (W : World) (uid : Z) (row : string * string * option float) :
  keeps (grows not_followup) (ManualCheck.check_row W uid row).
Proof.
  destruct row as [[title slug] stored].
  unfold ManualCheck.check_row, ManualCheck.resolve_slug, ManualCheck.search_by_title,
    ManualCheck.get_latest_chapter, log.
  repeat first
    [ apply no_followup_manual_fetch
    | apply no_followup_execute_update
    | apply grows_emit; reflexivity
    | apply grows_silent; intros ?; reflexivity
    | keeps_step (grows_refl not_followup) (grows_trans not_followup) ].
Qed.

Lemma quiet_followups (l : list Event) :
  Forall (fun e => not_followup e = true) l -> followups l = [].
Proof.
  induction 1 as [|e l He _ IH]; [reflexivity|].
  destruct e; simpl; try discriminate; assumption.
Qed.

Lemma followups_app (l1 l2 : list Event) : followups (l1 ++ l2) = followups l1 ++ followups l2.
Proof.
  induction l1 as [|e l1 IH]; [reflexivity|].
  destruct e; simpl; rewrite ?IH; reflexivity.
Qed.

(** X7: the answer of [/manual_check] and the store.  Of the answers
    the command gives the interaction: the embed is sent only after the
    commit, and carries the updates the pass has recorded, of which there
    is at least one; "no new chapters" is sent only after the commit of a
    pass that recorded no update; "not following" is sent only to a user
    who has no row, and nothing is written; and when the failure notice
    is the one answer of the command, the table is what it was. *)
Theorem X7_manual_answer_and_store (W : World) (uid : Z) (s : St) :
  let s' := snd (ManualCheck.manual_check W uid s) in
  exists new,
    trace s' = new ++ trace s /\
    (forall f, In f (followups new) ->
       match f with
       | ManualEmbed ups => ups = updates s' /\ ups <> [] /\ table s' = txn s'
       | NoNewChapters => updates s' = [] /\ table s' = txn s'
       | NotFollowing => Store.select_user uid (table s) = [] /\ table s' = table s
       | CheckFailedSeeLogs => True
       end) /\
    (followups new = [CheckFailedSeeLogs] -> table s' = table s).
Proof.
  cbn zeta. rewrite manual_check_run.
  destruct (db_fault W (dbops s)).
  { eexists [_; _; _]. split; [reflexivity|]. split; [|reflexivity].
    intros f [<- | []]. exact I. }
  destruct (Store.select_user uid (table s)) as [|row rows] eqn:Hsel.
  { eexists [_; _]. split; [reflexivity|]. split; [|intros H; discriminate].
    intros f [<- | []]. split; reflexivity. }
  rewrite <- Hsel.
  pose proof (keeps_for_each _ (grows_refl not_followup) (grows_trans not_followup)
                (ManualCheck.check_row W uid) (Store.select_user uid (table s))
                (no_followup_manual_row W uid) (connected uid s)) as (l & Hl & Hq).
  destruct (manual_rows_effect W uid (table s)
              (Store.index_order (filter (fun r => Z.eqb (user_id r) uid) (table s)))
              [] (connected uid s)
              (index_order_perm _) (loop_inv_start _ _ _)) as (Ht & _).
  cbn zeta in Ht. rewrite <- select_user_rows in Ht.
  apply quiet_followups in Hq.
  destruct (for_each (ManualCheck.check_row W uid) (Store.select_user uid (table s))
              (connected uid s)) as [[[]|e] s2]; cbn [fst snd] in *.
  - destruct (db_fault W (dbops s2)).
    + eexists (_ :: _ :: _ :: l ++ [_]). cbn [snd]. split; [|split].
      * unfold manual_failed. cbn. rewrite Hl. cbn. rewrite <- app_assoc. reflexivity.
      * cbn. rewrite followups_app, Hq. intros f [<- | []]. exact I.
      * intros _. exact Ht.
    + cbn [snd].
      eexists (_ :: _ :: l ++ [_]). split; [|split].
      * unfold committed. cbn. rewrite Hl. cbn. rewrite <- app_assoc. reflexivity.
      * cbn. rewrite followups_app, Hq. cbn. intros f [<- | []].
        unfold committed. destruct (updates s2) as [|u ups] eqn:Hu; cbn; rewrite ?Hu.
        -- split; reflexivity.
        -- split; [reflexivity|]. split; [discriminate | reflexivity].
      * cbn. rewrite followups_app, Hq. cbn.
        destruct (updates s2); intros H; discriminate.
  - eexists (_ :: _ :: l ++ [_]). cbn [snd]. split; [|split].
    + unfold manual_failed. cbn. rewrite Hl. cbn. rewrite <- app_assoc. reflexivity.
    + cbn. rewrite followups_app, Hq. intros f [<- | []]. exact I.
    + intros _. exact Ht.
Qed.

Lemma X7_manual_answer_and_store_witness :
  (let s0 := Demo.start Demo.tracked_twice in
   let s' := snd (ManualCheck.manual_check Demo.moved 7 s0) in
   followups (trace s') = [CheckFailedSeeLogs] /\ table s' = table s0) /\
  (let s0 := Demo.start (Demo.tracked_under "old" Demo.f5) in
   let s' := snd (ManualCheck.manual_check Demo.moved 7 s0) in
   followups (trace s') = [ManualEmbed (updates s')] /\
   updates s' <> [] /\ table s' = txn s').
Proof.
  split; cbn zeta.
  - destruct (X7_manual_answer_and_store Demo.moved 7 (Demo.start Demo.tracked_twice))
      as (new & Htr & _ & Hfail).
    cbn zeta in Htr, Hfail. change (trace (Demo.start Demo.tracked_twice)) with (@nil Event) in Htr.
    rewrite app_nil_r in Htr.
    assert (Hf : followups (trace (snd (ManualCheck.manual_check Demo.moved 7
                                          (Demo.start Demo.tracked_twice)))) =
                 [CheckFailedSeeLogs]) by (vm_compute; reflexivity).
    split; [exact Hf|]. apply Hfail. rewrite <- Htr. exact Hf.
  - destruct (X7_manual_answer_and_store Demo.moved 7
                (Demo.start (Demo.tracked_under "old" Demo.f5)))
      as (new & Htr & Hall & _).
    cbn zeta in Htr, Hall.
    change (trace (Demo.start (Demo.tracked_under "old" Demo.f5))) with (@nil Event) in Htr.
    rewrite app_nil_r in Htr.
    assert (Hf : followups (trace (snd (ManualCheck.manual_check Demo.moved 7
                                          (Demo.start (Demo.tracked_under "old" Demo.f5))))) =
                 [ManualEmbed (updates (snd (ManualCheck.manual_check Demo.moved 7
                                          (Demo.start (Demo.tracked_under "old" Demo.f5)))))])
      by (vm_compute; reflexivity).
    split; [exact Hf|].
    specialize (Hall (ManualEmbed (updates (snd (ManualCheck.manual_check Demo.moved 7
                                          (Demo.start (Demo.tracked_under "old" Demo.f5))))))).
    cbv beta iota in Hall. 
    destruct Hall as (_ & H2 & H3); [|split; assumption].
    rewrite <- Htr, Hf. left. reflexivity.
Defined.

(** ** What the on-demand pass reports and whom it writes *)

(** An accepted UPDATE by title is the first of the loop for its title. *)
Lemma accepted_update_first_of_title (uid : Z) (T0 txn t' done todo : list Row) (r_h : Row)
      (number : float) (slug' : string) (now : nat) :
  Forall2 (loop_inv uid (r_h :: todo)) T0 txn ->
  Permutation (filter (fun r => Z.eqb (user_id r) uid) T0) (done ++ r_h :: todo) ->
  Store.update_by_title number slug' now uid (manhwa_title r_h) txn = Ok t' ->
  ~ In (manhwa_title r_h) (map manhwa_title done).
Proof.
  intros Hinv Husers Hup.
  destruct (accepted_update_hits_own_row uid T0 txn t' done todo r_h number slug' now
              Hinv Husers Hup) as (Hh_titled & _ & _).
  pose proof (update_by_title_at_most_one _ _ _ _ _ _ _ Hup) as Hle.
  fold (count_titled uid (manhwa_title r_h) txn) in Hle.
  assert (Hcount : count_titled uid (manhwa_title r_h) T0 <= 1).
  { rewrite <- (count_titled_Forall2 uid (manhwa_title r_h) T0 txn); [exact Hle|].
    eapply Forall2_impl; [|exact Hinv]. intros a b. apply loop_inv_same. }
  intros Hin. apply in_map_iff in Hin. destruct Hin as (r2 & Ht2 & Hin2).
  assert (Hu2 : user_id r2 = uid).
  { assert (Hin : In r2 (filter (fun r => Z.eqb (user_id r) uid) T0))
      by (apply (Permutation_in _ (Permutation_sym Husers)); apply in_or_app; left; exact Hin2).
    apply filter_In in Hin. destruct Hin as [_ Hu]. apply Z.eqb_eq in Hu. exact Hu. }
  assert (H2 : 1 <= count_titled uid (manhwa_title r_h) done).
  { apply (count_titled_in _ _ _ r2 Hin2). apply titled_true. split; assumption. }
  assert (H3 : count_titled uid (manhwa_title r_h) (done ++ r_h :: todo) <= 1).
  { rewrite <- (count_titled_perm uid _ _ _ Husers), count_titled_users. exact Hcount. }
  rewrite count_titled_app in H3.
  change (r_h :: todo) with ([r_h] ++ todo) in H3. rewrite count_titled_app in H3.
  assert (H4 : count_titled uid (manhwa_title r_h) [r_h] = 1)
    by (unfold count_titled; simpl; rewrite Hh_titled; reflexivity).
  lia.
Qed.

(** The loop of [manual_check], with what it has recorded: when it
    ends without an exception, every row of the connection is the row of
    the start or a row of the user, and every update recorded is in the
    connection. *)
Lemma manual_rows_report (W : World) (uid : Z) (T0 : list Row) (todo : list Row) :
  forall (done : list Row) (s : St),
    Permutation (filter (fun r => Z.eqb (user_id r) uid) T0) (done ++ todo) ->
    Forall2 (loop_inv uid todo) T0 (txn s) ->
    Forall (fun e => In (fst (fst (fst e))) (map manhwa_title done)) (updates s) ->
    reported uid (updates s) (txn s) ->
    let res := for_each (ManualCheck.check_row W uid) (map row_triple todo) s in
    fst res = Ok tt ->
    Forall2 (loop_inv uid []) T0 (txn (snd res)) /\
    reported uid (updates (snd res)) (txn (snd res)).
Proof.
  induction todo as [|r_h todo IH]; intros done s Husers Hinv Hdone Hrep; cbn zeta.
  - simpl. intros _. split; assumption.
  - rewrite map_row_triple_cons.
    destruct (manual_check_row_effect W uid r_h s) as (_ & _ & _ & _ & Hcases).
    cbn zeta in Hcases.
    destruct (ManualCheck.check_row W uid (row_triple r_h) s) as [[[]|e] s1] eqn:Hrow;
      cbn [fst snd] in *.
    2:{ rewrite (for_each_cons_raise _ _ _ _ _ _ Hrow). cbn [fst]. intros H; discriminate. }
    rewrite (for_each_cons_ok _ _ _ _ _ Hrow).
    assert (Hstep : Forall2 (loop_inv uid todo) T0 (txn s1) /\
                    Forall (fun e => In (fst (fst (fst e)))
                                        (map manhwa_title (done ++ [r_h]))) (updates s1) /\
                    reported uid (updates s1) (txn s1)).
    { assert (Hwiden : forall l : list ManualUpdate,
                 Forall (fun e => In (fst (fst (fst e))) (map manhwa_title done)) l ->
                 Forall (fun e => In (fst (fst (fst e)))
                                     (map manhwa_title (done ++ [r_h]))) l).
      { intros l. apply Forall_impl. intros e He. rewrite map_app. apply in_or_app.
        left. exact He. }
      destruct Hcases as [(Hx & Hu & _) | (number & rs & l & _ & Hnew & Hu & _ & Hex)].
      - rewrite Hx, Hu. split; [|split; [apply Hwiden; exact Hdone | exact Hrep]].
        eapply Forall2_impl; [|exact Hinv]. intros a b. apply loop_inv_weaken.
      - destruct Hex as [(e & He & _) | (slug' & now & _ & _ & Hup)]; [discriminate|].
        destruct (accepted_update_hits_own_row uid T0 (txn s) (txn s1) done todo r_h
                    number slug' now Hinv Husers Hup) as (Hh_titled & _ & _).
        pose proof (accepted_update_first_of_title uid T0 (txn s) (txn s1) done todo r_h
                      number slug' now Hinv Husers Hup) as Hfirst.
        split; [|split].
        + apply (loop_inv_update uid T0 (txn s) (txn s1) done todo r_h number slug' now);
            assumption.
        + rewrite Hu. apply Forall_app. split; [apply Hwiden; exact Hdone|].
          constructor; [|constructor]. cbn [fst]. rewrite map_app. apply in_or_app.
          right. left. reflexivity.
        + apply update_by_title_ok in Hup. destruct Hup as [Hup _].
          rewrite Hu, Hup. apply Forall_app. split.
          * unfold reported in Hrep. rewrite Forall_forall in Hrep, Hdone.
            apply Forall_forall. intros e He.
            destruct (Hrep e He) as (r & Hr & Hru & Hrt & Hrp).
            exists r. split; [|repeat split; assumption].
            apply in_map_iff. exists r. split; [|exact Hr].
            unfold retitled. destruct (titled uid (manhwa_title r_h) r) eqn:Tr; [|reflexivity].
            exfalso. apply titled_true in Tr. destruct Tr as [_ Tt].
            apply Hfirst. rewrite <- Tt, Hrt. apply Hdone, He.
          * constructor; [|constructor]. cbn [fst snd].
            assert (Hh_in : In r_h (txn s)).
            { assert (Hin0 : In r_h T0).
              { assert (Hin : In r_h (filter (fun r => Z.eqb (user_id r) uid) T0))
                  by (apply (Permutation_in _ (Permutation_sym Husers)); apply in_or_app; right; left; reflexivity).
                apply filter_In in Hin. apply Hin. }
              clear - Hinv Hin0. induction Hinv as [|a b l1 l2 Hab Hinv IHf];
                [destruct Hin0|].
              destruct Hin0 as [-> | Hin0]; [|right; apply IHf; exact Hin0].
              left. destruct Hab as [E | (_ & Hn & _)]; [exact E|].
              exfalso. apply Hn. left. reflexivity. }
            exists (retitled number slug' now uid (manhwa_title r_h) r_h).
            split; [apply in_map; exact Hh_in|].
            unfold retitled. rewrite Hh_titled. cbn.
            apply titled_true in Hh_titled. destruct Hh_titled as [Hh_user _].
            repeat split. exact Hh_user. }
    destruct Hstep as (Hinv1 & Hdone1 & Hrep1).
    intros Hres. apply (IH (done ++ [r_h]) s1); try assumption.
    rewrite <- app_assoc. exact Husers.
Qed.

(** The on-demand pass as a whole, with what it has recorded. *)
Lemma manual_check_report (W : World) (uid : Z) (s : St) :
  let s' := snd (ManualCheck.manual_check W uid s) in
  Forall2 (loop_inv uid []) (table s) (table s') /\
  (table s' = table s \/ reported uid (updates s') (table s')).
Proof.
  cbn zeta. rewrite manual_check_run.
  destruct (db_fault W (dbops s)).
  { split; [apply loop_inv_start | left; reflexivity]. }
  destruct (Store.select_user uid (table s)) as [|row rows] eqn:Hsel.
  { split; [apply loop_inv_start | left; reflexivity]. }
  rewrite <- Hsel. rewrite select_user_rows.
  set (todo := Store.index_order (filter (fun r => Z.eqb (user_id r) uid) (table s))).
  destruct (manual_rows_effect W uid (table s) todo [] (connected uid s)
              (index_order_perm _) (loop_inv_start _ _ _)) as (Ht & _).
  pose proof (manual_rows_report W uid (table s) todo [] (connected uid s)
                (index_order_perm _)
                (loop_inv_start _ _ _) (Forall_nil _) (Forall_nil _)) as Hrep.
  cbn zeta in Ht, Hrep.
  destruct (for_each (ManualCheck.check_row W uid) (map row_triple todo) (connected uid s))
    as [[[]|e] s2]; cbn [fst snd] in *.
  - destruct (db_fault W (dbops s2)).
    + cbn [snd]. change (table (manual_failed _ _)) with (table s2). rewrite Ht.
      split; [apply loop_inv_start | left; reflexivity].
    + cbn [snd]. change (table (committed s2)) with (txn s2).
      change (updates (committed s2)) with (updates s2).
      destruct (Hrep eq_refl) as [H1 H2]. split; [exact H1 | right; exact H2].
  - cbn [snd]. change (table (manual_failed e s2)) with (table s2). rewrite Ht.
    split; [apply loop_inv_start | left; reflexivity].
Qed.

(** X8: the on-demand pass keeps to the rows of its user.  Whatever
    happens, the rows of the other users are after the pass what they were
    before it, and a row of the user keeps its id, user and title. *)
Theorem X8_manual_check_keeps_to_its_user (W : World) (uid : Z) (s : St) :
  Forall2 (fun r r' => same_row r r' /\ (user_id r <> uid -> r' = r))
          (table s) (table (snd (ManualCheck.manual_check W uid s))).
Proof.
  destruct (manual_check_report W uid s) as [H _]. cbn zeta in H.
  eapply Forall2_impl; [|exact H].
  intros a b [-> | (Hu & _ & (Hs & _))].
  - split; [repeat split | reflexivity].
  - split; [exact Hs | intros Hn; contradiction].
Qed.

(** X9: what the on-demand pass reports is what the store holds.  The
    identifiers the title search returns being strings, when the last
    answer of [/manual_check] is the embed, every update it lists is in
    the committed table: a row of the user bears the title and carries
    the chapter number shown. *)
Theorem X9_manual_embed_is_stored (W : World) (uid : Z) (s : St) (ups : list ManualUpdate) :
  string_slugs W ->
  let s' := snd (ManualCheck.manual_check W uid s) in
  hd_error (followups (trace s')) = Some (ManualEmbed ups) ->
  reported uid ups (table s').
Proof.
  intros _. cbn zeta. intros Hf.
  destruct (manual_check_report W uid s) as [_ Hrep]. cbn zeta in Hrep.
  revert Hf Hrep. rewrite manual_check_run.
  destruct (db_fault W (dbops s)); [intros H; discriminate|].
  destruct (Store.select_user uid (table s)) as [|row rows] eqn:Hsel;
    [intros H; discriminate|].
  rewrite <- Hsel.
  pose proof (keeps_for_each _ (grows_refl not_followup) (grows_trans not_followup)
                (ManualCheck.check_row W uid) (Store.select_user uid (table s))
                (no_followup_manual_row W uid) (connected uid s)) as (l & Hl & Hq).
  pose proof (manual_rows_report W uid (table s)
                (Store.index_order (filter (fun r => Z.eqb (user_id r) uid) (table s)))
                [] (connected uid s)
                (index_order_perm _) (loop_inv_start _ _ _) (Forall_nil _) (Forall_nil _))
    as Hrun.
  cbn zeta in Hrun. rewrite <- select_user_rows in Hrun.
  destruct (for_each (ManualCheck.check_row W uid) (Store.select_user uid (table s))
              (connected uid s)) as [[[]|e] s2]; cbn [fst snd] in *;
    [|intros H; discriminate].
  destruct (db_fault W (dbops s2)); [intros H; discriminate|].
  cbn [snd]. unfold committed. cbn [trace set_trace followups hd_error table set_table
                                    set_dbops updates].
  destruct (Hrun eq_refl) as [_ Hrep2].
  destruct (updates s2) as [|u us]; [intros H; discriminate|].
  intros H _. inversion H; subst. exact Hrep2.
Qed.

Lemma X9_manual_embed_is_stored_witness :
  let s' := snd (ManualCheck.manual_check Demo.moved 7
                   (Demo.start (Demo.tracked_under "old" Demo.f5))) in
  exists ups, hd_error (followups (trace s')) = Some (ManualEmbed ups) /\
              map (fun e => fst (fst e)) ups = [("Solo Leveling", Demo.f6)] /\
              reported 7 ups (table s').
Proof.
  eexists. split; [reflexivity|]. split; [reflexivity|].
  apply (X9_manual_embed_is_stored Demo.moved 7
           (Demo.start (Demo.tracked_under "old" Demo.f5))).
  - intros n title v H. vm_compute in H. inversion H. right. eexists. reflexivity.
  - reflexivity.
Defined.

(** ** An update recorded and not stored *)



(** ** What the scheduled pass writes *)

Lemma same_identities_refl (s : St) : same_identities s s.
Proof. reflexivity. Qed.

Lemma same_identities_trans (a b c : St) :
  same_identities a b -> same_identities b c -> same_identities a c.
Proof. unfold same_identities. intros H1 H2. rewrite H2. exact H1. Qed.

Lemma same_identities_table {A : Type} (c : M A) :
  (forall s, table (snd (c s)) = table s) -> keeps same_identities c.
Proof. intros H s. unfold same_identities. rewrite H. reflexivity. Qed.

Lemma update_by_slug_identities (c : float) (now : nat) (uid : Z) (slug : string)
      (t : list Row) :
  map identity (Store.update_by_slug c now uid slug t) = map identity t.
Proof.
  unfold Store.update_by_slug. rewrite map_map. apply map_ext. intros r.
  destruct (Z.eqb (user_id r) uid && String.eqb (manhwa_slug r) slug); reflexivity.
Qed.

Lemma same_identities_check_row (W : World) (row : Z * string * string * option float) :
  keeps same_identities (Tracking.check_row W row).
Proof.
  destruct row as [[[uid title] slug] stored]. intros s.
  rewrite tracking_check_row_run.
  pose proof (untouched_tracking_latest W title slug s) as U.
  destruct (Tracking.get_latest_chapter W title slug s) as [[[info|]|e] s1];
    destruct U as (_ & _ & _ & U4 & _); cbn [snd] in U4.
  - destruct (float_gt (info_chapter info) (Tracking.or_zero stored)).
    + cbn zeta. destruct (db_fault W _); unfold same_identities, persisted, not_persisted;
        cbn [snd table set_trace set_table set_dbops set_user_updates].
      * rewrite U4. reflexivity.
      * rewrite update_by_slug_identities, U4. reflexivity.
    + unfold same_identities. cbn. rewrite U4. reflexivity.
  - unfold same_identities. cbn. rewrite U4. reflexivity.
  - unfold same_identities. cbn. rewrite U4. reflexivity.
Qed.

(** X11: the scheduled pass writes progress and nothing else.  After
    a scheduled pass, whatever the upstream, the database and the
    deliveries did, the table has the same rows in the same order, each
    with the id, user, title and slug it had: only
    [latest_chapter_notified] and [last_notified_time] can differ.  In
    particular a slug the lookup had to resolve again is never
    corrected. *)
Theorem X11_scheduled_pass_writes_progress_only (W : World) (s : St) :
  map identity (table (snd (Tracking.chapter_check_loop W s))) = map identity (table s).
Proof.
  rewrite chapter_check_loop_run. destruct (db_fault W (dbops s)); [reflexivity|].
  cbn [snd].
  pose proof (keeps_for_each _ same_identities_refl same_identities_trans
                (Tracking.check_row W) (Store.select_all (table s))
                (same_identities_check_row W) (rows_read (pass_started s))) as H.
  fold (Tracking.check_rows W (Store.select_all (table s))) in H.
  destruct (same_store_send_updates W
              (snd (Tracking.check_rows W (Store.select_all (table s))
                      (rows_read (pass_started s))))) as (T & _).
  rewrite T. exact H.
Qed.

(** ** The cost of a pass *)

Section Costs.

Lemma costs_weaken {A : Type} (a b a' b' : nat) (c : M A) :
  a <= a' -> b <= b' -> costs a b c -> costs a' b' c.
Proof. intros Ha Hb H s. destruct (H s). split; lia. Qed.

Lemma costs_ret {A : Type} (a b : nat) (x : A) : costs a b (ret x).
Proof. intros s. simpl. split; lia. Qed.

Lemma costs_raise {A : Type} (a b : nat) (e : exn) : costs a b (@raise A e).
Proof. intros s. simpl. split; lia. Qed.

Lemma costs_lift {A : Type} (a b : nat) (r : result A) : costs a b (lift r).
Proof. intros s. simpl. split; lia. Qed.

Lemma costs_emit (a b : nat) (e : Event) : costs a b (emit e).
Proof. intros s. simpl. split; lia. Qed.

Lemma costs_log (a b : nat) (m : LogMsg) : costs a b (log m).
Proof. apply costs_emit. Qed.

Lemma costs_idle {A : Type} (a b : nat) (c : M A) :
  (forall s, calls (snd (c s)) = calls s /\ clock (snd (c s)) = clock s) -> costs a b c.
Proof. intros H s. destruct (H s) as [-> ->]. split; lia. Qed.

Lemma costs_bind {A B : Type} (a1 b1 a2 b2 : nat) (c : M A) (k : A -> M B) :
  costs a1 b1 c -> (forall x, costs a2 b2 (k x)) -> costs (a1 + a2) (b1 + b2) (bind c k).
Proof.
  intros Hc Hk s. unfold bind. specialize (Hc s).
  destruct (c s) as [[x|e] s1]; cbn [snd] in *.
  - destruct (Hk x s1). split; lia.
  - split; lia.
Qed.

Lemma costs_bind_free {A B : Type} (a b : nat) (c : M A) (k : A -> M B) :
  costs 0 0 c -> (forall x, costs a b (k x)) -> costs a b (bind c k).
Proof. intros Hc Hk. apply (costs_bind 0 0 a b); assumption. Qed.

Lemma costs_bind_assoc {A B C : Type} (a b : nat) (c : M A) (f : A -> M B) (g : B -> M C) :
  costs a b (bind c (fun x => bind (f x) g)) -> costs a b (bind (bind c f) g).
Proof.
  intros H s. specialize (H s). unfold bind in *.
  destruct (c s) as [[x|e] s1]; exact H.
Qed.

Lemma costs_try {A : Type} (a b : nat) (c : M A) (h : exn -> M A) :
  costs a b c -> (forall e, costs 0 0 (h e)) -> costs a b (try_except c h).
Proof.
  intros Hc Hh s. unfold try_except. specialize (Hc s).
  destruct (c s) as [[x|e] s1]; cbn [snd] in *; [exact Hc|].
  destruct (Hh e s1). split; lia.
Qed.

Lemma costs_for_each {A : Type} (a b : nat) (body : A -> M unit) (xs : list A) :
  (forall x, costs a b (body x)) ->
  costs (List.length xs * a) (List.length xs * b) (for_each body xs).
Proof.
  intros H. induction xs as [|x xs IH]; [apply costs_ret|].
  cbn [for_each List.length Nat.mul]. apply costs_bind; [apply H | intros _; exact IH].
Qed.

End Costs.

(** One call of the scheduled client: at most three requests and two
    units of sleep. *)
Lemma costs_tracking_fetch_json (W : World) (u : string) (ps : list (string * string)) :
  costs 3 2 (Tracking.fetch_json W u ps).
Proof.
  intros s. unfold Tracking.fetch_json, Tracking.fetch_json_with.
  destruct (session s) eqn:Hs; [|simpl; split; lia].
  pose proof (tracking_attempts_first_answer W u ps Tracking.RETRIES 3 1 s eq_refl) as H.
  cbn zeta in H. change (Tracking.RETRIES + 1) with 3.
  destruct (first_answer W (Tracking.request u ps) (calls s) 3) as [[i j]|] eqn:F.
  - assert (Hi : i < 3).
    { clear - F. cbn in F.
      repeat match type of F with
             | context [body_of ?o] => destruct (body_of o)
             end; inversion F; lia. }
    destruct H as (_ & H2 & H3). split; lia.
  - destruct H as (_ & H2 & H3). split; lia.
Qed.

Lemma costs_bind_fetch {B : Type} (W : World) (u : string) (ps : list (string * string))
      (a b : nat) (k : json -> M B) :
  (forall x, costs a b (k x)) -> costs (3 + a) (2 + b) (bind (Tracking.fetch_json W u ps) k).
Proof. intros H. apply costs_bind; [apply costs_tracking_fetch_json | exact H]. Qed.

(** One call of the on-demand client: one request, no sleep. *)
Lemma costs_manual_fetch_json (W : World) (u : string) (ps : list (string * string)) :
  costs 1 0 (ManualCheck.fetch_json W u ps).
Proof.
  intros s. destruct (manual_fetch_json_single_attempt W u ps s) as (H1 & H2 & _).
  cbn zeta in H1, H2. split; lia.
Qed.

Lemma costs_bind_manual_fetch {B : Type} (W : World) (u : string)
      (ps : list (string * string)) (a b : nat) (k : json -> M B) :
  (forall x, costs a b (k x)) -> costs (1 + a) b (bind (ManualCheck.fetch_json W u ps) k).
Proof.
  intros H. apply (costs_bind 1 0 a b); [apply costs_manual_fetch_json | exact H].
Qed.

Ltac costs_auto :=
  repeat match goal with
    | |- costs _ _ (ret _) => apply costs_ret
    | |- costs _ _ (raise _) => apply costs_raise
    | |- costs _ _ (lift _) => apply costs_lift
    | |- costs _ _ (log _) => apply costs_log
    | |- costs _ _ (emit _) => apply costs_emit
    | |- costs _ _ (bind (bind _ _) _) => apply costs_bind_assoc
    | |- costs _ _ (bind (Tracking.fetch_json _ _ _) _) => apply costs_bind_fetch; intros ?
    | |- costs _ _ (bind (ManualCheck.fetch_json _ _ _) _) =>
        apply costs_bind_manual_fetch; intros ?
    | |- costs _ _ (bind (log _) _) => apply costs_bind_free; [apply costs_log | intros ?]
    | |- costs _ _ (bind (emit _) _) => apply costs_bind_free; [apply costs_emit | intros ?]
    | |- costs _ _ (bind (lift _) _) => apply costs_bind_free; [apply costs_lift | intros ?]
    | |- costs _ _ (bind (ret _) _) => apply costs_bind_free; [apply costs_ret | intros ?]
    | |- costs _ _ (bind (if ?b then _ else _) _) => destruct b
    | |- costs _ _ (bind (match ?x with _ => _ end) _) => destruct x
    | |- costs _ _ (match ?x with _ => _ end) => destruct x
    | |- costs _ _ (if ?b then _ else _) => destruct b
    end.

Lemma costs_tracking_latest (W : World) (title slug : string) :
  costs 12 8 (Tracking.get_latest_chapter W title slug).
Proof.
  unfold Tracking.get_latest_chapter, Tracking.resolve_comic, Tracking.search_slug.
  costs_auto.
Qed.

Lemma costs_tracking_row (W : World) (row : Z * string * string * option float) :
  costs 12 8 (Tracking.check_row W row).
Proof.
  destruct row as [[[uid title] slug] stored]. unfold Tracking.check_row.
  apply costs_try; [|intros e; apply costs_log].
  apply (costs_weaken (12 + 0) (8 + 0)); [lia | lia |].
  apply costs_bind; [apply costs_tracking_latest|].
  intros [info|]; [|apply costs_ret].
  destruct (float_gt _ _); [|apply costs_ret].
  apply costs_idle. intros s.
  unfold Tracking.record_update, Tracking.persist_progress, db_op, bind. cbn.
  destruct (db_fault W (dbops s)); split; reflexivity.
Qed.

Lemma costs_manual_row (W : World) (uid : Z) (row : string * string * option float) :
  costs 3 0 (ManualCheck.check_row W uid row).
Proof.
  destruct row as [[title slug] stored].
  unfold ManualCheck.check_row, ManualCheck.resolve_slug, ManualCheck.search_by_title,
    ManualCheck.get_latest_chapter.
  costs_auto;
    try (apply costs_idle; intros s;
         unfold ManualCheck.execute_update, db_op, bind; cbn;
         destruct (db_fault W (dbops s)); [split; reflexivity|];
         destruct (Store.bind_text W _); [|split; reflexivity];
         cbn; destruct (Store.update_by_title _ _ _ _ _ _); split; reflexivity).
Qed.

Lemma costs_send_dm (W : World) (entry : Z * list ChapterInfo) :
  costs 0 1 (Tracking.send_dm W entry).
Proof.
  destruct entry as [uid ups]. intros s.
  unfold Tracking.send_dm, try_except, bind, Tracking.platform_call, emit, raise, lift, log,
    sleep.
  destruct s as [se ca cl db dm ta tr uu up tx]. cbn.
  destruct (dm_fault W dm uid); cbn; [lia|].
  destruct (Tracking.embed_fields_of ups); cbn; [|lia].
  destruct (dm_fault W (S dm) uid); cbn; lia.
Qed.

Lemma dict_append_length (uid : Z) (i : ChapterInfo) (d : list (Z * list ChapterInfo)) :
  List.length (Tracking.dict_append uid i d) <= S (List.length d).
Proof.
  induction d as [|[u l] d IH]; simpl; [lia|].
  destruct (Z.eqb u uid); simpl; lia.
Qed.

(** The rows phase adds at most one user to [user_updates] per row. *)
Lemma check_rows_users (W : World) (rows : list (Z * string * string * option float)) :
  forall s,
    List.length (user_updates (snd (Tracking.check_rows W rows s))) <=
    List.length (user_updates s) + List.length rows.
Proof.
  unfold Tracking.check_rows.
  induction rows as [|[[[uid title] slug] stored] rows IH]; intros s; [simpl; lia|].
  destruct (tracking_check_row_effect W (mkRow 0 uid title slug stored 0) s)
    as (Hok & _ & _ & _ & _ & Hcases).
  cbn zeta in Hok, Hcases.
  change (row_tuple (mkRow 0 uid title slug stored 0)) with (uid, title, slug, stored)
    in Hok, Hcases.
  destruct (Tracking.check_row W (uid, title, slug, stored) s) as [res s1] eqn:Hrow.
  cbn [fst snd user_id] in Hok, Hcases. subst res.
  rewrite (for_each_cons_ok _ _ _ _ _ Hrow). specialize (IH s1). cbn [List.length].
  destruct Hcases as [(_ & E & _) | (info & _ & _ & E & _)]; rewrite E in IH; [lia|].
  pose proof (dict_append_length uid info (user_updates s)). lia.
Qed.

(** X12: what a pass costs the upstream.  A row of the scheduled pass
    sends at most twelve requests and sleeps at most eight units (four
    calls of the client, each of at most three attempts); a row of the
    on-demand pass sends at most three requests and never sleeps.  So a
    scheduled pass over [n] rows sends at most [12 n] requests and sleeps
    at most [9 n] units, the one unit after each message included, and an
    on-demand pass over the [n] rows of its user sends at most [3 n]
    requests and does not sleep at all. *)
Theorem X12_cost_of_a_pass :
  (forall W row, costs 12 8 (Tracking.check_row W row)) /\
  (forall W uid row, costs 3 0 (ManualCheck.check_row W uid row)) /\
  (forall W s,
      let s' := snd (Tracking.chapter_check_loop W s) in
      let n := List.length (table s) in
      calls s <= calls s' <= calls s + 12 * n /\ clock s <= clock s' <= clock s + 9 * n) /\
  (forall W uid s,
      let s' := snd (ManualCheck.manual_check W uid s) in
      let n := List.length (Store.select_user uid (table s)) in
      calls s <= calls s' <= calls s + 3 * n /\ clock s' = clock s).
Proof.
  split; [exact costs_tracking_row|]. split; [exact costs_manual_row|]. split.
  - intros W s. cbn zeta. rewrite chapter_check_loop_run.
    destruct (db_fault W (dbops s)); [cbn; lia|]. cbn [snd].
    set (s0 := rows_read (pass_started s)).
    set (rows := Store.select_all (table s)).
    assert (Hn : List.length rows = List.length (table s)) by apply length_map.
    pose proof (costs_for_each 12 8 (Tracking.check_row W) rows (costs_tracking_row W) s0) as Hc.
    fold (Tracking.check_rows W rows) in Hc.
    pose proof (check_rows_users W rows s0) as Hu.
    change (user_updates s0) with (@nil (Z * list ChapterInfo)) in Hu. cbn [List.length] in Hu.
    set (sa := snd (Tracking.check_rows W rows s0)) in *.
    pose proof (costs_for_each 0 1 (Tracking.send_dm W) (user_updates sa) (costs_send_dm W)
                  (set_trace (EvLog (LogSending (List.length (user_updates sa))) :: trace sa) sa))
      as Hd.
    assert (E : snd (Tracking.send_updates W sa) =
                snd (for_each (Tracking.send_dm W) (user_updates sa)
                       (set_trace (EvLog (LogSending (List.length (user_updates sa)))
                                   :: trace sa) sa))) by reflexivity.
    rewrite E.
    change (calls (set_trace _ sa)) with (calls sa) in Hd.
    change (clock (set_trace _ sa)) with (clock sa) in Hd.
    change (calls s0) with (calls s) in Hc. change (clock s0) with (clock s) in Hc.
    rewrite Hn in *. lia.
  - intros W uid s. cbn zeta. rewrite manual_check_run.
    destruct (db_fault W (dbops s)); [cbn; lia|].
    destruct (Store.select_user uid (table s)) as [|row rows] eqn:Hsel; [cbn; lia|].
    pose proof (costs_for_each 3 0 (ManualCheck.check_row W uid) (row :: rows)
                  (costs_manual_row W uid) (connected uid s)) as Hc.
    change (calls (connected uid s)) with (calls s) in Hc.
    change (clock (connected uid s)) with (clock s) in Hc.
    destruct (for_each (ManualCheck.check_row W uid) (row :: rows) (connected uid s))
      as [[[]|e] s2]; cbn [snd] in Hc.
    + destruct (db_fault W (dbops s2)); cbn [snd];
        [change (calls (manual_failed _ _)) with (calls s2);
         change (clock (manual_failed _ _)) with (clock s2)
        |change (calls (committed s2)) with (calls s2);
         change (clock (committed s2)) with (clock s2)]; lia.
    + cbn [snd]. change (calls (manual_failed e s2)) with (calls s2).
      change (clock (manual_failed e s2)) with (clock s2). lia.
Qed.

(** ** The scheduled lookup under a working slug *)

Lemma no_search_attempts (W : World) (u : string) (ps : list (string * string))
      (retries : nat) (attempts : list nat) :
  String.eqb u (Tracking.BASE_URL ++ "/v1.0/search") = false ->
  keeps (grows no_search) (Tracking.fetch_attempts W u ps retries attempts).
Proof.
  intros Hu.
  assert (Hget : keeps (grows no_search) (http_get W (Tracking.request u ps))).
  { apply quiet_http_get. intros n. unfold no_search. cbn [url Tracking.request].
    rewrite Hu. reflexivity. }
  induction attempts as [|a rest IH]; simpl.
  - apply keeps_ret, grows_refl.
  - assert (Hr : keeps (grows no_search)
                   (Tracking.retry_or_give_up retries a
                      (Tracking.fetch_attempts W u ps retries rest))).
    { unfold Tracking.retry_or_give_up.
      repeat first
        [ exact IH
        | apply quiet_sleep; reflexivity
        | keeps_step (grows_refl no_search) (grows_trans no_search) ]. }
    unfold log.
    repeat first
      [ exact Hget
      | exact Hr
      | apply grows_emit; reflexivity
      | keeps_step (grows_refl no_search) (grows_trans no_search) ].
Qed.

Lemma no_search_fetch_json (W : World) (u : string) (ps : list (string * string)) :
  String.eqb u (Tracking.BASE_URL ++ "/v1.0/search") = false ->
  keeps (grows no_search) (Tracking.fetch_json W u ps).
Proof.
  intros Hu s. unfold Tracking.fetch_json, Tracking.fetch_json_with. destruct (session s).
  - apply no_search_attempts, Hu.
  - apply grows_refl.
Qed.

Lemma comic_url_not_search (x : string) :
  String.eqb (Tracking.BASE_URL ++ "/v1.0/comic/" ++ x) (Tracking.BASE_URL ++ "/v1.0/search")
  = false.
Proof. reflexivity. Qed.

(** The second half of the scheduled lookup, once the comic data is at
    hand under the slug [slug']. *)
Lemma tracking_latest_resolved (W : World) (title slug : string) (s s1 : St) (d : json) :
  Tracking.fetch_json W (Tracking.comic_url slug) Tracking.comic_params s = (Ok d, s1) ->
  Tracking.no_comic d = Ok false ->
  grows no_search s1 (snd (Tracking.get_latest_chapter W title slug s)) /\
  (forall info, fst (Tracking.get_latest_chapter W title slug s) = Ok (Some info) ->
                info_slug info = JStr slug /\ info_title info = title).
Proof.
  intros Hrun Hd.
  unfold Tracking.get_latest_chapter, Tracking.resolve_comic.
  split.
  - unfold bind at 1. rewrite (bind_ok _ _ _ _ _ Hrun).
    unfold bind at 1, lift at 1. rewrite Hd. cbv iota beta. unfold ret at 1. cbv iota beta.
    match goal with |- grows _ _ (snd (?c s1)) => assert (H : keeps (grows no_search) c) end.
    { unfold log.
      repeat first
        [ apply no_search_fetch_json, comic_url_not_search
        | apply grows_emit; reflexivity
        | keeps_step (grows_refl no_search) (grows_trans no_search) ]. }
    apply H.
  - intros info. unfold bind at 1. rewrite (bind_ok _ _ _ _ _ Hrun).
    unfold bind at 1, lift at 1. rewrite Hd. cbv iota beta. unfold ret at 1. cbv iota beta.
    unfold bind, lift, ret, log, emit.
    repeat match goal with
           | |- context [match ?x with _ => _ end] => destruct x; cbn [fst snd]
           end; intros H; try discriminate; inversion H; split; reflexivity.
Qed.

(** X13: the scheduled lookup searches only when it has to.  When the
    client, asked for the comic under the stored slug, returns a document
    that has the comic, [Tracking.get_latest_chapter] sends no request to
    the search, and the chapter it returns, if any, is reported under the
    title and the slug of the row. *)
Theorem X13_scheduled_lookup_without_search (W : World) (title slug : string) (s : St)
        (d : json) :
  fst (Tracking.fetch_json W (Tracking.comic_url slug) Tracking.comic_params s) = Ok d ->
  Tracking.no_comic d = Ok false ->
  let r := Tracking.get_latest_chapter W title slug s in
  (exists new, trace (snd r) = new ++ trace s /\ Forall (fun e => no_search e = true) new) /\
  (forall info, fst r = Ok (Some info) -> info_slug info = JStr slug /\ info_title info = title).
Proof.
  intros Hf Hd. cbn zeta.
  pose proof (no_search_fetch_json W (Tracking.comic_url slug) Tracking.comic_params
                (comic_url_not_search slug) s) as G1.
  destruct (Tracking.fetch_json W (Tracking.comic_url slug) Tracking.comic_params s)
    as [r1 s1] eqn:Hrun.
  cbn [fst snd] in Hf, G1. subst r1.
  destruct (tracking_latest_resolved W title slug s s1 d Hrun Hd) as [G2 Hinfo].
  split; [exact (grows_trans no_search _ _ _ G1 G2) | exact Hinfo].
Qed.

Lemma X13_scheduled_lookup_without_search_witness :
  let r := Tracking.get_latest_chapter (Demo.reports "12") "Solo Leveling" "solo"
             (Demo.start []) in
  (exists new, trace (snd r) = new ++ [] /\ Forall (fun e => no_search e = true) new) /\
  (forall info, fst r = Ok (Some info) ->
                info_slug info = JStr "solo" /\ info_title info = "Solo Leveling").
Proof.
  apply (X13_scheduled_lookup_without_search (Demo.reports "12") "Solo Leveling" "solo"
           (Demo.start []) Demo.comic_detail); reflexivity.
Defined.

(** ** A chapter number that cannot be read *)

(** X14: a chapter number that cannot be read.  When [float()] raises
    on the number of the latest chapter, [Tracking.get_latest_chapter]
    takes it to be 0.0; such a chapter is newer than no progress that is
    NULL, zero or positive, so a row checked with it is left alone: no
    update is recorded and the store is not written. *)
Theorem X14_unreadable_chapter_number (W : World) (raw : json) (stored : option float) :
  (exists e, Py.to_float (float_of_str W) raw = Raise e) ->
  match stored with
  | Some x => SFltb x (float_of_Z 0) = false
  | None => True
  end ->
  Tracking.chapter_number W raw = float_of_Z 0 /\
  float_gt (Tracking.chapter_number W raw) (Tracking.or_zero stored) = false /\
  (forall uid title slug s s1 info,
      Tracking.get_latest_chapter W title slug s = (Ok (Some info), s1) ->
      info_chapter info = Tracking.chapter_number W raw ->
      let s' := snd (Tracking.check_row W (uid, title, slug, stored) s) in
      table s' = table s /\ user_updates s' = user_updates s).
Proof.
  intros [e He] Hst.
  assert (E : Tracking.chapter_number W raw = float_of_Z 0)
    by (unfold Tracking.chapter_number; rewrite He; reflexivity).
  assert (G : float_gt (Tracking.chapter_number W raw) (Tracking.or_zero stored) = false).
  { rewrite E. unfold float_gt, Tracking.or_zero.
    destruct stored as [x|]; [|reflexivity].
    destruct (float_truthy x); [exact Hst | reflexivity]. }
  split; [exact E|]. split; [exact G|].
  intros uid title slug s s1 info Hrun Hc. cbn zeta.
  rewrite tracking_check_row_run, Hrun, Hc, G.
  pose proof (untouched_tracking_latest W title slug s) as U. rewrite Hrun in U.
  destruct U as (_ & _ & _ & U4 & U5 & _). split; assumption.
Qed.

Lemma X14_unreadable_chapter_number_witness :
  Tracking.chapter_number (Demo.reports "12") (JStr "Extra") = Demo.f0 /\
  float_gt (Tracking.chapter_number (Demo.reports "12") (JStr "Extra"))
           (Tracking.or_zero (Some Demo.f5)) = false.
Proof.
  destruct (X14_unreadable_chapter_number (Demo.reports "12") (JStr "Extra") (Some Demo.f5))
    as (H1 & H2 & _).
  - exists ValueError. reflexivity.
  - reflexivity.
  - split; [exact H1 | exact H2].
Defined.

(** ** The command [/add_manhwa] *)

Import AddManhwa.

(** The [try] block of [/add_manhwa], along the ways it can go: an
    exception and nothing written, or the value of
    [top.get("title", title)] and both INSERTs committed. *)
Lemma save_run (W : World) (uid : Z) (title : string) (top slug cover : json)
      (link : string) (b : Bot) :
  let r := save W uid title top slug cover link b in
  replies (snd r) = replies b /\ printed (snd r) = printed b /\
  session (core (snd r)) = session (core b) /\ clock (core (snd r)) = clock (core b) /\
  ((exists e, fst r = Raise e /\
              manhwas (snd r) = manhwas b /\ table (core (snd r)) = table (core b) /\
              manhwas_seq (snd r) = manhwas_seq b /\ tracking_seq (snd r) = tracking_seq b) \/
   (exists shown bound c slug',
      fst r = Ok shown /\
      Py.get_default top "title" (JStr title) = Ok shown /\
      bind_param W shown = Ok (Some bound) /\
      bind_param W cover = Ok c /\
      Store.bind_text W slug = Ok slug' /\
      manhwas (snd r) =
        manhwas b ++ [mkManhwa (next_id (manhwas_seq b) (map manhwas_id (manhwas b)))
                               uid bound c link] /\
      manhwas_seq (snd r) = next_id (manhwas_seq b) (map manhwas_id (manhwas b)) /\
      tracking_seq (snd r) = next_id (tracking_seq b) (map row_id (table (core b))) /\
      table (core (snd r)) =
        (if tracked uid slug' (table (core b))
         then table (core b)
         else table (core b) ++ [new_row b uid bound slug' (clock (core b))]))).
Proof.
  unfold save. cbn zeta.
  destruct (db_fault W (dbops (core b))).
  { cbn. repeat split. left. eexists. repeat split. }
  destruct (Py.get_default top "title" (JStr title)) as [shown|e] eqn:Hshown.
  2:{ cbn. repeat split. left. eexists. repeat split. }
  unfold insert_manhwa.
  destruct (bind_param W shown) as [[bound|]|e] eqn:Hbound.
  2:{ destruct (bind_param W cover); cbn; repeat split; left; eexists; repeat split. }
  2:{ cbn. repeat split. left. eexists. repeat split. }
  destruct (bind_param W cover) as [c|e] eqn:Hc.
  2:{ cbn. repeat split. left. eexists. repeat split. }
  destruct (db_fault W (dbops (core (db_tick b)))).
  { cbn. repeat split. left. eexists. repeat split. }
  unfold insert_tracking.
  destruct (Store.bind_text W slug) as [slug'|e] eqn:Hslug.
  2:{ cbn. repeat split. left. eexists. repeat split. }
  fold (tracked uid slug' (table (core b))).
  destruct (tracked uid slug' (table (core b))) eqn:T.
  - destruct (db_fault W (dbops (core (db_tick (db_tick b))))).
    { cbn. repeat split. left. eexists. repeat split. }
    cbn. repeat split. right. exists shown, bound, c, slug'. rewrite T. repeat split; assumption.
  - destruct (db_fault W (dbops (core (db_tick (db_tick b))))).
    { cbn. repeat split. left. eexists. repeat split. }
    cbn. repeat split. right. exists shown, bound, c, slug'. rewrite T. repeat split; assumption.
Qed.

(** [/add_manhwa], along the ways it can go. *)
Lemma add_manhwa_run (W : World) (uid : Z) (title : string) (b : Bot) :
  let r := add_manhwa W uid title b in
  let b' := snd r in
  session (core b') = session (core b) /\
  ((manhwas b' = manhwas b /\ table (core b') = table (core b) /\
    manhwas_seq b' = manhwas_seq b /\ tracking_seq b' = tracking_seq b /\
    ((replies b' = replies b /\ exists e, fst r = Raise e) \/
     (replies b' = NoResultsFound title :: replies b /\ fst r = Ok tt /\
      dbops (core b') = dbops (core b) /\
      exists slug top, fst (Tracking.search_slug W title (core b)) = Ok (slug, top) /\
                       Py.truthy slug = false) \/
     (replies b' = FailedToSave :: replies b /\ fst r = Ok tt))) \/
   (fst r = Ok tt /\
    exists slug top cover shown bound c slug',
      fst (Tracking.search_slug W title (core b)) = Ok (slug, top) /\
      Py.truthy slug = true /\
      cover_of top = Ok cover /\
      Py.get_default top "title" (JStr title) = Ok shown /\
      bind_param W shown = Ok (Some bound) /\
      bind_param W cover = Ok c /\
      Store.bind_text W slug = Ok slug' /\
      let link := (Tracking.WEB_BASE ++ "/comic/" ++ fmt W slug)%string in
      replies b' = Added shown link (if Py.truthy cover then Some cover else None)
                   :: replies b /\
      manhwas b' = manhwas b ++ [mkManhwa (next_id (manhwas_seq b) (map manhwas_id (manhwas b)))
                                          uid bound c link] /\
      manhwas_seq b' = next_id (manhwas_seq b) (map manhwas_id (manhwas b)) /\
      tracking_seq b' = next_id (tracking_seq b) (map row_id (table (core b))) /\
      table (core b') =
        (if tracked uid slug' (table (core b))
         then table (core b)
         else table (core b) ++
              [new_row b uid bound slug'
                 (clock (snd (Tracking.search_slug W title (core b))))]))).
Proof.
  unfold add_manhwa. cbn zeta.
  change (core (print (AddCalled uid title) b)) with (core b).
  pose proof (untouched_search_slug W title (core b)) as U.
  destruct (Tracking.search_slug W title (core b)) as [[[slug top]|e] s1];
    destruct U as (U1 & U2 & _ & U4 & _); cbn [snd fst] in *.
  2:{ split; [exact U1|]. left. cbn. rewrite U4. repeat split. left. split; [reflexivity|].
      eexists. reflexivity. }
  destruct (Py.truthy slug) eqn:Hslug; cbn [negb].
  2:{ split; [exact U1|]. left. cbn. rewrite U4, U2. repeat split. right. left.
      repeat split. exists slug, top. split; [reflexivity | exact Hslug]. }
  destruct (cover_of top) as [cover|e] eqn:Hcover.
  2:{ split; [exact U1|]. left. cbn. rewrite U4. repeat split. left. split; [reflexivity|].
      eexists. reflexivity. }
  set (b1 := set_core s1 (print (AddCalled uid title) b)).
  destruct (save_run W uid title top slug cover
              (Tracking.WEB_BASE ++ "/comic/" ++ fmt W slug)%string b1)
    as (R1 & R2 & R3 & R4 & Hcases).
  cbn zeta in R1, R2, R3, R4, Hcases.
  destruct (save W uid title top slug cover _ b1) as [[shown|e] b2]; cbn [fst snd] in *.
  - destruct Hcases as [(e & He & _) | (shown' & bound & c & slug' & Hs & H1 & H2 & H3 & H4 &
                                         H5 & H6 & H7)]; [discriminate|].
    inversion Hs; subst shown'. split; [cbn; rewrite R3; exact U1|]. right.
    split; [reflexivity|].
    exists slug, top, cover, shown, bound, c, slug'.
    repeat (split; [first [reflexivity | assumption]|]). cbn zeta.
    split; [cbn; rewrite R1; reflexivity|].
    split; [cbn; rewrite H5; reflexivity|].
    split; [cbn; rewrite H6; reflexivity|].
    destruct H7 as [H7 H8].
    change (table (core b1)) with (table s1) in H7, H8.
    change (clock (core b1)) with (clock s1) in H8.
    change (tracking_seq b1) with (tracking_seq b) in H7.
    rewrite U4 in H7, H8. cbn [core tracking_seq reply print].
    split; [exact H7|]. rewrite H8.
    destruct (tracked uid slug' (table (core b))); [reflexivity|].
    unfold new_row. change (tracking_seq b1) with (tracking_seq b).
    change (table (core b1)) with (table s1). rewrite U4. reflexivity.
  - destruct Hcases as [(e' & _ & H5 & H6 & H7 & H8) | (shown & bound & c & slug' & Hs & _)];
      [|discriminate].
    split; [cbn; rewrite R3; exact U1|]. left. cbn. rewrite H5, H6, H7, H8, R1.
    change (table (core b1)) with (table s1). rewrite U4.
    repeat split. right. right. split; reflexivity.
Qed.

Lemma cons_not_self {A : Type} (x : A) (l : list A) : l <> x :: l.
Proof.
  intros H. apply (f_equal (@List.length A)) in H. simpl in H. lia.
Qed.

(** X15: [/add_manhwa] saves both rows or none.  The command either
    leaves both tables as they were, and then it has not answered that the
    manhwa was added; or it has answered so, and then [manhwas] has one
    more row, for the user and with the link of the answer, and
    [chapter_tracking] either already tracked the slug for that user and
    is unchanged, or has one more row: the user's, under the same title,
    with progress 0.0. *)
Theorem X15_add_manhwa_all_or_nothing (W : World) (uid : Z) (title : string) (b : Bot) :
  let b' := snd (add_manhwa W uid title b) in
  (manhwas b' = manhwas b /\ table (core b') = table (core b) /\
   forall shown link image, replies b' <> Added shown link image :: replies b) \/
  (exists m shown link image slug,
     replies b' = Added shown link image :: replies b /\
     manhwas b' = manhwas b ++ [m] /\
     manhwas_user_id m = uid /\ manhwas_link m = link /\
     ((tracked uid slug (table (core b)) = true /\ table (core b') = table (core b)) \/
      (tracked uid slug (table (core b)) = false /\
       exists row,
         table (core b') = table (core b) ++ [row] /\
         user_id row = uid /\ manhwa_slug row = slug /\
         manhwa_title row = manhwas_title m /\
         latest_chapter_notified row = Some (float_of_Z 0)))).
Proof.
  cbn zeta. destruct (add_manhwa_run W uid title b) as (_ & Hcases). cbn zeta in Hcases.
  destruct Hcases as [(H1 & H2 & _ & _ & Hr) | (_ & slug & top & cover & shown & bound & c &
                                                slug' & _ & _ & _ & _ & _ & _ & _ & Hrest)].
  - left. split; [exact H1|]. split; [exact H2|]. intros shown link image E.
    destruct Hr as [[Hr _] | [[Hr _] | [Hr _]]]; rewrite Hr in E;
      [exact (cons_not_self _ _ E) | discriminate | discriminate].
  - right. cbn zeta in Hrest. destruct Hrest as (R1 & R2 & _ & R4).
    eexists. exists shown. eexists. eexists. exists slug'.
    split; [exact R1|]. split; [exact R2|]. split; [reflexivity|]. split; [reflexivity|].
    destruct R4 as [_ R4]. destruct (tracked uid slug' (table (core b))).
    + left. split; [reflexivity | exact R4].
    + right. split; [reflexivity|]. eexists. split; [exact R4|]. repeat split.
Qed.

(** X16: adding what is already tracked keeps the progress.  When the
    user already tracks the slug the search returns, [/add_manhwa] leaves
    [chapter_tracking] as it was, whatever else happens: INSERT OR IGNORE
    skips the row, the stored progress is not set back to 0. *)
Theorem X16_add_manhwa_keeps_progress (W : World) (uid : Z) (title : string) (b : Bot)
        (slug top : json) (slug' : string) :
  fst (Tracking.search_slug W title (core b)) = Ok (slug, top) ->
  Store.bind_text W slug = Ok slug' ->
  tracked uid slug' (table (core b)) = true ->
  table (core (snd (add_manhwa W uid title b))) = table (core b).
Proof.
  intros Hs Hb Ht.
  destruct (add_manhwa_run W uid title b) as (_ & Hcases). cbn zeta in Hcases.
  destruct Hcases as [(_ & H2 & _) | (_ & slug1 & top1 & cover & shown & bound & c &
                                      slug1' & Hs1 & _ & _ & _ & _ & _ & Hb1 & Hrest)];
    [exact H2|].
  rewrite Hs in Hs1. inversion Hs1; subst slug1 top1.
  rewrite Hb in Hb1. inversion Hb1; subst slug1'.
  cbn zeta in Hrest. destruct Hrest as (_ & _ & _ & _ & R4). rewrite Ht in R4. exact R4.
Qed.

Lemma X16_add_manhwa_keeps_progress_witness :
  let b := mkBot (Demo.start [mkRow 1 7 "Solo Leveling" "new" (Some Demo.f12) 0])
                 [] 0 1 [] [] in
  let b' := snd (add_manhwa Demo.moved 7 "solo leveling" b) in
  table (core b') = [mkRow 1 7 "Solo Leveling" "new" (Some Demo.f12) 0] /\
  map manhwas_title (manhwas b') = ["Solo Leveling"].
Proof.
  split; [|reflexivity].
  apply (X16_add_manhwa_keeps_progress Demo.moved 7 "solo leveling"
           (mkBot (Demo.start [mkRow 1 7 "Solo Leveling" "new" (Some Demo.f12) 0])
                  [] 0 1 [] [])
           (JStr "new")
           (JObj [("slug", JStr "new"); ("title", JStr "Solo Leveling")]) "new");
    reflexivity.
Defined.

Lemma next_id_above (seq : Z) (ids : list Z) :
  (seq < next_id seq ids)%Z /\ Forall (fun i => (i < next_id seq ids)%Z) ids.
Proof.
  unfold next_id. induction ids as [|i ids [IH1 IH2]]; simpl.
  - split; [lia | constructor].
  - split; [lia|]. constructor; [lia|].
    eapply Forall_impl; [|exact IH2]. intros a Ha. cbn beta in Ha. lia.
Qed.

Lemma unique_keys_snoc (t : list Row) (r : Row) :
  Store.unique_keys t = true ->
  existsb (fun r' => Store.key_eqb (Store.key r) (Store.key r')) t = false ->
  Store.unique_keys (t ++ [r]) = true.
Proof.
  induction t as [|a t IH]; intros Hu Hn; [reflexivity|].
  simpl in Hu, Hn |- *. apply andb_true_iff in Hu. destruct Hu as [Ha Hu].
  apply orb_false_iff in Hn. destruct Hn as [Hna Hn].
  apply andb_true_iff. split; [|apply IH; assumption].
  apply negb_true_iff in Ha. apply negb_true_iff.
  rewrite existsb_app, Ha. simpl. rewrite orb_false_r.
  destruct (Store.key_eqb (Store.key a) (Store.key r)) eqn:E; [|reflexivity].
  apply key_eqb_eq in E. rewrite E in Hna.
  assert (T : Store.key_eqb (Store.key r) (Store.key r) = true) by (apply key_eqb_eq; reflexivity).
  congruence.
Qed.

Lemma NoDup_snoc_fresh (ids : list Z) (i : Z) :
  NoDup ids -> Forall (fun j => (j < i)%Z) ids -> NoDup (ids ++ [i]).
Proof.
  intros Hd Hf. apply NoDup_app; [exact Hd | repeat constructor; intros [] |].
  intros j Hj [<- | []]. rewrite Forall_forall in Hf. specialize (Hf _ Hj). lia.
Qed.

(** [/add_manhwa] keeps the database well formed. *)
Lemma add_manhwa_well_formed (W : World) (uid : Z) (title : string) (b : Bot) :
  well_formed b -> well_formed (snd (add_manhwa W uid title b)).
Proof.
  intros (W1 & W2 & W3 & W4 & W5 & W6).
  destruct (add_manhwa_run W uid title b) as (_ & Hcases). cbn zeta in Hcases.
  destruct Hcases as [(H1 & H2 & H3 & H4 & _) | (_ & slug & top & cover & shown & bound & c &
                                                slug' & _ & _ & _ & _ & _ & _ & _ & Hrest)].
  - unfold well_formed. rewrite H1, H2, H3, H4. repeat split; assumption.
  - cbn zeta in Hrest. destruct Hrest as (_ & R2 & R3 & R4).
    destruct (next_id_above (manhwas_seq b) (map manhwas_id (manhwas b))) as [M1 M2].
    destruct (next_id_above (tracking_seq b) (map row_id (table (core b)))) as [T1 T2].
    assert (M4 : NoDup (map manhwas_id (manhwas (snd (add_manhwa W uid title b))))).
    { rewrite R2, map_app. apply NoDup_snoc_fresh; [exact W4 | exact M2]. }
    assert (M5 : Forall (fun m => (manhwas_id m <= manhwas_seq (snd (add_manhwa W uid title b)))%Z)
                        (manhwas (snd (add_manhwa W uid title b)))).
    { rewrite R2, R3. apply Forall_app. split.
      - eapply Forall_impl; [|exact W5]. intros m Hm. cbn beta in Hm. lia.
      - constructor; [cbn; lia | constructor]. }
    unfold well_formed. destruct R4 as [R5 R4].
    destruct (tracked uid slug' (table (core b))) eqn:T.
    + rewrite R4, R5. split; [|split; [|split; [|split; [|split]]]]; try assumption.
      eapply Forall_impl; [|exact W3]. intros r Hr. cbn beta in Hr. lia.
    + rewrite R4, R5. split; [|split; [|split; [|split; [|split]]]]; try assumption.
      * apply unique_keys_snoc; [exact W1 | exact T].
      * rewrite map_app. apply NoDup_snoc_fresh; [exact W2 | exact T2].
      * apply Forall_app. split.
        -- eapply Forall_impl; [|exact W3]. intros r Hr. cbn beta in Hr. lia.
        -- constructor; [cbn; lia | constructor].
      * apply Forall_app. split; [exact W6|].
        constructor; [|constructor]. exists (float_of_Z 0). split; reflexivity.
Qed.

(** A pass keeps the database well formed. *)
Lemma run_pass_well_formed (p : Pass) (b : Bot) :
  well_formed b -> well_formed (set_core (run_pass p (core b)) b).
Proof.
  intros (W1 & W2 & W3 & W4 & W5 & W6).
  destruct (run_pass_effect p (core b) W1) as [Hadv Hu].
  unfold well_formed. cbn [core set_core manhwas manhwas_seq tracking_seq].
  set (t' := table (run_pass p (core b))) in *.
  assert (Hids : map row_id t' = map row_id (table (core b))).
  { clear - Hadv. induction Hadv as [|r r' l l' [(Hi & _) _] _ IH]; [reflexivity|].
    simpl. rewrite Hi, IH. reflexivity. }
  split; [exact Hu|]. split; [rewrite Hids; exact W2|]. split; [|split; [exact W4|split; [exact W5|]]].
  - clear - Hadv W3. induction Hadv as [|r r' l l' [(Hi & _) _] _ IH]; [constructor|].
    inversion W3; subst. constructor; [rewrite Hi; assumption | apply IH; assumption].
  - clear - Hadv W6. induction Hadv as [|r r' l l' [_ Ha] _ IH]; [constructor|].
    inversion W6 as [|x y (c & Hc & Hz) Hrest]; subst.
    constructor; [|apply IH; assumption].
    rewrite Hc in Ha. destruct Ha as [-> | Ha]; [exists c; split; [reflexivity | exact Hz]|].
    destruct (latest_chapter_notified r') as [c'|]; [|contradiction].
    exists c'. split; [reflexivity|].
    apply SFltb_leb. apply (SFleb_ltb_trans _ c); assumption.
Qed.

(** X17: the shape of the database.  From a well-formed database, the
    empty one for instance, whatever commands and passes follow and
    whatever the upstream, the database and the deliveries do, the
    database stays well formed: UNIQUE(user_id, manhwa_slug) holds, ids
    are distinct and below the sequence of their table, and every tracked
    row has a progress that is a number, zero or more.  So the comparison
    of the on-demand pass never meets a NULL. *)
Theorem X17_database_stays_well_formed (cs : list Command) (b : Bot) :
  well_formed b -> well_formed (run_commands cs b).
Proof.
  revert b. induction cs as [|c cs IH]; intros b Hb; [exact Hb|].
  change (run_commands (c :: cs) b) with (run_commands cs (run_command c b)).
  apply IH. destruct c as [W uid title | p]; simpl.
  - apply add_manhwa_well_formed, Hb.
  - apply run_pass_well_formed, Hb.
Qed.

Lemma X17_database_stays_well_formed_witness :
  well_formed (run_commands [Add Demo.moved 7 "solo leveling";
                             Run (Scheduled Demo.moved);
                             Add Demo.moved 7 "solo leveling";
                             Run (OnDemand (Demo.reports "12") 7)] fresh).
Proof.
  apply (X17_database_stays_well_formed
           [Add Demo.moved 7 "solo leveling"; Run (Scheduled Demo.moved);
            Add Demo.moved 7 "solo leveling"; Run (OnDemand (Demo.reports "12") 7)] fresh).
  unfold well_formed, fresh. cbn. repeat split; constructor.
Defined.

(** When the search finds a slug, the values bind and the database takes
    the three operations, [/add_manhwa] answers that the manhwa is
    added. *)
Lemma add_manhwa_answers_added (W : World) (uid : Z) (title : string) (b : Bot)
      (slug top cover shown : json) (bound slug' : string) (c : option string) :
  (forall n, db_fault W n = false) ->
  fst (Tracking.search_slug W title (core b)) = Ok (slug, top) ->
  Py.truthy slug = true ->
  cover_of top = Ok cover ->
  Py.get_default top "title" (JStr title) = Ok shown ->
  bind_param W shown = Ok (Some bound) ->
  bind_param W cover = Ok c ->
  Store.bind_text W slug = Ok slug' ->
  replies (snd (add_manhwa W uid title b)) =
    Added shown (Tracking.WEB_BASE ++ "/comic/" ++ fmt W slug)%string
          (if Py.truthy cover then Some cover else None) :: replies b.
Proof.
  intros Hdb Hs Ht Hc Hsh Hb1 Hb2 Hb3.
  unfold add_manhwa. cbn zeta. change (core (print (AddCalled uid title) b)) with (core b).
  destruct (Tracking.search_slug W title (core b)) as [r s1]. cbn [fst] in Hs. subst r.
  rewrite Ht. cbn [negb]. rewrite Hc.
  unfold save. cbn zeta. rewrite !Hdb, Hsh.
  unfold insert_manhwa. rewrite Hb1, Hb2.
  unfold insert_tracking. rewrite Hb3.
  destruct (existsb _ _); reflexivity.
Qed.

(** X18: adding twice lists twice and tracks once.  Against an
    upstream that answers the same each time, whose search finds an
    identifier that is a string, and a database that takes every
    operation, a [/add_manhwa] that has been answered "added" and is
    repeated by the same user with the same title is answered "added"
    again: [manhwas] gets a second row like the first, [chapter_tracking]
    is left as the first command left it. *)
Theorem X18_add_manhwa_twice (W : World) (uid : Z) (title : string) (b : Bot)
        (shown : json) (link : string) (image : option json) :
  stationary W ->
  (forall n, db_fault W n = false) ->
  (exists found top, fst (Tracking.search_slug W title (core b)) = Ok (JStr found, top)) ->
  let b1 := snd (add_manhwa W uid title b) in
  let b2 := snd (add_manhwa W uid title b1) in
  replies b1 = Added shown link image :: replies b ->
  replies b2 = Added shown link image :: replies b1 /\
  table (core b2) = table (core b1) /\
  exists m1 m2,
    manhwas b2 = manhwas b ++ [m1; m2] /\
    manhwas_user_id m2 = manhwas_user_id m1 /\ manhwas_title m2 = manhwas_title m1 /\
    manhwas_cover m2 = manhwas_cover m1 /\ manhwas_link m2 = manhwas_link m1 /\
    manhwas_id m1 <> manhwas_id m2.
Proof.
  intros HW Hdb _. cbn zeta. intros Hr1.
  destruct (add_manhwa_run W uid title b) as (Hsess & Hcases). cbn zeta in Hsess, Hcases.
  destruct Hcases as [(_ & _ & _ & _ & Hr) | (_ & slug & top & cover & shown1 & bound & c &
                                              slug' & Hs & Ht & Hc & Hsh & Hb1 & Hb2 & Hb3 &
                                              Hrest)].
  { exfalso. destruct Hr as [[Hr _] | [[Hr _] | [Hr _]]]; rewrite Hr in Hr1;
      [exact (cons_not_self _ _ Hr1) | discriminate | discriminate]. }
  cbn zeta in Hrest. destruct Hrest as (R1 & R2 & R3 & R4).
  rewrite R1 in Hr1. inversion Hr1; subst shown link image. clear Hr1.
  set (b1 := snd (add_manhwa W uid title b)) in *.
  assert (Hs' : fst (Tracking.search_slug W title (core b1)) = Ok (slug, top)).
  { destruct (steady_search_slug W HW title (core b1) (core b) Hsess) as [E _].
    rewrite E. exact Hs. }
  pose proof (add_manhwa_answers_added W uid title b1 slug top cover shown1 bound slug' c
                Hdb Hs' Ht Hc Hsh Hb1 Hb2 Hb3) as Hr2.
  split; [exact Hr2|].
  destruct (add_manhwa_run W uid title b1) as (_ & Hcases). cbn zeta in Hcases.
  destruct Hcases as [(_ & _ & _ & _ & Hr) | (_ & slug2 & top2 & cover2 & shown2 & bound2 & c2 &
                                              slug2' & Hs2 & _ & Hc2 & Hsh2 & Hb12 & Hb22 &
                                              Hb32 & Hrest2)].
  { exfalso. destruct Hr as [[Hr _] | [[Hr _] | [Hr _]]]; rewrite Hr in Hr2;
      [exact (cons_not_self _ _ Hr2) | discriminate | discriminate]. }
  rewrite Hs' in Hs2. inversion Hs2; subst slug2 top2.
  rewrite Hc in Hc2. inversion Hc2; subst cover2.
  rewrite Hsh in Hsh2. inversion Hsh2; subst shown2.
  rewrite Hb1 in Hb12. inversion Hb12; subst bound2.
  rewrite Hb2 in Hb22. inversion Hb22; subst c2.
  rewrite Hb3 in Hb32. inversion Hb32; subst slug2'.
  cbn zeta in Hrest2. destruct Hrest2 as (_ & Q2 & _ & _ & Q4).
  destruct R4 as [_ R4].
  assert (T : tracked uid slug' (table (core b1)) = true).
  { rewrite R4. destruct (tracked uid slug' (table (core b))) eqn:T0; [exact T0|].
    unfold tracked. rewrite existsb_app. simpl.
    assert (K : Store.key_eqb (uid, slug') (uid, slug') = true) by (apply key_eqb_eq; reflexivity).
    unfold Store.key at 2. cbn [user_id manhwa_slug new_row]. rewrite K.
    rewrite orb_true_r. reflexivity. }
  rewrite T in Q4. split; [exact Q4|].
  eexists. eexists. split; [rewrite Q2, R2, <- app_assoc; reflexivity|].
  cbn [manhwas_user_id manhwas_title manhwas_cover manhwas_link manhwas_id].
  repeat split. rewrite R3.
  pose proof (next_id_above (next_id (manhwas_seq b) (map manhwas_id (manhwas b)))
                (map manhwas_id (manhwas b1))) as [M _].
  rewrite R2 in M. lia.
Qed.

Lemma X18_add_manhwa_twice_witness :
  let b1 := snd (add_manhwa Demo.moved 7 "solo leveling" fresh) in
  let b2 := snd (add_manhwa Demo.moved 7 "solo leveling" b1) in
  List.length (replies b2) = 2 /\ table (core b2) = table (core b1) /\
  List.length (manhwas b2) = 2.
Proof.
  destruct (X18_add_manhwa_twice Demo.moved 7 "solo leveling" fresh
              (JStr "Solo Leveling") "https://comick.dev/comic/new" None)
    as (H1 & H2 & m1 & m2 & H3 & _).
  - intros n m r. reflexivity.
  - intros n. reflexivity.
  - eexists. eexists. vm_compute. reflexivity.
  - reflexivity.
  - split; [rewrite H1; reflexivity|]. split; [exact H2|]. rewrite H3. reflexivity.
Defined.

(** ** The resolver after a lookup *)

(** X19: a slug the on-demand lookup found a chapter under is kept by
    the resolver.  Against an upstream that answers the same each time,
    when [Manual_Check.get_latest_chapter] has returned a chapter for a
    slug, [resolve_slug] called with that slug as the stored one returns
    it unchanged, whatever the title: the slug the pass writes back with
    an update is confirmed by the next pass. *)
Theorem X19_found_slug_is_kept (W : World) (slug : string) (l : ManualLatest) (s : St) :
  stationary W ->
  fst (ManualCheck.get_latest_chapter W (JStr slug) s) = Ok (Some l) ->
  forall title s',
    fst (ManualCheck.resolve_slug W title slug s') = Ok (JStr slug) /\
    calls (snd (ManualCheck.resolve_slug W title slug s')) = S (calls s').
Proof.
  intros HW Hl title s'.
  pose proof (no_chapters_has_items _ (manual_latest_some W HW (JStr slug) l s Hl)) as Hh.
  split; [apply (resolve_slug_listed W HW title slug s' Hh)|].
  unfold ManualCheck.resolve_slug.
  destruct (manual_fetch_json_eq W HW (ManualCheck.chapters_url W (JStr slug))
              ManualCheck.chapters_params s') as [s1 Hf].
  destruct (manual_fetch_json_single_attempt W (ManualCheck.chapters_url W (JStr slug))
              ManualCheck.chapters_params s') as (Hc & _).
  cbn zeta in Hc. rewrite Hf in Hc. cbn [snd] in Hc.
  rewrite (bind_ok _ _ _ _ _ Hf). unfold bind at 1, lift at 1. rewrite Hh. exact Hc.
Qed.

Lemma X19_found_slug_is_kept_witness :
  fst (ManualCheck.resolve_slug Demo.moved "any title" "new" (Demo.start [])) = Ok (JStr "new") /\
  calls (snd (ManualCheck.resolve_slug Demo.moved "any title" "new" (Demo.start []))) = 1.
Proof.
  apply (X19_found_slug_is_kept Demo.moved "new"
           (mkLatest (JStr "6") (JStr "Arise") "https://comick.dev/comic/new/chapter/h6")
           (Demo.start [])).
  - intros n m r. reflexivity.
  - reflexivity.
Defined.

(** ** A search answered with an object *)

(** X20: a search answered with a JSON object.  When the upstream
    answers the search with status 200 and a non-empty object where the
    list of results is expected (an error document, say),
    [search_slug] raises KeyError out of [data[0]].  [/add_manhwa] does
    not catch it: the command ends on the exception, having written
    nothing and given the interaction no answer. *)
Theorem X20_search_answered_with_an_object (W : World) (uid : Z) (title : string) (b : Bot)
        (kv : string * json) (items : list (string * json)) :
  session (core b) = true ->
  body_of (http W (calls (core b))
             (Tracking.request (Tracking.BASE_URL ++ "/v1.0/search")
                               (Tracking.search_request_params title)))
    = Some (JObj (kv :: items)) ->
  fst (Tracking.search_slug W title (core b)) = Raise KeyError /\
  let r := add_manhwa W uid title b in
  fst r = Raise KeyError /\
  replies (snd r) = replies b /\
  manhwas (snd r) = manhwas b /\
  table (core (snd r)) = table (core b) /\
  dbops (core (snd r)) = dbops (core b).
Proof.
  intros Hs Hb.
  assert (E : fst (Tracking.search_slug W title (core b)) = Raise KeyError).
  { unfold Tracking.search_slug. unfold bind at 1, log at 1, emit.
    set (s1 := set_trace _ (core b)).
    assert (Hf : Tracking.fetch_json W (Tracking.BASE_URL ++ "/v1.0/search")
                   (Tracking.search_request_params title) s1 =
                 (Ok (JObj (kv :: items)),
                  set_trace (EvGet (calls s1) (Tracking.request (Tracking.BASE_URL ++ "/v1.0/search")
                                                 (Tracking.search_request_params title))
                             :: trace s1) (set_calls (S (calls s1)) s1))).
    { unfold Tracking.fetch_json, Tracking.fetch_json_with.
      change (session s1) with (session (core b)). rewrite Hs.
      change (seq 1 (Tracking.RETRIES + 1)) with (1 :: seq 2 2).
      apply tracking_attempt_answered. exact Hb. }
    rewrite (bind_ok _ _ _ _ _ Hf). reflexivity. }
  split; [exact E|]. cbn zeta.
  pose proof (untouched_search_slug W title (core b)) as U.
  unfold add_manhwa. cbn zeta. change (core (print (AddCalled uid title) b)) with (core b).
  destruct (Tracking.search_slug W title (core b)) as [[v|e] s1]; cbn [fst] in E;
    [discriminate|].
  inversion E; subst e. destruct U as (_ & U2 & _ & U4 & _). cbn [snd] in U2, U4.
  cbn. repeat split; assumption.
Qed.

Lemma X20_search_answered_with_an_object_witness :
  let W := Demo.world (fun _ _ => Response 200 (Some (JObj [("message", JStr "Bad request")]))) in
  let r := add_manhwa W 7 "Solo Leveling" fresh in
  fst r = Raise KeyError /\ replies (snd r) = [] /\ manhwas (snd r) = [] /\
  table (core (snd r)) = [].
Proof.
  destruct (X20_search_answered_with_an_object
              (Demo.world (fun _ _ => Response 200 (Some (JObj [("message", JStr "Bad request")]))))
              7 "Solo Leveling" fresh ("message", JStr "Bad request") [])
    as (_ & H1 & H2 & H3 & H4 & _).
  - reflexivity.
  - reflexivity.
  - repeat split; assumption.
Defined.

(** ** Edges of a pass: no session, no database *)

(** Without a session the scheduled lookup finds nothing and sends
    nothing. *)
Lemma tracking_latest_no_session (W : World) (title slug : string) (s : St) :
  session s = false ->
  exists l, Tracking.get_latest_chapter W title slug s = (Ok None, set_trace (l ++ trace s) s).
Proof.
  intros Hs. unfold Tracking.get_latest_chapter, Tracking.resolve_comic, Tracking.search_slug,
    Tracking.fetch_json, Tracking.fetch_json_with, bind, log, emit, lift, ret.
  rewrite Hs. cbn. rewrite Hs. cbn.
  destruct s as [se ca cl db dm ta tr uu up tx]. cbn.
  eexists [_; _; _]. reflexivity.
Qed.

Lemma check_rows_no_session (W : World) (rows : list (Z * string * string * option float)) :
  forall s, session s = false ->
    exists l, Tracking.check_rows W rows s = (Ok tt, set_trace (l ++ trace s) s).
Proof.
  unfold Tracking.check_rows.
  induction rows as [|[[[uid title] slug] stored] rows IH]; intros s Hs.
  - exists []. destruct s; reflexivity.
  - destruct (tracking_latest_no_session W title slug s Hs) as [l1 H1].
    assert (Hrow : Tracking.check_row W (uid, title, slug, stored) s =
                   (Ok tt, set_trace (l1 ++ trace s) s)).
    { rewrite tracking_check_row_run, H1. reflexivity. }
    rewrite (for_each_cons_ok _ _ _ _ _ Hrow).
    destruct (IH (set_trace (l1 ++ trace s) s) Hs) as [l2 H2].
    rewrite H2. exists (l2 ++ l1). destruct s. cbn. rewrite app_assoc. reflexivity.
Qed.

(** X21: the guard of the scheduled client.  While the session of the
    tracking cog is not set, [Tracking.fetch_json] returns [None] without
    sending anything.  A scheduled pass started then sends no request,
    records no update, reaches for no user and leaves the table alone;
    [/add_manhwa] answers that there are no results and makes no database
    operation. *)
Theorem X21_nothing_is_sent_without_a_session (W : World) (s : St) :
  session s = false ->
  (forall u ps, Tracking.fetch_json W u ps s = (Ok JNull, s)) /\
  (let s' := snd (Tracking.chapter_check_loop W s) in
   calls s' = calls s /\ clock s' = clock s /\ dms s' = dms s /\
   user_updates s' = [] /\ table s' = table s) /\
  (forall uid title b,
      core b = s ->
      let r := add_manhwa W uid title b in
      fst r = Ok tt /\ replies (snd r) = NoResultsFound title :: replies b /\
      calls (core (snd r)) = calls s /\ dbops (core (snd r)) = dbops s /\
      manhwas (snd r) = manhwas b /\ table (core (snd r)) = table s).
Proof.
  intros Hs. split; [|split].
  - intros u ps. unfold Tracking.fetch_json, Tracking.fetch_json_with. rewrite Hs. reflexivity.
  - cbn zeta. rewrite chapter_check_loop_run.
    destruct (db_fault W (dbops s)); [repeat split|]. cbn [snd].
    destruct (check_rows_no_session W (Store.select_all (table s)) (rows_read (pass_started s)) Hs)
      as [l Hl].
    rewrite Hl. cbn [snd]. unfold Tracking.send_updates, bind, log, emit. cbn.
    repeat split.
  - intros uid title b Hb. cbn zeta. unfold add_manhwa. cbn zeta.
    change (core (print (AddCalled uid title) b)) with (core b). rewrite Hb.
    unfold Tracking.search_slug, Tracking.fetch_json, Tracking.fetch_json_with, bind, log, emit.
    cbn. rewrite Hs. cbn. repeat split.
Qed.

Lemma X21_nothing_is_sent_without_a_session_witness :
  let s := mkSt false 0 0 0 0 (Demo.tracked Demo.f5) [] [] [] [] in
  let s' := snd (Tracking.chapter_check_loop (Demo.reports "12") s) in
  calls s' = 0 /\ user_updates s' = [] /\ table s' = Demo.tracked Demo.f5.
Proof.
  destruct (X21_nothing_is_sent_without_a_session (Demo.reports "12")
              (mkSt false 0 0 0 0 (Demo.tracked Demo.f5) [] [] [] []))
    as (_ & (H1 & _ & _ & H4 & H5) & _).
  - reflexivity.
  - repeat split; assumption.
Defined.

(** X22: a pass whose initial read fails.  When the database fails on
    the SELECT a pass starts with, the scheduled pass prints the error and
    is over, the on-demand pass answers that the check failed: neither
    sends a request, reaches for a user or changes the table. *)
Theorem X22_failed_initial_read (W : World) (uid : Z) (s : St) :
  db_fault W (dbops s) = true ->
  (let s' := snd (Tracking.chapter_check_loop W s) in
   calls s' = calls s /\ dms s' = dms s /\ table s' = table s /\
   caught (trace s') = OperationalError :: caught (trace s)) /\
  (let s' := snd (ManualCheck.manual_check W uid s) in
   calls s' = calls s /\ table s' = table s /\
   followups (trace s') = CheckFailedSeeLogs :: followups (trace s) /\
   caught (trace s') = OperationalError :: caught (trace s)).
Proof.
  intros Hf. split; cbn zeta.
  - rewrite chapter_check_loop_run, Hf. repeat split.
  - rewrite manual_check_run, Hf. repeat split.
Qed.

Lemma X22_failed_initial_read_witness :
  let s := set_dbops 1 (Demo.start (Demo.tracked Demo.f5)) in
  let s' := snd (Tracking.chapter_check_loop Demo.moved_faulty_db s) in
  calls s' = 0 /\ table s' = Demo.tracked Demo.f5 /\ caught (trace s') = [OperationalError].
Proof.
  destruct (X22_failed_initial_read Demo.moved_faulty_db 7
              (set_dbops 1 (Demo.start (Demo.tracked Demo.f5))))
    as ((H1 & _ & H3 & H4) & _).
  - reflexivity.
  - repeat split; assumption.
Defined.

(** ** Stored progress over passes *)

(** X23: stored progress does not go down.  From a table that satisfies
    the UNIQUE constraint of the schema, after any sequence of scheduled
    and on-demand passes run one after the other, the identifiers that
    the title searches of the on-demand passes return being strings,
    whatever else the upstream, the database and the delivery do, every
    row is still the row it was (same id, user and title) and its
    [latest_chapter_notified] is what it was or a number greater than or
    equal to it. *)
Theorem X23_progress_never_regresses (ps : list Pass) (s : St) :
  Store.unique_keys (table s) = true ->
  text_identifiers ps ->
  Forall2 (fun r r' =>
             same_row r r' /\
             never_regressed (latest_chapter_notified r) (latest_chapter_notified r'))
          (table s) (table (run_passes ps s)).
Proof.
  intros Hu _. destruct (run_passes_effect ps s Hu) as [H _].
  eapply Forall2_impl; [|exact H].
  intros a b [Hs Ha]. split; [exact Hs | apply advanced_never_regressed, Ha].
Qed.

Lemma X23_progress_never_regresses_witness :
  Forall2 (fun r r' =>
             same_row r r' /\
             never_regressed (latest_chapter_notified r) (latest_chapter_notified r'))
          Demo.tracked_twice
          (table (run_passes [OnDemand Demo.moved 7; Scheduled Demo.moved;
                              OnDemand (Demo.reports "12") 7]
                             (Demo.start Demo.tracked_twice))).
Proof.
  apply (X23_progress_never_regresses
           [OnDemand Demo.moved 7; Scheduled Demo.moved; OnDemand (Demo.reports "12") 7]
           (Demo.start Demo.tracked_twice)).
  - reflexivity.
  - constructor; [|constructor; [exact I | constructor; [|constructor]]].
    + intros n title v H. vm_compute in H. inversion H. right. eexists. reflexivity.
    + intros n title v H. vm_compute in H. discriminate H.
Defined.
